(** * bball-api: the sync pipeline, the season-code resolver and the cache

    A shallow embedding of [netlify/functions/utils.js] and of the two
    boxscore-capable versions of [netlify/functions/sync.js] that the
    repository carries:

    - module [Boxscore]: the version that calls the upstream [/boxscore]
      endpoint and reads flat player objects;
    - module [Stats]: the version that calls the upstream [/stats] endpoint
      and reads [{player, stats}] entries.

    The cached read endpoints ([/api/game], [/api/boxscore] in two versions,
    [/api/pbp], [/api/rounds], [/api/player], [/api/games],
    [/api/standings]) are embedded as functions from the cache and the
    request to the response and the cache they leave (modules [Game],
    [BoxscoreApi], [BoxscoreSeason], [Pbp], [Rounds], [Player], [Games],
    [Standings]).

    Conventions of the embedding.
    - JavaScript values are the type [value]; a finite number is the
      rational value of a double, and every literal that is parsed and every
      arithmetic result is rounded to the nearest double by [to_double]
      (ties to even, overflow to an infinity); the sign of zero is not
      modelled.
    - Strings are byte strings; whitespace and letter case are the ASCII ones.
    - An exception is the [Throw] case of the [res] monad and carries the
      message of the JavaScript error.
    - Everything the handler obtains from outside (environment variable,
      upstream replies, store replies, clock, number formatting) is a field of
      the record [World]. *)

From Stdlib Require Import ZArith QArith Qpower Qabs String Ascii List Lia Lqa Bool.
From Stdlib Require Import DecimalString DecimalNat.
From stdpp Require Import base option list gmap strings.

Set Warnings "-register-all".
Local Open Scope string_scope.
Local Open Scope list_scope.

(** ** Numbers *)

Inductive num : Type :=
| Fin (q : Q)
| NaN
| Inf (neg : bool).

Definition Qneg (q : Q) : bool := (Qnum q <? 0)%Z.

(** [floor (log2 (n / d))] for positive [n] and [d]. *)
Definition binary_exponent (n d : Z) : Z :=
  let e0 := (Z.log2 n - Z.log2 d)%Z in
  if (n * 2 ^ Z.max 0 (- e0) <? d * 2 ^ Z.max 0 e0)%Z then (e0 - 1)%Z else e0.

(** [num / den] rounded to the nearest integer, ties to the even one. *)
Definition round_half_even (num den : Z) : Z :=
  let m0 := (num / den)%Z in
  let r := (num mod den)%Z in
  if (2 * r <? den)%Z then m0
  else if (den <? 2 * r)%Z then (m0 + 1)%Z
  else if Z.even m0 then m0 else (m0 + 1)%Z.

(** The double nearest to a rational: 53 significant bits, the exponent of
    the last bit from -1074 to 971, ties to the even significand, and an
    infinity from [2^1024 - 2^970] on.  With [ex] the exponent of the last
    bit of the result, [m] is [|q| / 2^ex] rounded to an integer. *)
Definition to_double (q : Q) : num :=
  let q := Qred q in
  let n := Z.abs (Qnum q) in
  let d := Z.pos (Qden q) in
  if (n =? 0)%Z then Fin 0
  else
    let ex := Z.max (binary_exponent n d - 52) (-1074) in
    let m := round_half_even (n * 2 ^ Z.max 0 (- ex)) (d * 2 ^ Z.max 0 ex) in
    if (2 ^ 1024 * 2 ^ Z.max 0 (- ex) <=? m * 2 ^ Z.max 0 ex)%Z
    then Inf (Qneg q)
    else Fin (Qred (inject_Z ((if Qneg q then -1 else 1) * m * 2 ^ Z.max 0 ex)
                    / inject_Z (2 ^ Z.max 0 (- ex)))).

(** [a + b] on numbers. *)
Definition num_add (a b : num) : num :=
  match a, b with
  | NaN, _ | _, NaN => NaN
  | Inf s, Inf t => if Bool.eqb s t then Inf s else NaN
  | Inf s, Fin _ | Fin _, Inf s => Inf s
  | Fin x, Fin y => to_double (x + y)
  end.

(** [a / b] on numbers. *)
Definition num_div (a b : num) : num :=
  match a, b with
  | NaN, _ | _, NaN => NaN
  | Inf _, Inf _ => NaN
  | Inf s, Fin y => Inf (xorb s (Qneg y))
  | Fin _, Inf _ => Fin 0
  | Fin x, Fin y =>
      if Qeq_bool y 0
      then (if Qeq_bool x 0 then NaN else Inf (Qneg x))
      else to_double (x / y)
  end.

(** ToBoolean on a number: [0] and [NaN] are falsy. *)
Definition num_truthy (n : num) : bool :=
  match n with
  | Fin q => negb (Qeq_bool q 0)
  | NaN => false
  | Inf _ => true
  end.

(** SameValueZero on numbers (the comparison of [Set.prototype.has]). *)
Definition num_same (a b : num) : bool :=
  match a, b with
  | Fin x, Fin y => Qeq_bool x y
  | NaN, NaN => true
  | Inf s, Inf t => Bool.eqb s t
  | _, _ => false
  end.

(** Integer literals small enough to be doubles. *)
Definition of_nat (n : nat) : num := Fin (inject_Z (Z.of_nat n)).
Definition of_Z (z : Z) : num := Fin (inject_Z z).

(** ** Strings *)

Definition code_of (c : ascii) : nat := nat_of_ascii c.

Definition is_digit (c : ascii) : bool :=
  (48 <=? code_of c)%nat && (code_of c <=? 57)%nat.

Definition digit_val (c : ascii) : Z := Z.of_nat (code_of c - 48).

(** Value of a hexadecimal digit, [None] for any other character. *)
Definition hex_val (c : ascii) : option Z :=
  let n := code_of c in
  if (48 <=? n)%nat && (n <=? 57)%nat then Some (Z.of_nat (n - 48))
  else if (65 <=? n)%nat && (n <=? 70)%nat then Some (Z.of_nat (n - 55))
  else if (97 <=? n)%nat && (n <=? 102)%nat then Some (Z.of_nat (n - 87))
  else None.

(** Tab, line feed, vertical tab, form feed, carriage return, space. *)
Definition is_ws (c : ascii) : bool :=
  let n := code_of c in
  ((9 <=? n)%nat && (n <=? 13)%nat) || (n =? 32)%nat.

Definition upper_char (c : ascii) : ascii :=
  let n := code_of c in
  if (97 <=? n)%nat && (n <=? 122)%nat then ascii_of_nat (n - 32) else c.

(** [s.toUpperCase()]. *)
Fixpoint toUpperCase (s : string) : string :=
  match s with
  | EmptyString => EmptyString
  | String c r => String (upper_char c) (toUpperCase r)
  end.

Fixpoint skip_ws (s : string) : string :=
  match s with
  | EmptyString => EmptyString
  | String c r => if is_ws c then skip_ws r else s
  end.

Fixpoint drop_trailing_ws (s : string) : string :=
  match s with
  | EmptyString => EmptyString
  | String c r =>
      match drop_trailing_ws r with
      | EmptyString => if is_ws c then EmptyString else String c EmptyString
      | r' => String c r'
      end
  end.

(** [s.trim()]. *)
Definition trim (s : string) : string := drop_trailing_ws (skip_ws s).

(** [s.split(sep)] for a one-character separator. *)
Fixpoint split (sep : ascii) (s : string) : list string :=
  match s with
  | EmptyString => [EmptyString]
  | String c r =>
      if Ascii.eqb c sep then EmptyString :: split sep r
      else match split sep r with
           | h :: t => String c h :: t
           | [] => [String c EmptyString]
           end
  end.

(** Optional sign in front of a numeric literal: [(negative, rest)]. *)
Definition read_sign (s : string) : bool * string :=
  match s with
  | String "-" r => (true, r)
  | String "+" r => (false, r)
  | _ => (false, s)
  end.

(** Longest prefix of decimal digits, read left to right on top of [acc]:
    [(value, number of digits read, rest)]. *)
Fixpoint read_digits (acc : Z) (s : string) : Z * nat * string :=
  match s with
  | String c r =>
      if is_digit c
      then let '(v, k, rest) := read_digits (10 * acc + digit_val c) r in
           (v, S k, rest)
      else (acc, 0%nat, s)
  | EmptyString => (acc, 0%nat, s)
  end.

Fixpoint read_hex_digits (acc : Z) (s : string) : Z * nat * string :=
  match s with
  | String c r =>
      match hex_val c with
      | Some d => let '(v, k, rest) := read_hex_digits (16 * acc + d) r in
                  (v, S k, rest)
      | None => (acc, 0%nat, s)
      end
  | EmptyString => (acc, 0%nat, s)
  end.

Definition signed (neg : bool) (z : Z) : Z := if neg then (- z)%Z else z.

(** [parseInt(s)] without a radix argument: leading whitespace, a sign, an
    optional [0x]/[0X] prefix, then the longest run of digits. *)
Definition parseInt (s : string) : num :=
  let '(neg, s1) := read_sign (skip_ws s) in
  let '(v, k, _) :=
    match s1 with
    | String "0" (String "x" r) | String "0" (String "X" r) => read_hex_digits 0 r
    | _ => read_digits 0 s1
    end in
  match k with
  | O => NaN
  | S _ => to_double (inject_Z (signed neg v))
  end.

(** The exponent part of a decimal literal; [0] when there is none. *)
Definition read_exponent (s : string) : Z :=
  match s with
  | String "e" r | String "E" r =>
      let '(neg, r1) := read_sign r in
      let '(v, k, _) := read_digits 0 r1 in
      match k with
      | O => 0%Z
      | S _ => signed neg v
      end
  | _ => 0%Z
  end.

(** [parseFloat(s)]: leading whitespace, then the longest prefix that is a
    decimal literal ([Infinity], digits with an optional fraction and
    exponent). *)
Definition parseFloat (s : string) : num :=
  let '(neg, s1) := read_sign (skip_ws s) in
  if String.prefix "Infinity" s1 then Inf neg
  else
    let '(ip, ki, r1) := read_digits 0 s1 in
    let '(fp, kf, r2) :=
      match r1 with
      | String "." t => read_digits 0 t
      | _ => (0%Z, 0%nat, r1)
      end in
    match (ki + kf)%nat with
    | O => NaN
    | S _ =>
        let mant := (inject_Z ip + inject_Z fp / inject_Z (10 ^ Z.of_nat kf))%Q in
        let q := (mant * Qpower 10 (read_exponent r2))%Q in
        to_double (if neg then - q else q)
    end.

Definition string_of_nat (n : nat) : string :=
  NilEmpty.string_of_uint (Nat.to_uint n).

(** ** Values *)

Inductive value : Type :=
| VUndefined
| VNull
| VBool (b : bool)
| VNum (n : num)
| VStr (s : string)
| VArr (l : list value)
| VObj (fields : list (string * value)).

Definition VNat (n : nat) : value := VNum (of_nat n).

(** ToBoolean. *)
Definition truthy (v : value) : bool :=
  match v with
  | VUndefined | VNull => false
  | VBool b => b
  | VNum n => num_truthy n
  | VStr s => negb (String.eqb s "")
  | VArr _ | VObj _ => true
  end.

(** [v === undefined || v === null]. *)
Definition nullish (v : value) : bool :=
  match v with
  | VUndefined | VNull => true
  | _ => false
  end.

(** [a || b]. *)
Definition js_or (a b : value) : value := if truthy a then a else b.

(** [a ?? b]. *)
Definition js_nn (a b : value) : value := if nullish a then b else a.

Definition is_str (v : value) : bool :=
  match v with VStr _ => true | _ => false end.

(** [v === "s"]. *)
Definition is_string (s : string) (v : value) : bool :=
  match v with VStr t => String.eqb t s | _ => false end.

(** [v === true]. *)
Definition is_true (v : value) : bool :=
  match v with VBool true => true | _ => false end.

(** [Array.isArray(v)]. *)
Definition isArray (v : value) : bool :=
  match v with VArr _ => true | _ => false end.

(** SameValueZero of a value with a number. *)
Definition same_as_num (v : value) (n : num) : bool :=
  match v with VNum m => num_same m n | _ => false end.

Fixpoint assoc (k : string) (fields : list (string * value)) : value :=
  match fields with
  | [] => VUndefined
  | (k', v) :: rest => if String.eqb k k' then v else assoc k rest
  end.

(** Reading the property [k] of a value that is neither [undefined] nor
    [null]: own fields of an object, [undefined] otherwise.  No property name
    read by the pipeline is [length], an index or a name inherited from a
    prototype, so arrays, strings, numbers and booleans answer [undefined]. *)
Definition field (v : value) (k : string) : value :=
  match v with
  | VObj fields => assoc k fields
  | _ => VUndefined
  end.

(** [v?.k]. *)
Definition opt (v : value) (k : string) : value :=
  if nullish v then VUndefined else field v k.

(** The operand of a numeric [+]: [None] for the values whose primitive is
    a string (strings, arrays, objects). *)
Definition as_addend (v : value) : option num :=
  match v with
  | VUndefined => Some NaN
  | VNull => Some (Fin 0)
  | VBool b => Some (Fin (if b then 1 else 0))
  | VNum n => Some n
  | VStr _ | VArr _ | VObj _ => None
  end.

(** ** Exceptions *)

Inductive res (A : Type) : Type :=
| Ok (a : A)
| Throw (msg : string).
Arguments Ok {A} a.
Arguments Throw {A} msg.

#[global] Instance res_ret : MRet res := fun A a => Ok a.
#[global] Instance res_bind : MBind res := fun A B f m =>
  match m with
  | Ok a => f a
  | Throw msg => Throw msg
  end.

(** [try { body } catch (err) { handler(err.message) }]. *)
Definition try_catch {A} (body : res A) (handler : string -> A) : A :=
  match body with
  | Ok a => a
  | Throw msg => handler msg
  end.

Definition type_name (v : value) : string :=
  match v with
  | VNull => "null"
  | _ => "undefined"
  end.

(** [v.k]: a TypeError when [v] is [undefined] or [null]. *)
Definition get (v : value) (k : string) : res value :=
  if nullish v
  then Throw ("Cannot read properties of " +:+ type_name v
              +:+ " (reading '" +:+ k +:+ "')")
  else Ok (field v k).

Fixpoint chars (s : string) : list value :=
  match s with
  | EmptyString => []
  | String c r => VStr (String c EmptyString) :: chars r
  end.

(** The elements visited by [for (const x of v)]: arrays and strings are
    iterable, anything else is a TypeError. *)
Definition iterate (v : value) : res (list value) :=
  match v with
  | VArr l => Ok l
  | VStr s => Ok (chars s)
  | _ => Throw "object is not iterable"
  end.

(** [l.map(f)] / a loop body run on every element, stopping at the first
    exception. *)
Fixpoint mapM_res {A B} (f : A -> res B) (l : list A) : res (list B) :=
  match l with
  | [] => Ok []
  | x :: rest => y ← f x; ys ← mapM_res f rest; Ok (y :: ys)
  end.

(** [l.filter(p)] for a predicate that may throw. *)
Fixpoint filterM_res {A} (p : A -> res bool) (l : list A) : res (list A) :=
  match l with
  | [] => Ok []
  | x :: rest =>
      b ← p x; ys ← filterM_res p rest; Ok (if b : bool then x :: ys else ys)
  end.

(** The slices [l.slice(i, i + n)] taken by [for (i = 0; i < l.length; i += n)]. *)
Fixpoint chunks_fuel {A} (fuel n : nat) (l : list A) : list (list A) :=
  match fuel with
  | O => []
  | S fuel' =>
      match l with
      | [] => []
      | _ => take n l :: chunks_fuel fuel' n (drop n l)
      end
  end.

Definition chunks {A} (n : nat) (l : list A) : list (list A) :=
  chunks_fuel (length l) n l.

(** ** The outside world *)

(** A settled HTTP exchange: status line, the outcome of [res.json()] and the
    text of [res.text()]. *)
Record http_reply : Type := {
  reply_status : nat;
  reply_json : res value;
  reply_text : string;
}.

(** [res.ok]. *)
Definition reply_ok (r : http_reply) : bool :=
  (200 <=? reply_status r)%nat && (reply_status r <=? 299)%nat.

Record World : Type := {
  (** Number::toString of the runtime. *)
  num_to_string : num -> string;
  (** [process.env.SUPABASE_SERVICE_KEY]. *)
  env_service_key : option string;
  (** [fetch(url)] with method GET: the reply, or the message of the
      rejection. *)
  http_get : string -> res http_reply;
  (** [fetch(url, {method: "POST", body: JSON.stringify(batch)})] for the
      batch with the given number (from 1) sent to this URL; the body is
      given as the row objects of the batch, before they are serialized. *)
  http_post : string -> nat -> list value -> res http_reply;
  (** [new Date().toISOString()] and the elapsed milliseconds. *)
  clock_iso : string;
  elapsed_ms : nat;
}.

(** ToString.  Only the decimal rendering of a number is left to the
    runtime ([num_to_string]). *)
Fixpoint ToString (w : World) (v : value) : string :=
  match v with
  | VUndefined => "undefined"
  | VNull => "null"
  | VBool true => "true"
  | VBool false => "false"
  | VNum n => num_to_string w n
  | VStr s => s
  | VArr l =>
      (fix join (l : list value) : string :=
         match l with
         | [] => ""
         | [x] => if nullish x then "" else ToString w x
         | x :: rest =>
             (if nullish x then "" else ToString w x) +:+ "," +:+ join rest
         end) l
  | VObj _ => "[object Object]"
  end.

(** [a + b]. *)
Definition js_add (w : World) (a b : value) : value :=
  match as_addend a, as_addend b with
  | Some x, Some y => VNum (num_add x y)
  | _, _ => VStr (ToString w a +:+ ToString w b)
  end.

(** ** utils.js *)

Definition EURO_API : string := "https://api-live.euroleague.net/v2".

Record request : Type := {
  req_method : string;
  (** [getParams(req)]: the query parameters, one string per name. *)
  req_params : gmap string string;
}.

Record response : Type := {
  status : nat;
  (** The value handed to [JSON.stringify] ([VNull] for an empty body). *)
  body : value;
}.

Definition jsonResponse (data : value) (st : nat) : response :=
  {| status := st; body := data |}.

Definition errorResponse (w : World) (message : string) (st : nat) : response :=
  jsonResponse
    (VObj [("error", VStr message); ("timestamp", VStr (clock_iso w))]) st.

Definition handleCors (req : request) : option response :=
  if String.eqb (req_method req) "OPTIONS"
  then Some {| status := 204; body := VNull |}
  else None.

(** [buildSeasonCode(code = "E", season = "2025", seasonCodeOverride = null)];
    an argument that is [None] is [undefined] (or [null] for the override). *)
Definition buildSeasonCode (code season seasonCodeOverride : option string)
  : string :=
  match seasonCodeOverride with
  | Some o =>
      if negb (String.eqb o "") then o
      else toUpperCase (default "E" code) +:+ default "2025" season
  | None => toUpperCase (default "E" code) +:+ default "2025" season
  end.

Definition getSeasonCode (params : gmap string string) : string :=
  let code := default "E" (params !! "code") in
  let season := default "2025" (params !! "season") in
  let seasonCode := params !! "seasonCode" in
  buildSeasonCode (Some code) (Some season)
    (match seasonCode with
     | Some s => if negb (String.eqb s "") then Some s else None
     | None => None
     end).

Record cache_entry : Type := {
  data : value;
  expires : Z;
  storedAt : string;
}.

(** The module-level [_cache] map is threaded explicitly; [now] is the value
    of [Date.now()] at the call, in milliseconds. *)
Module cache.

Definition get (now : Z) (key : string) (c : gmap string cache_entry)
  : value * gmap string cache_entry :=
  match c !! key with
  | None => (VNull, c)
  | Some entry =>
      if (now >? expires entry)%Z then (VNull, delete key c)
      else (data entry, c)
  end.

Definition set (now : Z) (iso : string) (key : string) (d : value)
    (ttlSeconds : option Z) (c : gmap string cache_entry)
  : gmap string cache_entry :=
  <[key := {| data := d;
              expires := (now + default 60 ttlSeconds * 1000)%Z;
              storedAt := iso |}]> c.

(** [get(key) !== null]. *)
Definition has (now : Z) (key : string) (c : gmap string cache_entry)
  : bool * gmap string cache_entry :=
  let '(v, c') := get now key c in
  (match v with VNull => false | _ => true end, c').

(** [{entries, keys}]; the order of the keys is not modelled. *)
Definition stats (c : gmap string cache_entry) : nat * list string :=
  (size c, (map_to_list c).*1).

End cache.

Definition euroFetch (w : World) (path : string) : res value :=
  r ← http_get w (EURO_API +:+ path);
  if negb (reply_ok r)
  then Throw ("EuroLeague API returned " +:+ string_of_nat (reply_status r)
              +:+ " for " +:+ path)
  else reply_json r.

(** ** sync.js: the parts common to both versions *)

Definition SUPABASE_URL : string := "https://knthptmdwgzkpfopceku.supabase.co".

Definition getSupabaseKey (w : World) : res string :=
  match env_service_key w with
  | Some key =>
      if negb (String.eqb key "") then Ok key
      else Throw "SUPABASE_SERVICE_KEY env var not set. Add it in Netlify → Site config → Environment variables."
  | None =>
      Throw "SUPABASE_SERVICE_KEY env var not set. Add it in Netlify → Site config → Environment variables."
  end.

Record upsert_result : Type := {
  ok : bool;
  count : nat;
  (** [None] when the returned object has no [errors] property. *)
  errors : option (list string);
}.

(** The object literal a row stands for, as [JSON.stringify] receives it. *)
Class Row (A : Type) : Type := row_json : A -> value.

#[global] Instance value_row : Row value := fun v => v.

(** The body of the loop of [supabaseUpsert], run over the batches left;
    [i] is the number of batches already sent. *)
Fixpoint upsert_batches {A} `{Row A} (w : World) (url table : string) (i : nat)
    (batches : list (list A)) (total : nat) (errs : list string)
  : res (nat * list string) :=
  match batches with
  | [] => Ok (total, errs)
  | batch :: rest =>
      r ← http_post w url (S i) (map row_json batch);
      if reply_ok r
      then upsert_batches w url table (S i) rest (total + length batch)%nat errs
      else upsert_batches w url table (S i) rest total
             (errs ++ [table +:+ " batch " +:+ string_of_nat (S i) +:+ ": "
                       +:+ string_of_nat (reply_status r) +:+ " — "
                       +:+ reply_text r])
  end.

(** A row of [live_games]. *)
Record live_game : Type := {
  lg_game_code : value;
  lg_season_code : string;
  lg_competition : string;
  lg_identifier : value;
  lg_round : value;
  lg_round_alias : value;
  lg_game_status : value;
  lg_played : value;
  lg_game_date : value;
  lg_local_code : value;
  lg_local_name : value;
  lg_local_full_name : value;
  lg_local_tv_code : value;
  lg_local_logo : value;
  lg_local_score : value;
  lg_local_q1 : value;
  lg_local_q2 : value;
  lg_local_q3 : value;
  lg_local_q4 : value;
  lg_local_ot : value;
  lg_road_code : value;
  lg_road_name : value;
  lg_road_full_name : value;
  lg_road_tv_code : value;
  lg_road_logo : value;
  lg_road_score : value;
  lg_road_q1 : value;
  lg_road_q2 : value;
  lg_road_q3 : value;
  lg_road_q4 : value;
  lg_road_ot : value;
  lg_venue_name : value;
  lg_audience : value;
  lg_raw_data : value;
  lg_synced_at : string;
}.

#[global] Instance live_game_row : Row live_game := fun r =>
  VObj [("game_code", lg_game_code r);
        ("season_code", VStr (lg_season_code r));
        ("competition", VStr (lg_competition r));
        ("identifier", lg_identifier r);
        ("round", lg_round r);
        ("round_alias", lg_round_alias r);
        ("game_status", lg_game_status r);
        ("played", lg_played r);
        ("game_date", lg_game_date r);
        ("local_code", lg_local_code r);
        ("local_name", lg_local_name r);
        ("local_full_name", lg_local_full_name r);
        ("local_tv_code", lg_local_tv_code r);
        ("local_logo", lg_local_logo r);
        ("local_score", lg_local_score r);
        ("local_q1", lg_local_q1 r);
        ("local_q2", lg_local_q2 r);
        ("local_q3", lg_local_q3 r);
        ("local_q4", lg_local_q4 r);
        ("local_ot", lg_local_ot r);
        ("road_code", lg_road_code r);
        ("road_name", lg_road_name r);
        ("road_full_name", lg_road_full_name r);
        ("road_tv_code", lg_road_tv_code r);
        ("road_logo", lg_road_logo r);
        ("road_score", lg_road_score r);
        ("road_q1", lg_road_q1 r);
        ("road_q2", lg_road_q2 r);
        ("road_q3", lg_road_q3 r);
        ("road_q4", lg_road_q4 r);
        ("road_ot", lg_road_ot r);
        ("venue_name", lg_venue_name r);
        ("audience", lg_audience r);
        ("raw_data", lg_raw_data r);
        ("synced_at", VStr (lg_synced_at r))].

(** [game.side?.club?.k]. *)
Definition club_of (game : value) (side k : string) : value :=
  opt (opt (field game side) "club") k.

(** [game.side?.partials?.k]. *)
Definition partial_of (game : value) (side k : string) : value :=
  opt (opt (field game side) "partials") k.

Definition transformGame (w : World) (game : value)
    (seasonCode competition : string) : res live_game :=
  gameCode ← get game "gameCode";
  Ok {| lg_game_code := gameCode;
        lg_season_code := seasonCode;
        lg_competition := competition;
        lg_identifier :=
          js_or (field game "identifier")
                (VStr (seasonCode +:+ "_" +:+ ToString w gameCode));
        lg_round := js_or (field game "round") VNull;
        lg_round_alias := js_or (field game "roundAlias") VNull;
        lg_game_status :=
          js_or (field game "gameStatus")
                (if truthy (field game "played")
                 then VStr "Played" else VStr "Scheduled");
        lg_played := js_or (field game "played") (VBool false);
        lg_game_date :=
          js_or (js_or (field game "utcDate") (field game "date")) VNull;
        lg_local_code := js_or (club_of game "local" "code") VNull;
        lg_local_name :=
          js_or (js_or (club_of game "local" "editorialName")
                       (club_of game "local" "abbreviatedName")) VNull;
        lg_local_full_name := js_or (club_of game "local" "name") VNull;
        lg_local_tv_code := js_or (club_of game "local" "tvCode") VNull;
        lg_local_logo :=
          js_or (opt (club_of game "local" "images") "crest") VNull;
        lg_local_score := js_nn (opt (field game "local") "score") (VNat 0);
        lg_local_q1 := js_nn (partial_of game "local" "partials1") VNull;
        lg_local_q2 := js_nn (partial_of game "local" "partials2") VNull;
        lg_local_q3 := js_nn (partial_of game "local" "partials3") VNull;
        lg_local_q4 := js_nn (partial_of game "local" "partials4") VNull;
        lg_local_ot := js_or (partial_of game "local" "extraPeriods") (VObj []);
        lg_road_code := js_or (club_of game "road" "code") VNull;
        lg_road_name :=
          js_or (js_or (club_of game "road" "editorialName")
                       (club_of game "road" "abbreviatedName")) VNull;
        lg_road_full_name := js_or (club_of game "road" "name") VNull;
        lg_road_tv_code := js_or (club_of game "road" "tvCode") VNull;
        lg_road_logo :=
          js_or (opt (club_of game "road" "images") "crest") VNull;
        lg_road_score := js_nn (opt (field game "road") "score") (VNat 0);
        lg_road_q1 := js_nn (partial_of game "road" "partials1") VNull;
        lg_road_q2 := js_nn (partial_of game "road" "partials2") VNull;
        lg_road_q3 := js_nn (partial_of game "road" "partials3") VNull;
        lg_road_q4 := js_nn (partial_of game "road" "partials4") VNull;
        lg_road_ot := js_or (partial_of game "road" "extraPeriods") (VObj []);
        lg_venue_name := js_or (opt (field game "venue") "name") VNull;
        lg_audience := js_or (field game "audience") VNull;
        lg_raw_data := game;
        lg_synced_at := clock_iso w |}.

(** Stage 1: [Array.isArray(gamesData) ? gamesData : (gamesData.data || gamesData)],
    then the shape check; [None] is the shape mismatch. *)
Definition games_of (gamesData : value) : res (option (list value)) :=
  gamesList ← (if isArray gamesData then Ok gamesData
               else d ← get gamesData "data"; Ok (js_or d gamesData));
  Ok (match gamesList with
      | VArr l => Some l
      | _ => None
      end).

(** [new Set(gamesFilter.split(",").map(g => parseInt(g.trim())))]. *)
Definition filterSet (gamesFilter : string) : list num :=
  map (fun g => parseInt (trim g)) (split "," gamesFilter).

(** [filterSet.has(v)]. *)
Definition set_has (s : list num) (v : value) : bool :=
  existsb (same_as_num v) s.

(** Stage 2: [if (gamesFilter) gamesList = gamesList.filter(...)]. *)
Definition apply_filter (gamesFilter : option string) (gamesList : list value)
  : res (list value) :=
  match gamesFilter with
  | Some f =>
      if negb (String.eqb f "")
      then filterM_res
             (fun g => gameCode ← get g "gameCode";
                       Ok (set_has (filterSet f) gameCode))
             gamesList
      else Ok gamesList
  | None => Ok gamesList
  end.

(** The filter that selects the games whose boxscore is fetched. *)
Definition fetch_eligible (g : value) : res bool :=
  played ← get g "played";
  Ok (is_true played
      || is_string "Played" (field g "gameStatus")
      || is_string "Live" (field g "gameStatus")
      || is_string "Playing" (field g "gameStatus")).

(** The filter behind the [eligible] number of the result object. *)
Definition reported_eligible (g : value) : res bool :=
  played ← get g "played";
  Ok (truthy played
      || is_string "Live" (field g "gameStatus")
      || is_string "Playing" (field g "gameStatus")).

(** [skipBoxscores !== "true" && skipBoxscores !== "1"]. *)
Definition doBoxscores (skipBoxscores : option string) : bool :=
  match skipBoxscores with
  | Some s => negb (String.eqb s "true") && negb (String.eqb s "1")
  | None => true
  end.

(** *** The boxscore fan-out (step 3) *)

(** What one callback of [batch.map(async (game) => ...)] resolves to:
    [{gameCode, boxscore, game}] or [{gameCode, error}]; a property that is
    not set reads as [undefined]. *)
Record boxscore_result : Type := {
  r_gameCode : value;
  r_boxscore : value;
  r_game : value;
  r_error : value;
}.

(** [boxscoreStats] together with [allPlayerRows]. *)
Record fanout_state (R : Type) : Type := {
  fetched : nat;
  fan_errors : list string;
  allPlayerRows : list R;
}.
Arguments fetched {R} _.
Arguments fan_errors {R} _.
Arguments allPlayerRows {R} _.

Definition fanout_init {R} : fanout_state R :=
  {| fetched := 0; fan_errors := []; allPlayerRows := [] |}.

Section Fanout.

Context {R : Type}.
Variable w : World.
(** [/boxscore] or [/stats]. *)
Variable endpoint : string.
(** [extractPlayers(boxscore, gameCode, seasonCode, competition, round, gameDate)]. *)
Variable extractPlayers :
  value -> value -> string -> string -> value -> value -> res (list R).
Variables code seasonCode : string.

Definition boxscore_path (gameCode : value) : string :=
  "/competitions/" +:+ toUpperCase code +:+ "/seasons/" +:+ seasonCode
  +:+ "/games/" +:+ ToString w gameCode +:+ endpoint.

(** The async callback with its own [try]/[catch]; [Throw] is a rejected
    promise. *)
Definition fetch_one (game : value) : res boxscore_result :=
  match (gameCode ← get game "gameCode";
         bs ← euroFetch w (boxscore_path gameCode);
         Ok {| r_gameCode := gameCode; r_boxscore := bs; r_game := game;
               r_error := VUndefined |}) with
  | Ok r => Ok r
  | Throw message =>
      gameCode ← get game "gameCode";
      Ok {| r_gameCode := gameCode; r_boxscore := VUndefined;
            r_game := VUndefined; r_error := VStr message |}
  end.

(** The body of [for (const result of boxscoreResults)]. *)
Definition collect (st : fanout_state R) (result : res boxscore_result)
  : res (fanout_state R) :=
  match result with
  | Throw _ => Ok st
  | Ok r =>
      if truthy (r_error r)
      then Ok {| fetched := fetched st;
                 fan_errors :=
                   fan_errors st
                   ++ ["Game " +:+ ToString w (r_gameCode r) +:+ ": "
                       +:+ ToString w (r_error r)];
                 allPlayerRows := allPlayerRows st |}
      else
        round ← get (r_game r) "round";
        playerRows ←
          extractPlayers (r_boxscore r) (r_gameCode r) seasonCode
            (toUpperCase code) round
            (js_or (field (r_game r) "utcDate") (field (r_game r) "date"));
        Ok {| fetched := S (fetched st);
              fan_errors := fan_errors st;
              allPlayerRows := allPlayerRows st ++ playerRows |}
  end.

Fixpoint collect_all (st : fanout_state R) (results : list (res boxscore_result))
  : res (fanout_state R) :=
  match results with
  | [] => Ok st
  | result :: rest => st' ← collect st result; collect_all st' rest
  end.

(** One batch: [Promise.allSettled(batch.map(...))] keeps the order of the
    batch, then the results are collected. *)
Fixpoint run_batches (st : fanout_state R) (batches : list (list value))
  : res (fanout_state R) :=
  match batches with
  | [] => Ok st
  | batch :: rest =>
      st' ← collect_all st (map fetch_one batch);
      run_batches st' rest
  end.

Definition concurrency : nat := 5.

Definition fanout (eligibleGames : list value) : res (fanout_state R) :=
  run_batches fanout_init (chunks concurrency eligibleGames).

End Fanout.

(** ** sync.js, the [/boxscore] version *)

Module Boxscore.

(** [supabaseUpsert(table, rows, serviceKey)]. *)
Definition supabaseUpsert {A} `{Row A} (w : World) (table : string) (rows : list A)
    (serviceKey : string) : res upsert_result :=
  if (length rows =? 0)%nat
  then Ok {| ok := true; count := 0; errors := None |}
  else
    '(total, errs) ←
      upsert_batches w (SUPABASE_URL +:+ "/rest/v1/" +:+ table) table 0
        (chunks 50 rows) 0 [];
    Ok {| ok := (length errs =? 0)%nat; count := total; errors := Some errs |}.

Definition parseMinutes (minStr : value) : num :=
  match minStr with
  | VStr s =>
      if negb (truthy minStr) then Fin 0
      else
        match split ":" s with
        | [p0; p1] => num_add (parseFloat p0) (num_div (parseFloat p1) (Fin 60))
        | _ => if num_truthy (parseFloat s) then parseFloat s else Fin 0
        end
  | _ => Fin 0
  end.

(** A row of [player_stats]. *)
Record player_row : Type := {
  game_code : value;
  season_code : value;
  competition : value;
  round : value;
  game_date : value;
  team_code : value;
  team_name : value;
  team_tv_code : value;
  is_local : bool;
  person_code : value;
  player_name : value;
  player_alias : value;
  dorsal : value;
  position : value;
  is_starter : value;
  minutes : value;
  minutes_decimal : value;
  points : value;
  field_goals_made : value;
  field_goals_attempted : value;
  two_points_made : value;
  two_points_attempted : value;
  three_points_made : value;
  three_points_attempted : value;
  free_throws_made : value;
  free_throws_attempted : value;
  offensive_rebounds : value;
  defensive_rebounds : value;
  total_rebounds : value;
  assists : value;
  turnovers : value;
  steals : value;
  blocks_favour : value;
  blocks_against : value;
  fouls_committed : value;
  fouls_received : value;
  pir : value;
  plus_minus : value;
  raw_data : value;
  synced_at : string;
}.

#[global] Instance player_row_json : Row player_row := fun r =>
  VObj [("game_code", game_code r);
        ("season_code", season_code r);
        ("competition", competition r);
        ("round", round r);
        ("game_date", game_date r);
        ("team_code", team_code r);
        ("team_name", team_name r);
        ("team_tv_code", team_tv_code r);
        ("is_local", VBool (is_local r));
        ("person_code", person_code r);
        ("player_name", player_name r);
        ("player_alias", player_alias r);
        ("dorsal", dorsal r);
        ("position", position r);
        ("is_starter", is_starter r);
        ("minutes", minutes r);
        ("minutes_decimal", minutes_decimal r);
        ("points", points r);
        ("field_goals_made", field_goals_made r);
        ("field_goals_attempted", field_goals_attempted r);
        ("two_points_made", two_points_made r);
        ("two_points_attempted", two_points_attempted r);
        ("three_points_made", three_points_made r);
        ("three_points_attempted", three_points_attempted r);
        ("free_throws_made", free_throws_made r);
        ("free_throws_attempted", free_throws_attempted r);
        ("offensive_rebounds", offensive_rebounds r);
        ("defensive_rebounds", defensive_rebounds r);
        ("total_rebounds", total_rebounds r);
        ("assists", assists r);
        ("turnovers", turnovers r);
        ("steals", steals r);
        ("blocks_favour", blocks_favour r);
        ("blocks_against", blocks_against r);
        ("fouls_committed", fouls_committed r);
        ("fouls_received", fouls_received r);
        ("pir", pir r);
        ("plus_minus", plus_minus r);
        ("raw_data", raw_data r);
        ("synced_at", VStr (synced_at r))].

(** [gameInfo] and [teamInfo] are object literals built by the caller;
    [player] is read with plain property accesses, the first of which is
    [player.personCode]. *)
Definition transformPlayerStats (w : World) (player gameInfo teamInfo : value)
    (isLocal : bool) : res player_row :=
  personCode ← get player "personCode";
  Ok {| game_code := field gameInfo "gameCode";
        season_code := field gameInfo "seasonCode";
        competition := field gameInfo "competition";
        round := js_or (field gameInfo "round") VNull;
        game_date := js_or (field gameInfo "gameDate") VNull;
        team_code := js_or (field teamInfo "code") VNull;
        team_name := js_or (field teamInfo "name") VNull;
        team_tv_code := js_or (field teamInfo "tvCode") VNull;
        is_local := isLocal;
        person_code := js_or (js_or personCode (field player "code")) VNull;
        player_name := js_or (field player "name") VNull;
        player_alias := js_or (field player "alias") VNull;
        dorsal := js_or (field player "dorsal") VNull;
        position := js_or (field player "position") VNull;
        is_starter := js_nn (field player "isStarter") (VBool false);
        minutes :=
          js_or (js_or (field player "minutes") (field player "timePlayed")) VNull;
        minutes_decimal :=
          VNum (parseMinutes
                  (js_or (field player "minutes") (field player "timePlayed")));
        points := js_nn (js_nn (field player "score") (field player "points")) (VNat 0);
        field_goals_made :=
          js_nn (js_nn (js_add w (field player "fieldGoalsMade2")
                                 (field player "fieldGoalsMade3"))
                       (field player "fieldGoalsMade")) (VNat 0);
        field_goals_attempted :=
          js_nn (js_nn (js_add w (field player "fieldGoalsAttempted2")
                                 (field player "fieldGoalsAttempted3"))
                       (field player "fieldGoalsAttempted")) (VNat 0);
        two_points_made :=
          js_nn (js_nn (field player "fieldGoalsMade2")
                       (field player "twoPointsMade")) (VNat 0);
        two_points_attempted :=
          js_nn (js_nn (field player "fieldGoalsAttempted2")
                       (field player "twoPointsAttempted")) (VNat 0);
        three_points_made :=
          js_nn (js_nn (field player "fieldGoalsMade3")
                       (field player "threePointsMade")) (VNat 0);
        three_points_attempted :=
          js_nn (js_nn (field player "fieldGoalsAttempted3")
                       (field player "threePointsAttempted")) (VNat 0);
        free_throws_made := js_nn (field player "freeThrowsMade") (VNat 0);
        free_throws_attempted := js_nn (field player "freeThrowsAttempted") (VNat 0);
        offensive_rebounds := js_nn (field player "offensiveRebounds") (VNat 0);
        defensive_rebounds := js_nn (field player "defensiveRebounds") (VNat 0);
        total_rebounds :=
          js_nn (field player "totalRebounds")
                (js_add w (js_nn (field player "offensiveRebounds") (VNat 0))
                          (js_nn (field player "defensiveRebounds") (VNat 0)));
        assists :=
          js_nn (js_nn (field player "assists") (field player "assistances")) (VNat 0);
        turnovers := js_nn (field player "turnovers") (VNat 0);
        steals := js_nn (field player "steals") (VNat 0);
        blocks_favour :=
          js_nn (js_nn (field player "blocksFavour") (field player "blocks")) (VNat 0);
        blocks_against := js_nn (field player "blocksAgainst") (VNat 0);
        fouls_committed := js_nn (field player "foulsCommitted") (VNat 0);
        fouls_received := js_nn (field player "foulsReceived") (VNat 0);
        pir := js_nn (js_nn (field player "valuation") (field player "pir")) (VNat 0);
        plus_minus := js_nn (field player "plusMinus") (VNat 0);
        raw_data := player;
        synced_at := clock_iso w |}.

(** [for (const p of players) if (p.personCode || p.code) players.push(...)]. *)
Fixpoint push_players (w : World) (gameInfo teamInfo : value) (isLocal : bool)
    (entries : list value) : res (list player_row) :=
  match entries with
  | [] => Ok []
  | p :: rest =>
      personCode ← get p "personCode";
      if truthy (js_or personCode (field p "code"))
      then row ← transformPlayerStats w p gameInfo teamInfo isLocal;
           rows ← push_players w gameInfo teamInfo isLocal rest;
           Ok (row :: rows)
      else push_players w gameInfo teamInfo isLocal rest
  end.

(** [data?.side?.players || data?.side?.playersStats || []]. *)
Definition side_players (data : value) (side : string) : value :=
  js_or (js_or (opt (opt data side) "players") (opt (opt data side) "playersStats"))
        (VArr []).

Definition side_team (data : value) (side : string) : value :=
  VObj [("code", js_or (opt (opt (opt data side) "club") "code")
                       (opt (opt (opt data side) "team") "code"));
        ("name", js_or (opt (opt (opt data side) "club") "editorialName")
                       (opt (opt (opt data side) "team") "name"));
        ("tvCode", js_or (opt (opt (opt data side) "club") "tvCode")
                         (opt (opt (opt data side) "team") "tvCode"))].

Definition extractPlayers (w : World) (boxscore gameCode : value)
    (seasonCode competition : string) (round gameDate : value)
  : res (list player_row) :=
  let gameInfo :=
    VObj [("gameCode", gameCode); ("seasonCode", VStr seasonCode);
          ("competition", VStr competition); ("round", round);
          ("gameDate", gameDate)] in
  let data := js_or (opt boxscore "stats") boxscore in
  localPlayers ← iterate (side_players data "local");
  localRows ← push_players w gameInfo (side_team data "local") true localPlayers;
  roadPlayers ← iterate (side_players data "road");
  roadRows ← push_players w gameInfo (side_team data "road") false roadPlayers;
  Ok (localRows ++ roadRows)%list.

(** [boxscoreStats = { fetched, players, errors }]. *)
Record boxscore_stats : Type := {
  bs_fetched : nat;
  bs_players : nat;
  bs_errors : list string;
}.

(** Steps 3 and 4: the body of [if (doBoxscores) { ... }]. *)
Definition boxscore_stage (w : World) (code seasonCode serviceKey : string)
    (gamesList : list value) : res boxscore_stats :=
  eligibleGames ← filterM_res fetch_eligible gamesList;
  st ← fanout w "/boxscore" (extractPlayers w) code seasonCode eligibleGames;
  if (0 <? length (allPlayerRows st))%nat
  then
    psResult ← supabaseUpsert w "player_stats" (allPlayerRows st) serviceKey;
    match errors psResult with
    | Some psErrors =>
        Ok {| bs_fetched := fetched st;
              bs_players := count psResult;
              bs_errors :=
                if (0 <? length psErrors)%nat
                then fan_errors st ++ psErrors
                else fan_errors st |}
    | None => Throw "Cannot read properties of undefined (reading 'length')"
    end
  else
    Ok {| bs_fetched := fetched st; bs_players := 0;
          bs_errors := fan_errors st |}.

(** [errs.length > 0 ? errs : undefined]. *)
Definition errors_field (errs : list string) : value :=
  if (0 <? length errs)%nat then VArr (map VStr errs) else VUndefined.

(** The object handed to [jsonResponse] at the end of the [try] block. *)
Definition result_object (w : World) (seasonCode code : string)
    (gamesList : list value) (gamesResult : upsert_result)
    (boxscores : option (nat * boxscore_stats)) : value :=
  VObj [("success", VBool true);
        ("seasonCode", VStr seasonCode);
        ("competition", VStr (toUpperCase code));
        ("games",
         VObj [("found", VNat (length gamesList));
               ("upserted", VNat (count gamesResult));
               ("errors",
                match errors gamesResult with
                | Some errs => errors_field errs
                | None => VUndefined
                end)]);
        ("boxscores",
         match boxscores with
         | Some (eligible, boxscoreStats) =>
             VObj [("eligible", VNat eligible);
                   ("fetched", VNat (bs_fetched boxscoreStats));
                   ("playersUpserted", VNat (bs_players boxscoreStats));
                   ("errors", errors_field (bs_errors boxscoreStats))]
         | None => VStr "skipped"
         end);
        ("elapsed", VStr (string_of_nat (elapsed_ms w) +:+ "ms"));
        ("timestamp", VStr (clock_iso w))].

(** The body of the [try] block of the handler. *)
Definition sync (w : World) (req : request) : res response :=
  let params := req_params req in
  let code := default "E" (params !! "code") in
  let gamesFilter := params !! "games" in
  let seasonCode := getSeasonCode params in
  serviceKey ← getSupabaseKey w;
  gamesData ← euroFetch w ("/competitions/" +:+ toUpperCase code
                           +:+ "/seasons/" +:+ seasonCode +:+ "/games");
  shape ← games_of gamesData;
  match shape with
  | None => Ok (errorResponse w "Unexpected API response format" 500)
  | Some fetchedList =>
      gamesList ← apply_filter gamesFilter fetchedList;
      gameRows ← mapM_res
                   (fun g => transformGame w g seasonCode (toUpperCase code))
                   gamesList;
      gamesResult ← supabaseUpsert w "live_games" gameRows serviceKey;
      if doBoxscores (params !! "skipBoxscores")
      then
        boxscoreStats ← boxscore_stage w code seasonCode serviceKey gamesList;
        reported ← filterM_res reported_eligible gamesList;
        Ok (jsonResponse
              (result_object w seasonCode code gamesList gamesResult
                 (Some (length reported, boxscoreStats))) 200)
      else
        Ok (jsonResponse
              (result_object w seasonCode code gamesList gamesResult None) 200)
  end.

(** [export default async (req) => ...]. *)
Definition handler (w : World) (req : request) : response :=
  match handleCors req with
  | Some corsRes => corsRes
  | None =>
      match sync w req with
      | Ok r => r
      | Throw message => errorResponse w ("Sync failed: " +:+ message) 500
      end
  end.

End Boxscore.

(** ** sync.js, the [/stats] version *)

Module Stats.

(** [supabaseUpsert(table, rows, serviceKey, onConflict)]. *)
Definition supabaseUpsert {A} `{Row A} (w : World) (table : string) (rows : list A)
    (serviceKey onConflict : string) : res upsert_result :=
  if (length rows =? 0)%nat
  then Ok {| ok := true; count := 0; errors := Some [] |}
  else
    let conflictParam :=
      if negb (String.eqb onConflict "")
      then "?on_conflict=" +:+ onConflict else "" in
    '(total, errs) ←
      upsert_batches w
        (SUPABASE_URL +:+ "/rest/v1/" +:+ table +:+ conflictParam) table 0
        (chunks 50 rows) 0 [];
    Ok {| ok := (length errs =? 0)%nat; count := total; errors := Some errs |}.

(** A row of [player_stats].  The display string [minutes], which the
    source derives from [timePlayed] with [Math.floor] and [Math.round] (and
    which cannot throw), is not modelled. *)
Record player_row : Type := {
  game_code : value;
  season_code : value;
  competition : value;
  round : value;
  game_date : value;
  team_code : value;
  team_name : value;
  team_tv_code : value;
  is_local : bool;
  person_code : value;
  player_name : value;
  player_alias : value;
  dorsal : value;
  position : value;
  is_starter : bool;
  minutes_decimal : value;
  points : value;
  field_goals_made : value;
  field_goals_attempted : value;
  two_points_made : value;
  two_points_attempted : value;
  three_points_made : value;
  three_points_attempted : value;
  free_throws_made : value;
  free_throws_attempted : value;
  offensive_rebounds : value;
  defensive_rebounds : value;
  total_rebounds : value;
  assists : value;
  turnovers : value;
  steals : value;
  blocks_favour : value;
  blocks_against : value;
  fouls_committed : value;
  fouls_received : value;
  pir : value;
  plus_minus : value;
  raw_data : value;
  synced_at : string;
}.

(** The row object without its [minutes] property. *)
#[global] Instance player_row_json : Row player_row := fun r =>
  VObj [("game_code", game_code r);
        ("season_code", season_code r);
        ("competition", competition r);
        ("round", round r);
        ("game_date", game_date r);
        ("team_code", team_code r);
        ("team_name", team_name r);
        ("team_tv_code", team_tv_code r);
        ("is_local", VBool (is_local r));
        ("person_code", person_code r);
        ("player_name", player_name r);
        ("player_alias", player_alias r);
        ("dorsal", dorsal r);
        ("position", position r);
        ("is_starter", VBool (is_starter r));
        ("minutes_decimal", minutes_decimal r);
        ("points", points r);
        ("field_goals_made", field_goals_made r);
        ("field_goals_attempted", field_goals_attempted r);
        ("two_points_made", two_points_made r);
        ("two_points_attempted", two_points_attempted r);
        ("three_points_made", three_points_made r);
        ("three_points_attempted", three_points_attempted r);
        ("free_throws_made", free_throws_made r);
        ("free_throws_attempted", free_throws_attempted r);
        ("offensive_rebounds", offensive_rebounds r);
        ("defensive_rebounds", defensive_rebounds r);
        ("total_rebounds", total_rebounds r);
        ("assists", assists r);
        ("turnovers", turnovers r);
        ("steals", steals r);
        ("blocks_favour", blocks_favour r);
        ("blocks_against", blocks_against r);
        ("fouls_committed", fouls_committed r);
        ("fouls_received", fouls_received r);
        ("pir", pir r);
        ("plus_minus", plus_minus r);
        ("raw_data", raw_data r);
        ("synced_at", VStr (synced_at r))].

(** [v?.toString()]. *)
Definition opt_toString (w : World) (v : value) : value :=
  if nullish v then VUndefined else VStr (ToString w v).

Definition transformPlayerStats (w : World)
    (entry gameInfo teamCode teamName teamTvCode : value) (isLocal : bool)
  : res player_row :=
  player ← get entry "player";
  let p := js_or player (VObj []) in
  let s := js_or (field entry "stats") (VObj []) in
  let person := js_or (field p "person") (VObj []) in
  let fgm2 := js_nn (field s "fieldGoalsMade2") (VNat 0) in
  let fga2 := js_nn (field s "fieldGoalsAttempted2") (VNat 0) in
  let fgm3 := js_nn (field s "fieldGoalsMade3") (VNat 0) in
  let fga3 := js_nn (field s "fieldGoalsAttempted3") (VNat 0) in
  let timePlayed := js_nn (field s "timePlayed") (VNat 0) in
  Ok {| game_code := field gameInfo "gameCode";
        season_code := field gameInfo "seasonCode";
        competition := field gameInfo "competition";
        round := js_or (field gameInfo "round") VNull;
        game_date := js_or (field gameInfo "gameDate") VNull;
        team_code := teamCode;
        team_name := teamName;
        team_tv_code := teamTvCode;
        is_local := isLocal;
        person_code := js_or (field person "code") VNull;
        player_name := js_or (field person "name") VNull;
        player_alias := js_or (field person "alias") VNull;
        dorsal :=
          js_or (js_or (field p "dorsal") (opt_toString w (field s "dorsal"))) VNull;
        position :=
          js_or (field p "positionName")
                (if truthy (field p "position")
                 then VStr (ToString w (field p "position")) else VNull);
        is_starter :=
          is_true (field s "startFive") || is_true (field s "startFive2");
        minutes_decimal := timePlayed;
        points := js_nn (field s "points") (VNat 0);
        field_goals_made := js_add w fgm2 fgm3;
        field_goals_attempted := js_add w fga2 fga3;
        two_points_made := fgm2;
        two_points_attempted := fga2;
        three_points_made := fgm3;
        three_points_attempted := fga3;
        free_throws_made := js_nn (field s "freeThrowsMade") (VNat 0);
        free_throws_attempted := js_nn (field s "freeThrowsAttempted") (VNat 0);
        offensive_rebounds := js_nn (field s "offensiveRebounds") (VNat 0);
        defensive_rebounds := js_nn (field s "defensiveRebounds") (VNat 0);
        total_rebounds :=
          js_nn (field s "totalRebounds")
                (js_add w (js_nn (field s "offensiveRebounds") (VNat 0))
                          (js_nn (field s "defensiveRebounds") (VNat 0)));
        assists := js_nn (field s "assistances") (VNat 0);
        turnovers := js_nn (field s "turnovers") (VNat 0);
        steals := js_nn (field s "steals") (VNat 0);
        blocks_favour := js_nn (field s "blocksFavour") (VNat 0);
        blocks_against := js_nn (field s "blocksAgainst") (VNat 0);
        fouls_committed := js_nn (field s "foulsCommited") (VNat 0);
        fouls_received := js_nn (field s "foulsReceived") (VNat 0);
        pir := js_nn (field s "valuation") (VNat 0);
        plus_minus := js_nn (field s "plusMinus") (VNat 0);
        raw_data := entry;
        synced_at := clock_iso w |}.

(** The test that lets an entry through: a truthy
    [entry.player?.person?.code], and no [entry.player?.type] other than
    ["J"]. *)
Definition keeps (player : value) : bool :=
  truthy (opt (opt player "person") "code")
  && negb (truthy (opt player "type") && negb (is_string "J" (field player "type"))).

(** [for (const entry of sideData.players) { ... }]. *)
Fixpoint push_entries (w : World) (gameInfo teamCode teamName teamTvCode : value)
    (isLocal : bool) (entries : list value) : res (list player_row) :=
  match entries with
  | [] => Ok []
  | entry :: rest =>
      player ← get entry "player";
      if keeps player
      then row ← transformPlayerStats w entry gameInfo teamCode teamName
                   teamTvCode isLocal;
           rows ← push_entries w gameInfo teamCode teamName teamTvCode isLocal rest;
           Ok (row :: rows)
      else push_entries w gameInfo teamCode teamName teamTvCode isLocal rest
  end.

(** [v[0]] for a value that is neither [undefined] nor [null]. *)
Definition first (v : value) : value :=
  match v with
  | VArr (x :: _) => x
  | VStr (String c _) => VStr (String c EmptyString)
  | VObj fields => assoc "0" fields
  | _ => VUndefined
  end.

(** [sideData.players[0]?.player?.club || {}]. *)
Definition firstClub (sideData : value) : value :=
  js_or (opt (opt (first (field sideData "players")) "player") "club") (VObj []).

(** The body of [for (const side of ["local", "road"])]. *)
Definition side_rows (w : World) (statsData gameInfo : value) (side : string)
  : res (list player_row) :=
  let sideData := opt statsData side in
  if negb (truthy (opt sideData "players")) then Ok []
  else
    let teamObj := js_or (field sideData "team") (VObj []) in
    let teamCode :=
      js_or (js_or (field (firstClub sideData) "code") (field teamObj "code"))
            VNull in
    let teamName :=
      js_or (js_or (js_or (field (firstClub sideData) "editorialName")
                          (field (firstClub sideData) "abbreviatedName"))
                   (field teamObj "name"))
            VNull in
    let teamTvCode :=
      js_or (js_or (field (firstClub sideData) "tvCode") (field teamObj "tvCode"))
            VNull in
    entries ← iterate (field sideData "players");
    push_entries w gameInfo teamCode teamName teamTvCode
      (String.eqb side "local") entries.

Definition extractPlayers (w : World) (statsData gameCode : value)
    (seasonCode competition : string) (round gameDate : value)
  : res (list player_row) :=
  let gameInfo :=
    VObj [("gameCode", gameCode); ("seasonCode", VStr seasonCode);
          ("competition", VStr competition); ("round", round);
          ("gameDate", gameDate)] in
  localRows ← side_rows w statsData gameInfo "local";
  roadRows ← side_rows w statsData gameInfo "road";
  Ok (localRows ++ roadRows)%list.

Record boxscore_stats : Type := {
  bs_fetched : nat;
  bs_players : nat;
  bs_errors : list string;
}.

Definition boxscore_stage (w : World) (code seasonCode serviceKey : string)
    (gamesList : list value) : res boxscore_stats :=
  eligibleGames ← filterM_res fetch_eligible gamesList;
  st ← fanout w "/stats" (extractPlayers w) code seasonCode eligibleGames;
  if (0 <? length (allPlayerRows st))%nat
  then
    psResult ← supabaseUpsert w "player_stats" (allPlayerRows st) serviceKey
                 "season_code,game_code,person_code";
    match errors psResult with
    | Some psErrors =>
        Ok {| bs_fetched := fetched st;
              bs_players := count psResult;
              bs_errors :=
                if (0 <? length psErrors)%nat
                then fan_errors st ++ psErrors
                else fan_errors st |}
    | None => Throw "Cannot read properties of undefined (reading 'length')"
    end
  else
    Ok {| bs_fetched := fetched st; bs_players := 0;
          bs_errors := fan_errors st |}.

(** [errs.length > 0 ? errs.slice(0, 5) : undefined]. *)
Definition errors_field (errs : list string) : value :=
  if (0 <? length errs)%nat then VArr (map VStr (take 5 errs)) else VUndefined.

Definition result_object (w : World) (seasonCode code : string)
    (gamesList : list value) (gamesResult : upsert_result)
    (boxscores : option (nat * boxscore_stats)) : value :=
  VObj [("success", VBool true);
        ("seasonCode", VStr seasonCode);
        ("competition", VStr (toUpperCase code));
        ("gamesFound", VNat (length gamesList));
        ("gamesUpserted", VNat (count gamesResult));
        ("boxscores",
         match boxscores with
         | Some (eligible, boxscoreStats) =>
             VObj [("eligible", VNat eligible);
                   ("fetched", VNat (bs_fetched boxscoreStats));
                   ("playersUpserted", VNat (bs_players boxscoreStats));
                   ("errors", errors_field (bs_errors boxscoreStats))]
         | None => VStr "skipped"
         end);
        ("errors",
         match errors gamesResult with
         | Some errs => errors_field errs
         | None => VUndefined
         end);
        ("elapsed", VStr (string_of_nat (elapsed_ms w) +:+ "ms"));
        ("timestamp", VStr (clock_iso w))].

Definition sync (w : World) (req : request) : res response :=
  let params := req_params req in
  let code := default "E" (params !! "code") in
  let gamesFilter := params !! "games" in
  let seasonCode := getSeasonCode params in
  serviceKey ← getSupabaseKey w;
  gamesData ← euroFetch w ("/competitions/" +:+ toUpperCase code
                           +:+ "/seasons/" +:+ seasonCode +:+ "/games");
  shape ← games_of gamesData;
  match shape with
  | None => Ok (errorResponse w "Unexpected API response format" 500)
  | Some fetchedList =>
      gamesList ← apply_filter gamesFilter fetchedList;
      gameRows ← mapM_res
                   (fun g => transformGame w g seasonCode (toUpperCase code))
                   gamesList;
      gamesResult ← supabaseUpsert w "live_games" gameRows serviceKey
                      "season_code,game_code";
      if doBoxscores (params !! "skipBoxscores")
      then
        boxscoreStats ← boxscore_stage w code seasonCode serviceKey gamesList;
        reported ← filterM_res reported_eligible gamesList;
        Ok (jsonResponse
              (result_object w seasonCode code gamesList gamesResult
                 (Some (length reported, boxscoreStats))) 200)
      else
        Ok (jsonResponse
              (result_object w seasonCode code gamesList gamesResult None) 200)
  end.

Definition handler (w : World) (req : request) : response :=
  match handleCors req with
  | Some corsRes => corsRes
  | None =>
      match sync w req with
      | Ok r => r
      | Throw message => errorResponse w ("Sync failed: " +:+ message) 500
      end
  end.

End Stats.

(** ** Vocabulary of the statements *)

(** A string made of decimal digits only. *)
Fixpoint all_digits (s : string) : bool :=
  match s with
  | EmptyString => true
  | String c r => is_digit c && all_digits r
  end.

(** The number a string of decimal digits denotes. *)
Definition digits_value (s : string) : Z :=
  fold_left (fun acc c => (10 * acc + digit_val c)%Z) (list_ascii_of_string s) 0%Z.

(** A flat boxscore entry carries a person code: [personCode] or [code] is
    truthy. *)
Definition has_person_code (p : value) : bool :=
  truthy (field p "personCode") || truthy (field p "code").

(** A [/stats] entry carries a person code under [player.person.code]. *)
Definition entry_person_code (entry : value) : value :=
  opt (opt (field entry "player") "person") "code".

(** The type tag of a [/stats] entry: ["J"] for a player, ["C"] for a coach. *)
Definition entry_type (entry : value) : value :=
  opt (field entry "player") "type".

(** A [/stats] entry is tagged as something other than a player. *)
Definition tagged_non_player (entry : value) : bool :=
  truthy (entry_type entry) && negb (is_string "J" (entry_type entry)).

(** The entries of one side of a [/stats] response: none when the side has
    no (truthy) [players]. *)
Definition stats_entries (statsData : value) (side : string) : res (list value) :=
  if truthy (opt (opt statsData side) "players")
  then iterate (field (opt statsData side) "players")
  else Ok [].

(** What the fan-out owes for one eligible game [g]. *)
Section FanoutVocabulary.

Context {R : Type}.
Variable w : World.
Variable endpoint : string.
Variable extractPlayers :
  value -> value -> string -> string -> value -> value -> res (list R).
Variables code seasonCode : string.

(** The upstream call made for [g]. *)
Definition boxscore_of (g : value) : res value :=
  euroFetch w (boxscore_path w endpoint code seasonCode (field g "gameCode")).

Definition fetch_succeeds (g : value) : bool :=
  match boxscore_of g with
  | Ok _ => true
  | Throw _ => false
  end.

(** One entry ["Game <id>: <message>"] when the call fails, none otherwise. *)
Definition game_error (g : value) : list string :=
  match boxscore_of g with
  | Ok _ => []
  | Throw message =>
      ["Game " +:+ ToString w (field g "gameCode") +:+ ": " +:+ message]
  end.

(** The player rows of [g] when the call succeeds, none otherwise. *)
Definition game_rows (g : value) : res (list R) :=
  match boxscore_of g with
  | Ok bs =>
      extractPlayers bs (field g "gameCode") seasonCode (toUpperCase code)
        (field g "round") (js_or (field g "utcDate") (field g "date"))
  | Throw _ => Ok []
  end.

Definition rows_of (g : value) : list R :=
  match game_rows g with
  | Ok rows => rows
  | Throw _ => []
  end.

End FanoutVocabulary.

(** Every call to the store resolves (with a success or an error status). *)
Definition store_resolves (w : World) : Prop :=
  forall url n payload, exists r, http_post w url n payload = Ok r.

(** Every failed boxscore call for one of the games carries a message. *)
Definition failures_carry_message (w : World) (endpoint code seasonCode : string)
    (games : list value) : Prop :=
  forall g message,
    In g games ->
    boxscore_of w endpoint code seasonCode g = Throw message -> message <> "".

(** Every boxscore fetched for one of the games can be read by
    [extractPlayers]. *)
Definition boxscores_readable {R} (w : World) (endpoint : string)
    (extractPlayers :
       value -> value -> string -> string -> value -> value -> res (list R))
    (code seasonCode : string) (games : list value) : Prop :=
  forall g, In g games ->
            exists rows, game_rows w endpoint extractPlayers code seasonCode g = Ok rows.

(** [process.env.SUPABASE_SERVICE_KEY] is set to a non-empty string. *)
Definition credential_set (w : World) : bool :=
  match env_service_key w with
  | Some key => negb (String.eqb key "")
  | None => false
  end.

(** The path of the stage-1 call. *)
Definition games_path (code seasonCode : string) : string :=
  "/competitions/" +:+ toUpperCase code +:+ "/seasons/" +:+ seasonCode +:+ "/games".

(** The columns of [player_stats] that hold counts (built with [?? 0] or
    with [+]) and those that describe the player (built with [|| null]), in
    either version. *)
Definition boxscore_counting_columns : list (Boxscore.player_row -> value) :=
  [Boxscore.points; Boxscore.field_goals_made; Boxscore.field_goals_attempted;
   Boxscore.two_points_made; Boxscore.two_points_attempted;
   Boxscore.three_points_made; Boxscore.three_points_attempted;
   Boxscore.free_throws_made; Boxscore.free_throws_attempted;
   Boxscore.offensive_rebounds; Boxscore.defensive_rebounds;
   Boxscore.total_rebounds; Boxscore.assists; Boxscore.turnovers;
   Boxscore.steals; Boxscore.blocks_favour; Boxscore.blocks_against;
   Boxscore.fouls_committed; Boxscore.fouls_received; Boxscore.pir;
   Boxscore.plus_minus; Boxscore.is_starter; Boxscore.minutes_decimal].

Definition boxscore_descriptive_columns : list (Boxscore.player_row -> value) :=
  [Boxscore.round; Boxscore.game_date; Boxscore.team_code; Boxscore.team_name;
   Boxscore.team_tv_code; Boxscore.person_code; Boxscore.player_name;
   Boxscore.player_alias; Boxscore.dorsal; Boxscore.position; Boxscore.minutes].

Definition stats_counting_columns : list (Stats.player_row -> value) :=
  [Stats.points; Stats.field_goals_made; Stats.field_goals_attempted;
   Stats.two_points_made; Stats.two_points_attempted;
   Stats.three_points_made; Stats.three_points_attempted;
   Stats.free_throws_made; Stats.free_throws_attempted;
   Stats.offensive_rebounds; Stats.defensive_rebounds;
   Stats.total_rebounds; Stats.assists; Stats.turnovers;
   Stats.steals; Stats.blocks_favour; Stats.blocks_against;
   Stats.fouls_committed; Stats.fouls_received; Stats.pir;
   Stats.plus_minus; Stats.minutes_decimal].

Definition stats_descriptive_columns : list (Stats.player_row -> value) :=
  [Stats.round; Stats.game_date; Stats.person_code; Stats.player_name;
   Stats.player_alias; Stats.dorsal].

(** The store's part of an upsert, in the words of the specification: the
    row objects go out in batches, numbered from [i + 1]; a batch the store
    accepts counts for its rows, a batch it refuses leaves one error. *)
Fixpoint rows_accepted (w : World) (url : string) (i : nat)
    (batches : list (list value)) : nat :=
  match batches with
  | [] => 0
  | batch :: rest =>
      (match http_post w url (S i) batch with
       | Ok r => if reply_ok r then length batch else 0
       | Throw _ => 0
       end + rows_accepted w url (S i) rest)%nat
  end.

Fixpoint batches_refused (w : World) (url table : string) (i : nat)
    (batches : list (list value)) : list string :=
  match batches with
  | [] => []
  | batch :: rest =>
      match http_post w url (S i) batch with
      | Ok r =>
          if reply_ok r then []
          else [table +:+ " batch " +:+ string_of_nat (S i) +:+ ": "
                +:+ string_of_nat (reply_status r) +:+ " — " +:+ reply_text r]
      | Throw _ => []
      end ++ batches_refused w url table (S i) rest
  end.

Definition player_stats_url : string := SUPABASE_URL +:+ "/rest/v1/" +:+ "player_stats".

(** The properties of a flat player object that [transformPlayerStats] reads
    for the counting columns, and the counting columns that end in [?? 0]
    (all but the two sums of field goals, and [is_starter]). *)
Definition boxscore_stat_keys : list string :=
  ["isStarter"; "minutes"; "timePlayed"; "score"; "points";
   "fieldGoalsMade2"; "fieldGoalsMade3"; "fieldGoalsMade";
   "fieldGoalsAttempted2"; "fieldGoalsAttempted3"; "fieldGoalsAttempted";
   "twoPointsMade"; "twoPointsAttempted"; "threePointsMade"; "threePointsAttempted";
   "freeThrowsMade"; "freeThrowsAttempted";
   "offensiveRebounds"; "defensiveRebounds"; "totalRebounds";
   "assists"; "assistances"; "turnovers"; "steals";
   "blocksFavour"; "blocks"; "blocksAgainst";
   "foulsCommitted"; "foulsReceived"; "valuation"; "pir"; "plusMinus"].

Definition boxscore_defaulted_columns : list (Boxscore.player_row -> value) :=
  [Boxscore.points;
   Boxscore.two_points_made; Boxscore.two_points_attempted;
   Boxscore.three_points_made; Boxscore.three_points_attempted;
   Boxscore.free_throws_made; Boxscore.free_throws_attempted;
   Boxscore.offensive_rebounds; Boxscore.defensive_rebounds;
   Boxscore.total_rebounds; Boxscore.assists; Boxscore.turnovers;
   Boxscore.steals; Boxscore.blocks_favour; Boxscore.blocks_against;
   Boxscore.fouls_committed; Boxscore.fouls_received; Boxscore.pir;
   Boxscore.plus_minus; Boxscore.minutes_decimal].

(** The properties of [entry.stats] that the [/stats] version reads. *)
Definition stats_stat_keys : list string :=
  ["fieldGoalsMade2"; "fieldGoalsAttempted2"; "fieldGoalsMade3";
   "fieldGoalsAttempted3"; "timePlayed"; "points";
   "freeThrowsMade"; "freeThrowsAttempted";
   "offensiveRebounds"; "defensiveRebounds"; "totalRebounds";
   "assistances"; "turnovers"; "steals"; "blocksFavour"; "blocksAgainst";
   "foulsCommited"; "foulsReceived"; "valuation"; "plusMinus"].

(** ** Scenarios used by the examples *)

(** Number formatting of the example worlds: the decimal digits of an
    integer, as JavaScript prints integers of this size. *)
Definition show_num (n : num) : string :=
  match n with
  | Fin q =>
      if (Z.pos (Qden q) =? 1)%Z
      then NilEmpty.string_of_int (Z.to_int (Qnum q))
      else "(fraction)"
  | NaN => "NaN"
  | Inf neg => if neg then "-Infinity" else "Infinity"
  end.

Definition json_reply (st : nat) (v : value) : res http_reply :=
  Ok {| reply_status := st; reply_json := Ok v; reply_text := "" |}.

Definition text_reply (st : nat) (text : string) : res http_reply :=
  Ok {| reply_status := st; reply_json := Throw "Unexpected end of JSON input";
        reply_text := text |}.

(** An upstream given by a table from URL to reply; anything else is a 404. *)
Fixpoint serve (routes : list (string * res http_reply)) (url : string)
  : res http_reply :=
  match routes with
  | [] => text_reply 404 "Not Found"
  | (u, r) :: rest => if String.eqb url u then r else serve rest url
  end.

(** A world with the credential set and a store that accepts every batch. *)
Definition world (routes : list (string * res http_reply)) : World :=
  {| num_to_string := show_num;
     env_service_key := Some "service-key";
     http_get := serve routes;
     http_post := fun _ _ _ => text_reply 201 "";
     clock_iso := "2026-01-01T00:00:00.000Z";
     elapsed_ms := 12 |}.

Definition GET (params : list (string * string)) : request :=
  {| req_method := "GET"; req_params := list_to_map params |}.

Definition int (z : Z) : value := VNum (of_Z z).

Definition games_url : string :=
  "https://api-live.euroleague.net/v2/competitions/E/seasons/E2025/games".

Definition boxscore_url (n : string) : string :=
  games_url +:+ "/" +:+ n +:+ "/boxscore".

Definition stats_url (n : string) : string :=
  games_url +:+ "/" +:+ n +:+ "/stats".

(** [{gameCode: n, gameStatus: "Played"}]. *)
Definition played_game (n : Z) : value :=
  VObj [("gameCode", int n); ("gameStatus", VStr "Played")].

(** [{local: {players: [{personCode: code}]}}]. *)
Definition one_player_boxscore (code : string) : value :=
  VObj [("local", VObj [("players", VArr [VObj [("personCode", VStr code)]])])].

(** A [/stats] entry [{player: {person: {code}, type}, stats: {}}]. *)
Definition stats_entry (code type : string) : value :=
  VObj [("player", VObj [("person", VObj [("code", VStr code)]);
                         ("type", VStr type)]);
        ("stats", VObj [])].

(** The error field of a result object, in the two forms the versions use:
    absent when nothing was recorded, else the first five entries or all of
    them. *)
Definition first_five (errs : list string) : value :=
  match errs with
  | [] => VUndefined
  | _ => VArr (map VStr (firstn 5 errs))
  end.

Definition all_of (errs : list string) : value :=
  match errs with
  | [] => VUndefined
  | _ => VArr (map VStr errs)
  end.

(** Six played games; the upstream knows the game list and no boxscore. *)
Definition six_games : list value :=
  [played_game 1; played_game 2; played_game 3; played_game 4; played_game 5;
   played_game 6].

Definition six_failures : World :=
  world [(games_url, json_reply 200 (VArr six_games))].

(** [{gameCode: n}]. *)
Definition game (n : Z) : value := VObj [("gameCode", int n)].

Definition three_games : World :=
  world [(games_url, json_reply 200 (VArr [game 1; game 2; game 3]))].

(** Games 1, 2 and 7 are played; the upstream has the boxscores of games 1
    and 2 only. *)
Definition game_seven_fails : World :=
  world [(games_url, json_reply 200 (VArr [played_game 1; played_game 2; played_game 7]));
         (boxscore_url "1", json_reply 200 (one_player_boxscore "P1"));
         (boxscore_url "2", json_reply 200 (one_player_boxscore "P2"))].

(** The upstream answers 404 to everything, the credential is set. *)
Definition unknown_season : World := world [].

(** The game list is available but the network call to the store fails. *)
Definition store_unreachable : World :=
  {| num_to_string := show_num;
     env_service_key := Some "service-key";
     http_get := serve [(games_url, json_reply 200 (VArr [game 1]))];
     http_post := fun _ _ _ => Throw "fetch failed";
     clock_iso := "2026-01-01T00:00:00.000Z";
     elapsed_ms := 12 |}.

(** Games 1 and 2 are played, the boxscore of game 2 is missing upstream and
    the store refuses every batch with a 503. *)
Definition partial_failures : World :=
  {| num_to_string := show_num;
     env_service_key := Some "service-key";
     http_get :=
       serve [(games_url, json_reply 200 (VArr [played_game 1; played_game 2]));
              (boxscore_url "1", json_reply 200 (one_player_boxscore "P1"))];
     http_post := fun _ _ _ => text_reply 503 "unavailable";
     clock_iso := "2026-01-01T00:00:00.000Z";
     elapsed_ms := 12 |}.

(** The upstream of the read endpoints in the examples: game 1 of E/2024,
    the boxscore of game 1 of season code E2025, nothing else. *)
Definition read_upstream : World :=
  world [(EURO_API +:+ "/competitions/E/seasons/2024/games/1",
          json_reply 200 (game 1));
         (boxscore_url "1", json_reply 200 (one_player_boxscore "P1"))].

(** The upstream knows the rounds of season code E2025 only. *)
Definition rounds_upstream : World :=
  world [(EURO_API +:+ "/competitions/E/seasons/E2025/rounds",
          json_reply 200 (VObj [("rounds", VArr [int 1; int 2])]))].

(** The upstream knows the profile of player P1 and no season statistics. *)
Definition profile_only : World :=
  world [(EURO_API +:+ "/competitions/E/persons/P1",
          json_reply 200 (VObj [("name", VStr "P ONE")]))].

(** The upstream answers every URL with the JSON document [null]. *)
Definition null_upstream : World :=
  {| num_to_string := show_num;
     env_service_key := Some "service-key";
     http_get := fun _ => json_reply 200 VNull;
     http_post := fun _ _ _ => text_reply 201 "";
     clock_iso := "2026-01-01T00:00:00.000Z";
     elapsed_ms := 12 |}.

(** The person codes of the row objects of a request body. *)
Definition person_codes (payload : list value) : list string :=
  map (fun row => match field row "person_code" with VStr s => s | _ => "" end)
      payload.

(** Games 1, 2 and 7 as in [game_seven_fails], with a store that accepts a
    batch only when it is sent to [player_stats] and holds exactly the rows
    of the players P1 and P2, in this order. *)
Definition store_checks_rows : World :=
  {| num_to_string := show_num;
     env_service_key := Some "service-key";
     http_get :=
       serve [(games_url,
               json_reply 200 (VArr [played_game 1; played_game 2; played_game 7]));
              (boxscore_url "1", json_reply 200 (one_player_boxscore "P1"));
              (boxscore_url "2", json_reply 200 (one_player_boxscore "P2"))];
     http_post := fun url _ payload =>
       if String.eqb url player_stats_url
          && bool_decide (person_codes payload = ["P1"; "P2"])
       then text_reply 201 ""
       else text_reply 400 "unexpected rows";
     clock_iso := "2026-01-01T00:00:00.000Z";
     elapsed_ms := 12 |}.

(** [{local: {players: [null]}}]: a boxscore that [extractPlayers] cannot
    read. *)
Definition unreadable_boxscore : value :=
  VObj [("local", VObj [("players", VArr [VNull])])].

(** Games 1, 2 and 7 are played; the boxscore of game 1 is fine, that of
    game 2 cannot be read, that of game 7 is missing.  The store accepts the
    games; a request to [player_stats] would fail with a message of its
    own. *)
Definition game_two_unreadable : World :=
  {| num_to_string := show_num;
     env_service_key := Some "service-key";
     http_get :=
       serve [(games_url,
               json_reply 200 (VArr [played_game 1; played_game 2; played_game 7]));
              (boxscore_url "1", json_reply 200 (one_player_boxscore "P1"));
              (boxscore_url "2", json_reply 200 unreadable_boxscore)];
     http_post := fun url _ _ =>
       if String.eqb url player_stats_url
       then Throw "player_stats was reached"
       else text_reply 201 "";
     clock_iso := "2026-01-01T00:00:00.000Z";
     elapsed_ms := 12 |}.

(** ** The read endpoints *)

(** [obj[k] = v] on the own properties of an object, in insertion order: the
    value is replaced in place when the key exists and appended otherwise. *)
Fixpoint put {A} (k : string) (v : A) (l : list (string * A)) : list (string * A) :=
  match l with
  | [] => [(k, v)]
  | (k', v') :: rest =>
      if String.eqb k k' then (k, v) :: rest else (k', v') :: put k v rest
  end.

(** [{...a, ...b}]. *)
Definition merge {A} (a b : list (string * A)) : list (string * A) :=
  fold_left (fun acc kv => put (fst kv) (snd kv) acc) b a.

(** The properties [0], [1], ... of an array or a string. *)
Fixpoint indexed (i : nat) (l : list value) : list (string * value) :=
  match l with
  | [] => []
  | x :: rest => (string_of_nat i, x) :: indexed (S i) rest
  end.

(** The own enumerable properties copied by [{...v}]: those of an object, the
    indices of an array or of a string, nothing for the other values
    ([null] and [undefined] included). *)
Definition spread (v : value) : list (string * value) :=
  match v with
  | VObj fields => fields
  | VArr l => indexed 0 l
  | VStr s => indexed 0 (chars s)
  | _ => []
  end.

(** [{...data, _meta: meta}]. *)
Definition enrich (data meta : value) : value :=
  VObj (put "_meta" meta (spread data)).

(** The responses of the read endpoints, with their headers; the clock is
    read once per request. *)
Module Web.

Record response : Type := {
  status : nat;
  body : value;
  headers : list (string * string);
}.

Definition corsHeaders : list (string * string) :=
  [("Access-Control-Allow-Origin", "*");
   ("Access-Control-Allow-Headers", "Content-Type");
   ("Access-Control-Allow-Methods", "GET, OPTIONS")].

(** [jsonResponse(data, status = 200, extra = {})]. *)
Definition jsonResponse (data : value) (st : nat) (extra : list (string * string))
  : response :=
  {| status := st;
     body := data;
     headers := merge (merge [("Content-Type", "application/json")] corsHeaders)
                      extra |}.

Definition errorResponse (w : World) (message : string) (st : nat) : response :=
  jsonResponse
    (VObj [("error", VStr message); ("timestamp", VStr (clock_iso w))]) st [].

Definition handleCors (req : request) : option response :=
  if String.eqb (req_method req) "OPTIONS"
  then Some {| status := 204; body := VNull; headers := corsHeaders |}
  else None.

(** [!param] for a query parameter: absent or empty. *)
Definition missing (param : option string) : bool :=
  match param with
  | Some s => String.eqb s ""
  | None => true
  end.

(** [param || fallback]. *)
Definition or_else (param : option string) (fallback : string) : string :=
  match param with
  | Some s => if String.eqb s "" then fallback else s
  | None => fallback
  end.

End Web.

(** Every handler below takes the time [t] of its [cache.get] and the time
    [t'] of its [cache.set] (after the upstream call), and returns the
    response with the cache it leaves behind. *)

(** *** /api/game, the version that validates the competition code *)

Module Game.

Definition CACHE_TTL : Z := 60.

Definition handler (w : World) (t t' : Z) (c : gmap string cache_entry)
    (req : request) : Web.response * gmap string cache_entry :=
  match Web.handleCors req with
  | Some corsRes => (corsRes, c)
  | None =>
      let params := req_params req in
      let season := default "2024" (params !! "season") in
      let code := default "E" (params !! "code") in
      let gameNumber := params !! "gameNumber" in
      if Web.missing gameNumber
      then (Web.errorResponse w "Missing required param: gameNumber" 400, c)
      else if negb (existsb (String.eqb (toUpperCase code)) ["E"; "U"])
      then (Web.errorResponse w "Invalid code. Use E (EuroLeague) or U (EuroCup)" 400, c)
      else
        let gameNumber := default "" gameNumber in
        let cacheKey := "game:" +:+ season +:+ ":" +:+ code +:+ ":" +:+ gameNumber in
        let '(cached, c1) := cache.get t cacheKey c in
        if truthy cached
        then (Web.jsonResponse cached 200 [("X-Cache", "HIT")], c1)
        else
          match euroFetch w ("/competitions/" +:+ toUpperCase code +:+ "/seasons/"
                             +:+ season +:+ "/games/" +:+ gameNumber) with
          | Ok data =>
              let enriched :=
                enrich data
                  (VObj [("source", VStr "bball-api");
                         ("cachedAt", VStr (clock_iso w));
                         ("params", VObj [("season", VStr season);
                                          ("code", VStr code);
                                          ("gameNumber", VStr gameNumber)])]) in
              (Web.jsonResponse enriched 200 [("X-Cache", "MISS")],
               cache.set t' (clock_iso w) cacheKey enriched (Some CACHE_TTL) c1)
          | Throw message =>
              (Web.errorResponse w ("Failed to fetch game data: " +:+ message) 502, c1)
          end
  end.

End Game.

(** *** /api/boxscore, the version that resolves the season code *)

Module BoxscoreApi.

Definition CACHE_TTL : Z := 60.

Definition handler (w : World) (t t' : Z) (c : gmap string cache_entry)
    (req : request) : Web.response * gmap string cache_entry :=
  match Web.handleCors req with
  | Some corsRes => (corsRes, c)
  | None =>
      let params := req_params req in
      let code := default "E" (params !! "code") in
      let gameNumber := params !! "gameNumber" in
      if Web.missing gameNumber
      then (Web.errorResponse w "Missing required param: gameNumber" 400, c)
      else
        let gameNumber := default "" gameNumber in
        let seasonCode := getSeasonCode params in
        let cacheKey := "boxscore:" +:+ seasonCode +:+ ":" +:+ gameNumber in
        let '(cached, c1) := cache.get t cacheKey c in
        if truthy cached
        then (Web.jsonResponse cached 200 [("X-Cache", "HIT")], c1)
        else
          match euroFetch w ("/competitions/" +:+ toUpperCase code +:+ "/seasons/"
                             +:+ seasonCode +:+ "/games/" +:+ gameNumber
                             +:+ "/boxscore") with
          | Ok data =>
              let enriched :=
                enrich data
                  (VObj [("source", VStr "bball-api");
                         ("cachedAt", VStr (clock_iso w));
                         ("params", VObj [("code", VStr code);
                                          ("seasonCode", VStr seasonCode);
                                          ("gameNumber", VStr gameNumber)])]) in
              (Web.jsonResponse enriched 200 [("X-Cache", "MISS")],
               cache.set t' (clock_iso w) cacheKey enriched (Some CACHE_TTL) c1)
          | Throw message =>
              (Web.errorResponse w ("Failed to fetch boxscore: " +:+ message) 502, c1)
          end
  end.

End BoxscoreApi.

(** *** /api/pbp, the version that resolves the season code *)

Module Pbp.

Definition CACHE_TTL : Z := 60.

(** [v.length] of an array. *)
Definition array_length (v : value) : value :=
  match v with
  | VArr l => VNat (length l)
  | _ => VUndefined
  end.

Definition handler (w : World) (t t' : Z) (c : gmap string cache_entry)
    (req : request) : Web.response * gmap string cache_entry :=
  match Web.handleCors req with
  | Some corsRes => (corsRes, c)
  | None =>
      let params := req_params req in
      let code := default "E" (params !! "code") in
      let gameNumber := params !! "gameNumber" in
      if Web.missing gameNumber
      then (Web.errorResponse w "Missing required param: gameNumber" 400, c)
      else
        let gameNumber := default "" gameNumber in
        let seasonCode := getSeasonCode params in
        let cacheKey := "pbp:" +:+ seasonCode +:+ ":" +:+ gameNumber in
        let '(cached, c1) := cache.get t cacheKey c in
        if truthy cached
        then (Web.jsonResponse cached 200 [("X-Cache", "HIT")], c1)
        else
          match (data ← euroFetch w ("/competitions/" +:+ toUpperCase code
                                     +:+ "/seasons/" +:+ seasonCode +:+ "/games/"
                                     +:+ gameNumber +:+ "/playbyplay");
                 plays ← get data "data";
                 Ok (enrich data
                       (VObj [("source", VStr "bball-api");
                              ("cachedAt", VStr (clock_iso w));
                              ("totalPlays",
                               if isArray plays then array_length plays else VNull);
                              ("params", VObj [("code", VStr code);
                                               ("seasonCode", VStr seasonCode);
                                               ("gameNumber", VStr gameNumber)])])))
          with
          | Ok enriched =>
              (Web.jsonResponse enriched 200 [("X-Cache", "MISS")],
               cache.set t' (clock_iso w) cacheKey enriched (Some CACHE_TTL) c1)
          | Throw message =>
              (Web.errorResponse w ("Failed to fetch play-by-play: " +:+ message) 502,
               c1)
          end
  end.

End Pbp.

(** *** /api/rounds, the version that resolves the season code *)

Module Rounds.

Definition CACHE_TTL : Z := 300.

Definition handler (w : World) (t t' : Z) (c : gmap string cache_entry)
    (req : request) : Web.response * gmap string cache_entry :=
  match Web.handleCors req with
  | Some corsRes => (corsRes, c)
  | None =>
      let params := req_params req in
      let code := default "E" (params !! "code") in
      let round := params !! "round" in
      let seasonCode := getSeasonCode params in
      let roundPath :=
        if Web.missing round then "" else "/" +:+ default "" round in
      let cacheKey := "rounds:" +:+ seasonCode +:+ ":" +:+ Web.or_else round "all" in
      let '(cached, c1) := cache.get t cacheKey c in
      if truthy cached
      then (Web.jsonResponse cached 200 [("X-Cache", "HIT")], c1)
      else
        match euroFetch w ("/competitions/" +:+ toUpperCase code +:+ "/seasons/"
                           +:+ seasonCode +:+ "/rounds" +:+ roundPath) with
        | Ok data =>
            let enriched :=
              enrich data
                (VObj [("source", VStr "bball-api");
                       ("cachedAt", VStr (clock_iso w));
                       ("params", VObj [("code", VStr code);
                                        ("seasonCode", VStr seasonCode);
                                        ("round", VStr (Web.or_else round "all"))])]) in
            (Web.jsonResponse enriched 200 [("X-Cache", "MISS")],
             cache.set t' (clock_iso w) cacheKey enriched (Some CACHE_TTL) c1)
        | Throw message =>
            (Web.errorResponse w ("Failed to fetch rounds: " +:+ message) 502, c1)
        end
  end.

End Rounds.

(** *** /api/player, the version that resolves the season code *)

Module Player.

Definition CACHE_TTL : Z := 300.

(** [includeStats && (season || params.seasonCode)]. *)
Definition wants_stats (includeStats : bool) (params : gmap string string) : bool :=
  includeStats
  && (negb (Web.missing (params !! "season"))
      || negb (Web.missing (params !! "seasonCode"))).

Definition handler (w : World) (t t' : Z) (c : gmap string cache_entry)
    (req : request) : Web.response * gmap string cache_entry :=
  match Web.handleCors req with
  | Some corsRes => (corsRes, c)
  | None =>
      let params := req_params req in
      let code := default "E" (params !! "code") in
      let personCode := params !! "personCode" in
      let season := params !! "season" in
      let stats := params !! "stats" in
      if Web.missing personCode
      then (Web.errorResponse w "Missing required param: personCode" 400, c)
      else
        let personCode := default "" personCode in
        let includeStats :=
          match stats with
          | Some s => String.eqb s "true" || String.eqb s "1"
          | None => false
          end in
        let cacheKey :=
          "player:" +:+ code +:+ ":" +:+ personCode +:+ ":"
          +:+ Web.or_else season "none" +:+ ":"
          +:+ (if includeStats then "true" else "false") in
        let '(cached, c1) := cache.get t cacheKey c in
        if truthy cached
        then (Web.jsonResponse cached 200 [("X-Cache", "HIT")], c1)
        else
          match euroFetch w ("/competitions/" +:+ toUpperCase code +:+ "/persons/"
                             +:+ personCode) with
          | Ok profile =>
              let result := [("profile", profile)] in
              let result :=
                if wants_stats includeStats params
                then
                  match euroFetch w ("/competitions/" +:+ toUpperCase code
                                     +:+ "/seasons/" +:+ getSeasonCode params
                                     +:+ "/people/" +:+ personCode +:+ "/stats") with
                  | Ok seasonStats => put "seasonStats" seasonStats result
                  | Throw _ =>
                      put "_warnings"
                        (VArr [VStr "Season stats not available for this player/season"])
                        (put "seasonStats" VNull result)
                  end
                else result in
              let result :=
                put "_meta"
                  (VObj [("source", VStr "bball-api");
                         ("cachedAt", VStr (clock_iso w));
                         ("params", VObj [("code", VStr code);
                                          ("personCode", VStr personCode);
                                          ("includeStats", VBool includeStats)])])
                  result in
              (Web.jsonResponse (VObj result) 200 [("X-Cache", "MISS")],
               cache.set t' (clock_iso w) cacheKey (VObj result) (Some CACHE_TTL) c1)
          | Throw message =>
              (Web.errorResponse w ("Failed to fetch player data: " +:+ message) 502,
               c1)
          end
  end.

End Player.

(** *** /api/games *)

Module Games.

Definition CACHE_TTL : Z := 300.

Definition handler (w : World) (t t' : Z) (c : gmap string cache_entry)
    (req : request) : Web.response * gmap string cache_entry :=
  match Web.handleCors req with
  | Some corsRes => (corsRes, c)
  | None =>
      let params := req_params req in
      let code := default "E" (params !! "code") in
      let seasonCode := getSeasonCode params in
      let cacheKey := "games:" +:+ seasonCode in
      let '(cached, c1) := cache.get t cacheKey c in
      if truthy cached
      then (Web.jsonResponse cached 200 [("X-Cache", "HIT")], c1)
      else
        match euroFetch w ("/competitions/" +:+ toUpperCase code +:+ "/seasons/"
                           +:+ seasonCode +:+ "/games") with
        | Ok data =>
            let enriched :=
              enrich data
                (VObj [("source", VStr "bball-api");
                       ("cachedAt", VStr (clock_iso w));
                       ("params", VObj [("code", VStr code);
                                        ("seasonCode", VStr seasonCode)])]) in
            (Web.jsonResponse enriched 200 [("X-Cache", "MISS")],
             cache.set t' (clock_iso w) cacheKey enriched (Some CACHE_TTL) c1)
        | Throw message =>
            (Web.errorResponse w ("Failed to fetch games: " +:+ message) 502, c1)
        end
  end.

End Games.

(** *** /api/standings, the version that resolves the season code *)

Module Standings.

Definition CACHE_TTL : Z := 300.

Definition handler (w : World) (t t' : Z) (c : gmap string cache_entry)
    (req : request) : Web.response * gmap string cache_entry :=
  match Web.handleCors req with
  | Some corsRes => (corsRes, c)
  | None =>
      let params := req_params req in
      let code := default "E" (params !! "code") in
      let seasonCode := getSeasonCode params in
      let cacheKey := "standings:" +:+ seasonCode in
      let '(cached, c1) := cache.get t cacheKey c in
      if truthy cached
      then (Web.jsonResponse cached 200 [("X-Cache", "HIT")], c1)
      else
        match euroFetch w ("/competitions/" +:+ toUpperCase code +:+ "/seasons/"
                           +:+ seasonCode +:+ "/standings") with
        | Ok data =>
            let enriched :=
              enrich data
                (VObj [("source", VStr "bball-api");
                       ("cachedAt", VStr (clock_iso w));
                       ("params", VObj [("code", VStr code);
                                        ("seasonCode", VStr seasonCode)])]) in
            (Web.jsonResponse enriched 200 [("X-Cache", "MISS")],
             cache.set t' (clock_iso w) cacheKey enriched (Some CACHE_TTL) c1)
        | Throw message =>
            (Web.errorResponse w ("Failed to fetch standings: " +:+ message) 502, c1)
        end
  end.

End Standings.

(** *** /api/boxscore, the version that builds the season code itself *)

Module BoxscoreSeason.

Definition CACHE_TTL : Z := 60.

Definition handler (w : World) (t t' : Z) (c : gmap string cache_entry)
    (req : request) : Web.response * gmap string cache_entry :=
  match Web.handleCors req with
  | Some corsRes => (corsRes, c)
  | None =>
      let params := req_params req in
      let season := default "2025" (params !! "season") in
      let code := default "E" (params !! "code") in
      let gameNumber := params !! "gameNumber" in
      if Web.missing gameNumber
      then (Web.errorResponse w "Missing required param: gameNumber" 400, c)
      else
        let gameNumber := default "" gameNumber in
        let seasonCode := buildSeasonCode (Some code) (Some season) None in
        let cacheKey := "boxscore:" +:+ seasonCode +:+ ":" +:+ gameNumber in
        let '(cached, c1) := cache.get t cacheKey c in
        if truthy cached
        then (Web.jsonResponse cached 200 [("X-Cache", "HIT")], c1)
        else
          match euroFetch w ("/competitions/" +:+ toUpperCase code +:+ "/seasons/"
                             +:+ seasonCode +:+ "/games/" +:+ gameNumber
                             +:+ "/boxscore") with
          | Ok data =>
              let enriched :=
                enrich data
                  (VObj [("source", VStr "bball-api");
                         ("cachedAt", VStr (clock_iso w));
                         ("params", VObj [("season", VStr season);
                                          ("code", VStr code);
                                          ("seasonCode", VStr seasonCode);
                                          ("gameNumber", VStr gameNumber)])]) in
              (Web.jsonResponse enriched 200 [("X-Cache", "MISS")],
               cache.set t' (clock_iso w) cacheKey enriched (Some CACHE_TTL) c1)
          | Throw message =>
              (Web.errorResponse w ("Failed to fetch boxscore: " +:+ message) 502, c1)
          end
  end.

End BoxscoreSeason.

(** *** Vocabulary for the read endpoints *)

(** The value of a response header. *)
Fixpoint header_of (name : string) (hs : list (string * string)) : option string :=
  match hs with
  | [] => None
  | (k, v) :: rest => if String.eqb name k then Some v else header_of name rest
  end.

Definition x_cache (r : Web.response) : option string :=
  header_of "X-Cache" (Web.headers r).

(** The cached endpoints with the lifetime each gives its entries. *)
Definition read_endpoints
  : list ((World -> Z -> Z -> gmap string cache_entry -> request
           -> Web.response * gmap string cache_entry) * Z) :=
  [(Game.handler, Game.CACHE_TTL);
   (BoxscoreApi.handler, BoxscoreApi.CACHE_TTL);
   (Pbp.handler, Pbp.CACHE_TTL);
   (Rounds.handler, Rounds.CACHE_TTL);
   (Player.handler, Player.CACHE_TTL);
   (Games.handler, Games.CACHE_TTL);
   (Standings.handler, Standings.CACHE_TTL);
   (BoxscoreSeason.handler, BoxscoreSeason.CACHE_TTL)].

(** * Properties *)

(** ** Rounding to a double *)

Section Rounding.

Local Open Scope Q_scope.

Lemma to_double_compat p q : (p == q)%Q -> to_double p = to_double q.
Proof. intros H. unfold to_double. now rewrite (Qred_complete _ _ H). Qed.

Lemma Qred_inject_Z z : Qred (inject_Z z) = inject_Z z.
Proof.
  unfold Qred, inject_Z. simpl.
  pose proof (Z.ggcd_gcd z 1) as Hg. pose proof (Z.ggcd_correct_divisors z 1) as Hd.
  destruct (Z.ggcd z 1) as [g [a b]]. simpl in *.
  rewrite Z.gcd_1_r in Hg. subst g. destruct Hd as [Ha Hb].
  replace a with z by lia. replace b with 1%Z by lia. reflexivity.
Qed.

Lemma to_double_not_nan q : to_double q <> NaN.
Proof.
  unfold to_double. cbv zeta.
  repeat match goal with |- context [if ?b then _ else _] => destruct b end;
    discriminate.
Qed.

Lemma Qred_zero q : (q == 0)%Q -> Qred q = 0%Q.
Proof. intros H. now rewrite (Qred_complete _ _ H). Qed.

Lemma to_double_shape q :
  (exists r, to_double q = Fin (Qred r)) \/ exists s, to_double q = Inf s.
Proof.
  unfold to_double. cbv zeta.
  repeat match goal with |- context [if ?b then _ else _] => destruct b end;
    eauto.
  left. now exists 0%Q.
Qed.

Lemma to_double_falsy q : num_truthy (to_double q) = false -> to_double q = Fin 0.
Proof.
  destruct (to_double_shape q) as [[r ->]|[s ->]]; cbn [num_truthy];
    [|discriminate].
  intros H. apply negb_false_iff, Qeq_bool_eq in H. f_equal.
  apply (Qred_eq_iff r 0). now rewrite <- (Qred_correct r).
Qed.

Lemma to_double_int z :
  (Z.abs z < 2 ^ 53)%Z -> to_double (inject_Z z) = Fin (inject_Z z).
Proof.
  intros Hz. unfold to_double, binary_exponent, round_half_even.
  rewrite Qred_inject_Z. cbn [Qnum Qden inject_Z]. cbv zeta.
  destruct (Z.eqb_spec (Z.abs z) 0) as [H0|H0].
  { assert (z = 0%Z) by lia. subst. reflexivity. }
  change (Z.log2 1) with 0%Z. rewrite Z.sub_0_r.
  set (n := Z.abs z) in *.
  assert (Hn : (0 < n)%Z) by lia.
  pose proof (Z.log2_spec n Hn) as [Hlo Hhi].
  pose proof (Z.log2_nonneg n) as Hl0.
  assert (Hl : (Z.log2 n < 53)%Z).
  { apply Z.log2_lt_pow2; lia. }
  set (l := Z.log2 n) in *.
  rewrite (Z.max_l 0 (- l)) by lia. rewrite (Z.max_r 0 l) by lia.
  change (2 ^ 0)%Z with 1%Z. rewrite Z.mul_1_r, Z.mul_1_l.
  destruct (Z.ltb_spec n (2 ^ l)) as [Hc|_]; [lia|].
  rewrite (Z.max_l (l - 52) (-1074)) by lia.
  rewrite (Z.max_r 0 (- (l - 52))) by lia. rewrite (Z.max_l 0 (l - 52)) by lia.
  change (2 ^ 0)%Z with 1%Z. rewrite !Z.mul_1_r.
  rewrite Z.mod_1_r, Z.div_1_r. change (2 * 0 <? 1)%Z with true. cbv iota.
  set (k := (- (l - 52))%Z).
  assert (Hk : (0 <= k)%Z) by (unfold k; lia).
  assert (Hpk : (0 < 2 ^ k)%Z) by (apply Z.pow_pos_nonneg; lia).
  destruct (Z.leb_spec (2 ^ 1024 * 2 ^ k) (n * 2 ^ k)) as [Hov|_].
  { assert ((2 ^ 53 < 2 ^ 1024)%Z) by (apply Z.pow_lt_mono_r; lia). nia. }
  f_equal. etransitivity; [|apply (Qred_inject_Z z)]. apply Qred_complete.
  assert (Hs : ((if Qneg (inject_Z z) then -1 else 1) * n = z)%Z).
  { unfold Qneg, n, inject_Z. cbn [Qnum]. destruct (Z.ltb_spec z 0); lia. }
  rewrite Z.mul_assoc, Hs.
  rewrite inject_Z_mult. field.
  intros Hq. apply (inject_Z_injective (2 ^ k) 0) in Hq. lia.
Qed.

Lemma pw_pos k : 0 < 2 ^ k.
Proof. apply Qpower_0_lt. reflexivity. Qed.

Lemma pw_split k :
  inject_Z (2 ^ Z.max 0 k) == 2 ^ k * inject_Z (2 ^ Z.max 0 (- k)).
Proof.
  destruct (Z.le_ge_cases 0 k) as [H|H].
  - rewrite (Z.max_r 0 k), (Z.max_l 0 (- k)) by lia.
    change (2 ^ 0)%Z with 1%Z. rewrite Zpower_Qpower by lia.
    change (inject_Z 2) with 2. change (inject_Z 1) with 1. ring.
  - rewrite (Z.max_l 0 k), (Z.max_r 0 (- k)) by lia.
    change (2 ^ 0)%Z with 1%Z. rewrite Zpower_Qpower by lia.
    change (inject_Z 2) with 2. change (inject_Z 1) with 1.
    rewrite Qpower_opp. field. apply Qpower_not_0. discriminate.
Qed.

Lemma pw_succ k : 2 ^ (k + 1) == 2 * 2 ^ k.
Proof. rewrite Qpower_plus by discriminate. change (2 ^ 1) with 2. ring. Qed.

Lemma scaled_lt n d k :
  (0 < d)%Z ->
  (n * 2 ^ Z.max 0 (- k) < d * 2 ^ Z.max 0 k)%Z <->
  inject_Z n / inject_Z d < 2 ^ k.
Proof.
  intros Hd.
  assert (Hd' : 0 < inject_Z d) by (change 0 with (inject_Z 0); now rewrite <- Zlt_Qlt).
  assert (HN : 0 < inject_Z (2 ^ Z.max 0 (- k))).
  { change 0 with (inject_Z 0). rewrite <- Zlt_Qlt. apply Z.pow_pos_nonneg; lia. }
  rewrite Zlt_Qlt, !inject_Z_mult, (pw_split k).
  set (N := inject_Z (2 ^ Z.max 0 (- k))) in *.
  set (D := inject_Z d) in *. set (X := inject_Z n).
  pose proof (pw_pos k) as Hp. set (P := 2 ^ k) in *.
  split; intros H.
  - apply Qlt_shift_div_r; [exact Hd'|].
    apply (Qmult_lt_r _ _ N HN). lra.
  - assert (H' : X < P * D).
    { apply (Qmult_lt_r _ _ (/ D)); [now apply Qinv_lt_0_compat|].
      unfold Qdiv in H. field_simplify (P * D * / D); [lra|lra]. }
    nra.
Qed.

Lemma log2_bracket n :
  (0 < n)%Z ->
  2 ^ Z.log2 n <= inject_Z n /\ inject_Z n < 2 * 2 ^ Z.log2 n.
Proof.
  intros Hn. pose proof (Z.log2_spec n Hn) as [Hlo Hhi].
  pose proof (Z.log2_nonneg n) as H0.
  split.
  - change 2 with (inject_Z 2). rewrite <- Zpower_Qpower by lia. now rewrite <- Zle_Qle.
  - rewrite <- pw_succ. change 2 with (inject_Z 2).
    rewrite <- Zpower_Qpower by lia. rewrite <- Zlt_Qlt.
    now rewrite Z.add_1_r.
Qed.

Lemma binary_exponent_spec n d :
  (0 < n)%Z -> (0 < d)%Z ->
  2 ^ binary_exponent n d <= inject_Z n / inject_Z d /\
  inject_Z n / inject_Z d < 2 * 2 ^ binary_exponent n d.
Proof.
  intros Hn Hd. unfold binary_exponent.
  destruct (log2_bracket n Hn) as [Hn1 Hn2].
  destruct (log2_bracket d Hd) as [Hd1 Hd2].
  set (e0 := (Z.log2 n - Z.log2 d)%Z).
  assert (HE : 2 ^ e0 * 2 ^ Z.log2 d == 2 ^ Z.log2 n).
  { unfold e0. rewrite Qpower_minus by discriminate. field.
    apply Qpower_not_0. discriminate. }
  assert (Hhalf : 2 * 2 ^ (e0 - 1) == 2 ^ e0).
  { rewrite <- pw_succ. now replace (e0 - 1 + 1)%Z with e0 by lia. }
  pose proof (pw_pos e0) as He0. pose proof (pw_pos (e0 - 1)) as He1.
  pose proof (pw_pos (Z.log2 n)) as HA. pose proof (pw_pos (Z.log2 d)) as HB.
  assert (Hd' : 0 < inject_Z d) by (change 0 with (inject_Z 0); now rewrite <- Zlt_Qlt).
  assert (Hx : inject_Z n / inject_Z d * inject_Z d == inject_Z n).
  { field. intros E. rewrite E in Hd'. now apply Qlt_irrefl in Hd'. }
  set (x := inject_Z n / inject_Z d) in *.
  set (X := inject_Z n) in *. set (D := inject_Z d) in *.
  set (A := 2 ^ Z.log2 n) in *. set (B := 2 ^ Z.log2 d) in *.
  set (E0 := 2 ^ e0) in *. set (E1 := 2 ^ (e0 - 1)) in *.
  assert (Hup : x < 2 * E0).
  { destruct (Qlt_le_dec x (2 * E0)) as [H|H]; [exact H|exfalso]. nra. }
  assert (Hlow : E1 <= x).
  { destruct (Qlt_le_dec x E1) as [H|H]; [exfalso|exact H].
    assert (0 < x) by (unfold x, Qdiv; apply Qmult_lt_0_compat;
                       [lra|now apply Qinv_lt_0_compat]).
    nra. }
  destruct (Z.ltb_spec (n * 2 ^ Z.max 0 (- e0)) (d * 2 ^ Z.max 0 e0)) as [T|T].
  - apply (scaled_lt n d e0 Hd) in T. change (x < E0) in T.
    fold E1. split; [exact Hlow|lra].
  - fold E0. split; [|exact Hup].
    destruct (Qlt_le_dec x E0) as [H|H]; [|exact H].
    apply (scaled_lt n d e0 Hd) in H. lia.
Qed.

Lemma round_half_even_spec num den :
  (0 <= num)%Z -> (0 < den)%Z ->
  (- den <= 2 * (round_half_even num den * den - num) <= den)%Z.
Proof.
  intros Hnum Hden. unfold round_half_even.
  pose proof (Z.div_mod num den ltac:(lia)) as Hdm.
  pose proof (Z.mod_pos_bound num den Hden) as Hr.
  destruct (Z.ltb_spec (2 * (num mod den)) den);
    [|destruct (Z.ltb_spec den (2 * (num mod den)));
      [|destruct (Z.even (num / den))]]; nia.
Qed.

Lemma inject_Z_pos z : (0 < z)%Z -> 0 < inject_Z z.
Proof. intros H. change 0 with (inject_Z 0). now rewrite <- Zlt_Qlt. Qed.

(** The rounding error in the range of the normal doubles. *)
Lemma to_double_error q :
  2 ^ (-1022) <= q -> q < 2 ^ 1023 ->
  exists r, to_double q = Fin r /\ Qabs (r - q) <= q * 2 ^ (-53).
Proof.
  intros Hlo Hhi.
  assert (Hq : 0 < q) by (pose proof (pw_pos (-1022)); lra).
  unfold to_double. cbv zeta.
  assert (Hred : Qred q == q) by apply Qred_correct.
  destruct (Qred q) as [n0 d0] eqn:Eq. cbn [Qnum Qden].
  assert (Hn0 : (0 < n0)%Z).
  { rewrite <- Hred in Hq. unfold Qlt in Hq. cbn in Hq. lia. }
  rewrite (Z.abs_eq n0) by lia.
  destruct (Z.eqb_spec n0 0) as [E|_]; [lia|].
  assert (Hx : inject_Z n0 / inject_Z (Z.pos d0) == q).
  { rewrite <- Hred. symmetry. apply Qmake_Qdiv. }
  destruct (binary_exponent_spec n0 (Z.pos d0) Hn0 ltac:(lia)) as [He1 He2].
  set (e := binary_exponent n0 (Z.pos d0)) in *.
  rewrite Hx in He1, He2.
  assert (Hemin : (-1022 <= e)%Z).
  { assert (H : 2 ^ (-1022) < 2 ^ (e + 1)) by (rewrite pw_succ; lra).
    apply Qpower_lt_compat_l_inv in H; [lia|reflexivity]. }
  assert (Hemax : (e <= 1022)%Z).
  { assert (H : 2 ^ e < 2 ^ 1023) by lra.
    apply Qpower_lt_compat_l_inv in H; [lia|reflexivity]. }
  rewrite (Z.max_l (e - 52) (-1074)) by lia.
  set (ex := (e - 52)%Z).
  set (P := (2 ^ Z.max 0 ex)%Z). set (N := (2 ^ Z.max 0 (- ex))%Z).
  assert (HP : (0 < P)%Z) by (apply Z.pow_pos_nonneg; lia).
  assert (HN : (0 < N)%Z) by (apply Z.pow_pos_nonneg; lia).
  pose proof (pw_split ex) as Hsplit. fold P N in Hsplit.
  pose proof (round_half_even_spec (n0 * N) (Z.pos d0 * P) ltac:(lia) ltac:(lia))
    as [Hr1 Hr2].
  set (m := round_half_even (n0 * N) (Z.pos d0 * P)) in *.
  assert (HU : 2 ^ e == 2 ^ 52 * 2 ^ ex).
  { unfold ex. rewrite Qpower_minus by discriminate. field. }
  pose proof (pw_pos ex) as HUpos.
  pose proof (inject_Z_pos _ HN) as HNq. pose proof (inject_Z_pos _ HP) as HPq.
  pose proof (inject_Z_pos (Z.pos d0) ltac:(lia)) as HDq.
  assert (HX : inject_Z n0 == q * inject_Z (Z.pos d0)).
  { rewrite <- Hx. field. lra. }
  set (M := inject_Z m) in *. set (D := inject_Z (Z.pos d0)) in *.
  set (Nq := inject_Z N) in *. set (U := 2 ^ ex) in *.
  assert (Hq1 : - (D * (U * Nq)) <= 2 * (M * (D * (U * Nq)) - q * D * Nq)).
  { rewrite <- Hsplit, <- HX. unfold M, D, Nq, Qminus.
    rewrite <- !inject_Z_mult, <- !inject_Z_opp, <- inject_Z_plus.
    change 2 with (inject_Z 2). rewrite <- inject_Z_mult.
    rewrite <- Zle_Qle. lia. }
  assert (Hq2 : 2 * (M * (D * (U * Nq)) - q * D * Nq) <= D * (U * Nq)).
  { rewrite <- Hsplit, <- HX. unfold M, D, Nq, Qminus.
    rewrite <- !inject_Z_mult, <- !inject_Z_opp, <- inject_Z_plus.
    change 2 with (inject_Z 2). rewrite <- inject_Z_mult.
    rewrite <- Zle_Qle. lia. }
  assert (Hround1 : - U <= 2 * (M * U - q)).
  { destruct (Qlt_le_dec (2 * (M * U - q)) (- U)) as [H|H]; [exfalso|exact H].
    assert (0 < D * Nq) by nra. nra. }
  assert (Hround2 : 2 * (M * U - q) <= U).
  { destruct (Qlt_le_dec U (2 * (M * U - q))) as [H|H]; [exfalso|exact H].
    assert (0 < D * Nq) by nra. nra. }
  assert (H52 : 2 ^ 52 == inject_Z (2 ^ 52)) by reflexivity.
  assert (HUle : U * inject_Z (2 ^ 52) <= q) by (rewrite <- H52; lra).
  destruct (Z.leb_spec (2 ^ 1024 * N) (m * P)) as [Hov|_].
  { exfalso. rewrite Zle_Qle in Hov. rewrite !inject_Z_mult, Hsplit in Hov.
    fold M Nq U in Hov.
    assert (H1023 : 2 ^ 1023 == inject_Z (2 ^ 1023)) by reflexivity.
    assert (Hq' : q < inject_Z (2 ^ 1023)) by (rewrite <- H1023; exact Hhi).
    assert (HMU : M * U < inject_Z (2 ^ 1024)).
    { assert (inject_Z (2 ^ 1024) == 2 * inject_Z (2 ^ 1023)) by reflexivity.
      assert (0 < inject_Z (2 ^ 52) - 1) by reflexivity.
      nra. }
    nra. }
  eexists. split; [reflexivity|].
  match goal with |- Qabs (?r - q) <= _ => assert (Hval : r == M * U) end.
  { rewrite Qred_correct. unfold Qneg. cbn [Qnum].
    destruct (Z.ltb_spec n0 0) as [Hneg|_]; [lia|].
    rewrite Z.mul_1_l, inject_Z_mult, Hsplit. fold M Nq. field. lra. }
  rewrite Hval.
  assert (H53 : 2 ^ (-53) == 1 / (2 * inject_Z (2 ^ 52))) by reflexivity.
  rewrite H53.
  apply Qabs_Qle_condition. split.
  - assert (HB : q * (1 / (2 * inject_Z (2 ^ 52))) * (2 * inject_Z (2 ^ 52)) == q).
    { field. discriminate. }
    assert (0 < inject_Z (2 ^ 52)) by reflexivity.
    set (B := q * (1 / (2 * inject_Z (2 ^ 52)))) in *. nra.
  - assert (HB : q * (1 / (2 * inject_Z (2 ^ 52))) * (2 * inject_Z (2 ^ 52)) == q).
    { field. discriminate. }
    assert (0 < inject_Z (2 ^ 52)) by reflexivity.
    set (B := q * (1 / (2 * inject_Z (2 ^ 52)))) in *. nra.
Qed.

(** [a + b / 60] on two integers below [2^53], as the doubles compute it:
    within [2^-51] of the quotient and sum of the rationals, relatively. *)
Lemma minutes_arithmetic_error a b :
  (0 <= a < 2 ^ 53)%Z -> (0 <= b < 2 ^ 53)%Z ->
  exists r,
    num_add (Fin (inject_Z a)) (num_div (Fin (inject_Z b)) (Fin 60)) = Fin r /\
    Qabs (r - (inject_Z a + inject_Z b / 60))
    <= (inject_Z a + inject_Z b / 60) * 2 ^ (-51).
Proof.
  intros Ha Hb. cbn [num_div]. change (Qeq_bool 60 0) with false. cbv iota.
  assert (HA : 0 <= inject_Z a) by (change 0 with (inject_Z 0); rewrite <- Zle_Qle; lia).
  assert (HA' : inject_Z a < inject_Z (2 ^ 53)) by (rewrite <- Zlt_Qlt; lia).
  assert (HB' : inject_Z b < inject_Z (2 ^ 53)) by (rewrite <- Zlt_Qlt; lia).
  assert (H51 : 2 ^ (-51) == 4 * 2 ^ (-53)) by reflexivity.
  assert (H53 : 0 < 2 ^ (-53) /\ 2 ^ (-53) < 1) by (split; reflexivity).
  destruct (Z.eq_dec b 0%Z) as [->|Hb0].
  - replace (to_double (inject_Z 0 / 60)) with (Fin 0) by (symmetry; vm_compute; reflexivity).
    cbn [num_add].
    rewrite (to_double_compat (inject_Z a + 0) (inject_Z a)) by ring.
    rewrite to_double_int by lia.
    eexists. split; [reflexivity|].
    assert (Hz : inject_Z 0 / 60 == 0) by reflexivity. rewrite Hz.
    assert (E : inject_Z a - (inject_Z a + 0) == 0) by ring. rewrite E.
    change (Qabs 0) with 0. nra.
  - assert (HB : 1 <= inject_Z b) by (change 1 with (inject_Z 1); rewrite <- Zle_Qle; lia).
    assert (Hq : inject_Z b / 60 * 60 == inject_Z b) by (field; discriminate).
    set (y := inject_Z b / 60) in *.
    assert (H2 : 2 ^ (-1022) < 1 # 120) by reflexivity.
    assert (H3 : inject_Z (2 ^ 53) * 2 < 2 ^ 1023) by reflexivity.
    destruct (to_double_error y ltac:(lra) ltac:(lra)) as (s & -> & Hs).
    cbn [num_add].
    apply Qabs_Qle_condition in Hs. destruct Hs as [Hs1 Hs2].
    set (u := 2 ^ (-53)) in *.
    assert (Hys : y * u <= y) by nra.
    destruct (to_double_error (inject_Z a + s) ltac:(nra) ltac:(nra)) as (r & -> & Hr).
    exists r. split; [reflexivity|].
    apply Qabs_Qle_condition in Hr. destruct Hr as [Hr1 Hr2].
    apply Qabs_Qle_condition. rewrite H51. fold u. split; nra.
Qed.

End Rounding.

Example to_double_third : to_double (1 # 3) = Fin (6004799503160661 # 18014398509481984).
Proof. vm_compute. reflexivity. Qed.

Example to_double_past_2_53 :
  to_double (inject_Z 9007199254740993) = Fin 9007199254740992.
Proof. vm_compute. reflexivity. Qed.

Example to_double_overflow : to_double (inject_Z (10 ^ 309)) = Inf false.
Proof. vm_compute. reflexivity. Qed.

(** ** Sanity checks of the string primitives *)

Example parseFloat_25 : parseFloat "25" = Fin 25.
Proof. reflexivity. Qed.
Example parseFloat_frac : parseFloat " -2.50e1xyz" = Fin (-25).
Proof. reflexivity. Qed.
Example parseFloat_dot : parseFloat "." = NaN.
Proof. reflexivity. Qed.
Example parseInt_hex : parseInt " 0x1F" = Fin 31.
Proof. reflexivity. Qed.
Example parseInt_px : parseInt "12px" = Fin 12.
Proof. reflexivity. Qed.
Example split_ex : split "," "1, 3,,x" = ["1"; " 3"; ""; "x"].
Proof. reflexivity. Qed.
Example trim_ex : trim "  a b  " = "a b".
Proof. reflexivity. Qed.
Example string_of_nat_ex : string_of_nat 0 = "0" /\ string_of_nat 404 = "404".
Proof. split; reflexivity. Qed.

(** ** Sanity checks of the transforms *)

Example parseMinutes_plain : Boxscore.parseMinutes (VStr "25") = Fin 25.
Proof. reflexivity. Qed.

Example parseMinutes_three_parts : Boxscore.parseMinutes (VStr "1:2:3") = Fin 1.
Proof. reflexivity. Qed.

Example parseMinutes_dnp : Boxscore.parseMinutes (VStr "DNP") = Fin 0.
Proof. reflexivity. Qed.

(** Offensive 3 and defensive 5 give a total of 8; an explicit total wins. *)
Example total_rebounds_sum :
  exists row,
    Boxscore.transformPlayerStats (world [])
      (VObj [("personCode", VStr "P1"); ("offensiveRebounds", int 3);
             ("defensiveRebounds", int 5)]) (VObj []) (VObj []) true = Ok row /\
    Boxscore.total_rebounds row = int 8.
Proof. eexists. split; reflexivity. Qed.

Example total_rebounds_explicit :
  exists row,
    Boxscore.transformPlayerStats (world [])
      (VObj [("personCode", VStr "P1"); ("offensiveRebounds", int 3);
             ("defensiveRebounds", int 5); ("totalRebounds", int 9)])
      (VObj []) (VObj []) true = Ok row /\
    Boxscore.total_rebounds row = int 9.
Proof. eexists. split; reflexivity. Qed.

(** A [null] entry in the players array is a TypeError. *)
Example null_player_throws :
  Boxscore.extractPlayers (world [])
    (VObj [("local", VObj [("players", VArr [VNull])])]) (int 1) "E2025" "E" VNull VNull
  = Throw "Cannot read properties of null (reading 'personCode')".
Proof. reflexivity. Qed.

(** A preflight request is answered 204 before anything else happens. *)
Example preflight :
  Boxscore.handler (world []) {| req_method := "OPTIONS"; req_params := ∅ |}
  = {| status := 204; body := VNull |}.
Proof. reflexivity. Qed.

(** [skipBoxscores=true] skips steps 3 and 4. *)
Example skip_boxscores :
  field (body (Boxscore.handler three_games (GET [("skipBoxscores", "true")])))
    "boxscores" = VStr "skipped".
Proof. vm_compute. reflexivity. Qed.

(** ** The season-code resolver *)

Lemma toUpperCase_idempotent s : toUpperCase (toUpperCase s) = toUpperCase s.
Proof.
  induction s as [|c r IH]; simpl; [reflexivity|].
  f_equal; [|exact IH].
  destruct c as [[] [] [] [] [] [] [] []]; reflexivity.
Qed.

Lemma toUpperCase_length s : String.length (toUpperCase s) = String.length s.
Proof. induction s; simpl; congruence. Qed.

(** C9.  [buildSeasonCode] returns a present, non-empty override verbatim
    whatever the code and the year are, and otherwise the upper-cased
    competition code followed by the year; [getSeasonCode] applies the same
    rule to the request parameters with the defaults ["E"] and ["2025"].
    Both are total functions.  The two scenarios of the specification are
    included. *)
Theorem season_code_resolution :
  (forall code season o,
      o <> "" -> buildSeasonCode code season (Some o) = o) /\
  (forall code season,
      buildSeasonCode (Some code) (Some season) None
      = toUpperCase code +:+ season) /\
  (forall code season,
      buildSeasonCode (Some code) (Some season) (Some "")
      = toUpperCase code +:+ season) /\
  (forall (params : gmap string string) o,
      params !! "seasonCode" = Some o -> o <> "" -> getSeasonCode params = o) /\
  (forall (params : gmap string string),
      params !! "seasonCode" = None \/ params !! "seasonCode" = Some "" ->
      getSeasonCode params
      = toUpperCase (default "E" (params !! "code"))
        +:+ default "2025" (params !! "season")) /\
  buildSeasonCode (Some "e") (Some "2025") None = "E2025" /\
  buildSeasonCode (Some "j") (Some "2025") (Some "JTA25") = "JTA25".
Proof.
  assert (Hne : forall o : string, o <> "" -> String.eqb o "" = false)
    by (intros o Ho; apply String.eqb_neq; exact Ho).
  repeat split.
  - intros code season o Ho. unfold buildSeasonCode. now rewrite (Hne o Ho).
  - intros params o Hp Ho. unfold getSeasonCode, buildSeasonCode.
    rewrite Hp, (Hne o Ho). simpl. now rewrite (Hne o Ho).
  - intros params [Hp|Hp]; unfold getSeasonCode; rewrite Hp; reflexivity.
Qed.

Lemma season_code_resolution_witness :
  "JTA25" <> "" /\ buildSeasonCode (Some "j") (Some "2025") (Some "JTA25") = "JTA25".
Proof.
  split; [discriminate|].
  apply (proj1 season_code_resolution (Some "j") (Some "2025") "JTA25").
  discriminate.
Defined.

(** ** The cache *)

Lemma cache_keys_spec (c : gmap string cache_entry) k :
  k ∈ (cache.stats c).2 <-> is_Some (c !! k).
Proof.
  unfold cache.stats; simpl. rewrite list_elem_of_fmap. split.
  - intros [[k' e] [-> Hin]]. apply elem_of_map_to_list in Hin. eauto.
  - intros [e He]. exists (k, e). split; [reflexivity|].
    now apply elem_of_map_to_list.
Qed.

Lemma cache_get_set_lookup (c : gmap string cache_entry) now iso k v ttl :
  cache.set now iso k v (Some ttl) c !! k
  = Some {| data := v; expires := (now + ttl * 1000)%Z; storedAt := iso |}.
Proof. unfold cache.set. simpl. apply lookup_insert_eq. Qed.

Lemma cache_get_fresh (c : gmap string cache_entry) now iso k v ttl t :
  (t <= now + ttl * 1000)%Z ->
  cache.get t k (cache.set now iso k v (Some ttl) c)
  = (v, cache.set now iso k v (Some ttl) c).
Proof.
  intros Ht. unfold cache.get. rewrite cache_get_set_lookup. simpl.
  destruct (Z.gtb_spec t (now + ttl * 1000)) as [Hgt|_]; [lia|reflexivity].
Qed.

Lemma cache_get_stale (c : gmap string cache_entry) now iso k v ttl t :
  (now + ttl * 1000 < t)%Z ->
  cache.get t k (cache.set now iso k v (Some ttl) c) = (VNull, delete k c).
Proof.
  intros Ht. unfold cache.get. rewrite cache_get_set_lookup. simpl.
  destruct (Z.gtb_spec t (now + ttl * 1000)) as [_|Hle]; [|lia].
  unfold cache.set. now rewrite delete_insert_eq.
Qed.

Lemma cache_keys_delete (c : gmap string cache_entry) k :
  k ∉ (cache.stats (delete k c)).2.
Proof.
  intros Hin. apply cache_keys_spec in Hin.
  rewrite lookup_delete_eq in Hin. destruct Hin as [e He]. discriminate.
Qed.

(** C10, as the code has it.  After [set(k, v, ttl)] at time [now], a
    [get(k)] at any time [now'] up to and including the recorded expiry
    [now + ttl * 1000] returns [v] and leaves the cache as it is (so it does
    immediately after the [set] whenever [ttl] is not negative); a [get(k)]
    at a time strictly after the expiry returns [null] and removes the entry,
    so that [k] is no longer among [stats().keys]. *)
Theorem cache_set_then_get
    (c : gmap string cache_entry) (now now' : Z) (iso k : string) (v : value)
    (ttl : Z) :
  let c1 := cache.set now iso k v (Some ttl) c in
  k ∈ (cache.stats c1).2 /\
  ((now' <= now + ttl * 1000)%Z -> cache.get now' k c1 = (v, c1)) /\
  ((0 <= ttl)%Z -> cache.get now k c1 = (v, c1)) /\
  ((now + ttl * 1000 < now')%Z ->
     cache.get now' k c1 = (VNull, delete k c) /\
     k ∉ (cache.stats (cache.get now' k c1).2).2).
Proof.
  intros c1. unfold c1.
  split; [|split; [|split]].
  - apply cache_keys_spec. rewrite cache_get_set_lookup. eauto.
  - apply cache_get_fresh.
  - intros Httl. apply cache_get_fresh. lia.
  - intros Hlate. rewrite (cache_get_stale _ _ _ _ _ _ _ Hlate).
    split; [reflexivity|]. apply cache_keys_delete.
Qed.

Lemma cache_set_then_get_witness :
  (0 + 60 * 1000 < 60001)%Z /\
  cache.get 60001 "games:E2025"
    (cache.set 0 "t0" "games:E2025" (VStr "payload") (Some 60%Z) ∅)
  = (VNull, delete "games:E2025" ∅).
Proof.
  split; [lia|].
  apply (proj2 (proj2 (proj2
           (cache_set_then_get ∅ 0 60001 "t0" "games:E2025" (VStr "payload") 60)))).
  lia.
Defined.

(** C10, the boundary.  Exactly [ttl] seconds after the [set] the time is no
    longer strictly before the expiry ([1000 < 1000] fails), and [get] still
    returns the value and keeps the key. *)
Lemma cache_get_at_expiry_still_hits :
  let c1 := cache.set 0 "t0" "k" (VStr "v") (Some 1%Z) ∅ in
  c1 !! "k" = Some {| data := VStr "v"; expires := 1000; storedAt := "t0" |} /\
  ~ (1000 < 1000)%Z /\
  (cache.get 1000 "k" c1).1 = VStr "v" /\
  (cache.get 1000 "k" c1).1 <> VNull /\
  "k" ∈ (cache.stats (cache.get 1000 "k" c1).2).2.
Proof.
  intros c1. unfold c1.
  rewrite (cache_get_fresh ∅ 0 "t0" "k" (VStr "v") 1 1000) by lia.
  cbn [fst snd].
  split; [apply cache_get_set_lookup|].
  split; [lia|]. split; [reflexivity|]. split; [discriminate|].
  apply cache_keys_spec. rewrite cache_get_set_lookup. eauto.
Qed.


(** ** Field goals (C4) *)

(** In the [/stats] version the combined field goals are the sum of the two
    splits, whatever the entry holds. *)
Lemma stats_field_goals_are_sums w entry gameInfo teamCode teamName teamTvCode isLocal row :
  Stats.transformPlayerStats w entry gameInfo teamCode teamName teamTvCode isLocal
  = Ok row ->
  Stats.field_goals_made row
  = js_add w (Stats.two_points_made row) (Stats.three_points_made row) /\
  Stats.field_goals_attempted row
  = js_add w (Stats.two_points_attempted row) (Stats.three_points_attempted row).
Proof.
  unfold Stats.transformPlayerStats. destruct (get entry "player"); simpl; [|discriminate].
  intros [= <-]. split; reflexivity.
Qed.

(** In the [/boxscore] version they are the sum when the upstream record
    carries both [fieldGoalsMade2] and [fieldGoalsMade3] as numbers. *)
Lemma boxscore_field_goals_sum_when_present w fields gameInfo teamInfo isLocal a b row :
  assoc "fieldGoalsMade2" fields = VNum a ->
  assoc "fieldGoalsMade3" fields = VNum b ->
  Boxscore.transformPlayerStats w (VObj fields) gameInfo teamInfo isLocal = Ok row ->
  Boxscore.two_points_made row = VNum a /\
  Boxscore.three_points_made row = VNum b /\
  Boxscore.field_goals_made row = VNum (num_add a b).
Proof.
  intros Ha Hb. unfold Boxscore.transformPlayerStats. simpl.
  intros [= <-]. simpl. rewrite Ha, Hb. repeat split; reflexivity.
Qed.

(** C4, at a record that omits the two per-split fields of the first
    position of the fallback chains.  The [/boxscore] version of
    [transformPlayerStats] fills the splits from [twoPointsMade] and
    [threePointsMade] (4 and 2) but the combined field is
    [undefined + undefined], that is [NaN], not 6: [+] binds tighter than
    [??], and [NaN] is not nullish, so the fallbacks written after it are
    never taken.  The same holds for the attempts. *)
Theorem field_goals_not_the_sum_of_fallback_splits :
  let player :=
    VObj [("personCode", VStr "P1");
          ("twoPointsMade", int 4); ("threePointsMade", int 2);
          ("twoPointsAttempted", int 9); ("threePointsAttempted", int 5);
          ("fieldGoalsMade", int 6); ("fieldGoalsAttempted", int 14)] in
  exists row,
    Boxscore.transformPlayerStats (world []) player (VObj []) (VObj []) true = Ok row /\
    Boxscore.two_points_made row = int 4 /\
    Boxscore.three_points_made row = int 2 /\
    Boxscore.field_goals_made row = VNum NaN /\
    Boxscore.field_goals_made row <> int 6 /\
    Boxscore.two_points_attempted row = int 9 /\
    Boxscore.three_points_attempted row = int 5 /\
    Boxscore.field_goals_attempted row = VNum NaN.
Proof.
  eexists. split; [reflexivity|]. simpl.
  repeat split; try reflexivity. discriminate.
Qed.

(** ** The eligible count (C6) *)

(** A game whose status is ["Played"] and that carries no [played] flag
    passes the filter that selects the boxscores to fetch and fails the one
    that is counted in the result. *)
Lemma played_status_splits_the_filters n :
  fetch_eligible (played_game n) = Ok true /\
  reported_eligible (played_game n) = Ok false.
Proof. split; reflexivity. Qed.

(** C6, at the game list [[{gameCode: 1, gameStatus: "Played"}]] with
    boxscores enabled.  Both versions of the handler fetch the boxscore of
    game 1 ([fetched] is 1) and report [eligible] as 0: the filter behind the
    reported number leaves out the status ["Played"]. *)
Theorem eligible_count_differs_from_fetched_set :
  let games := (games_url, json_reply 200 (VArr [played_game 1])) in
  let rb := Boxscore.handler
              (world [games; (boxscore_url "1", json_reply 200 (one_player_boxscore "P1"))])
              (GET []) in
  let rs := Stats.handler
              (world [games; (stats_url "1", json_reply 200 (VObj []))])
              (GET []) in
  filterM_res fetch_eligible [played_game 1] = Ok [played_game 1] /\
  status rb = 200 /\
  field (field (body rb) "boxscores") "fetched" = VNat 1 /\
  field (field (body rb) "boxscores") "eligible" = VNat 0 /\
  status rs = 200 /\
  field (field (body rs) "boxscores") "fetched" = VNat 1 /\
  field (field (body rs) "boxscores") "eligible" = VNat 0.
Proof. vm_compute. repeat split; reflexivity. Qed.

(** ** Minutes (C3) *)

Lemma is_digit_facts c :
  is_digit c = true ->
  is_ws c = false /\ Ascii.eqb c ":" = false /\ c <> "-"%char /\ c <> "+"%char
  /\ c <> "I"%char.
Proof.
  destruct c as [[] [] [] [] [] [] [] []]; intros H; try discriminate H;
    repeat split; try reflexivity; discriminate.
Qed.

Lemma read_digits_all_digits s acc :
  all_digits s = true ->
  read_digits acc s
  = (fold_left (fun a c => (10 * a + digit_val c)%Z) (list_ascii_of_string s) acc,
     String.length s, EmptyString).
Proof.
  revert acc. induction s as [|c r IH]; intros acc H; simpl in *; [reflexivity|].
  apply andb_prop in H as [Hc Hr]. rewrite Hc, (IH _ Hr). reflexivity.
Qed.

Lemma digit_head_facts c r :
  is_digit c = true ->
  skip_ws (String c r) = String c r /\
  read_sign (String c r) = (false, String c r) /\
  String.prefix "Infinity" (String c r) = false.
Proof.
  destruct c as [[] [] [] [] [] [] [] []]; intros H; try discriminate H;
    repeat split; reflexivity.
Qed.

Lemma parseFloat_digits s :
  all_digits s = true -> s <> "" ->
  parseFloat s = to_double (inject_Z (digits_value s)).
Proof.
  intros Hs Hne. destruct s as [|c r]; [congruence|].
  pose proof Hs as Hs'. simpl in Hs'. apply andb_prop in Hs' as [Hc Hr].
  destruct (digit_head_facts c r Hc) as (Hskip & Hsign & Hinf).
  unfold parseFloat.
  rewrite Hskip, Hsign, Hinf, (read_digits_all_digits _ 0%Z Hs).
  cbn [String.length Nat.add read_exponent].
  apply to_double_compat. unfold digits_value.
  change (10 ^ Z.of_nat 0)%Z with 1%Z. change (Qpower 10 0) with 1%Q.
  field.
Qed.

Lemma digits_value_nonneg s : (0 <= digits_value s)%Z.
Proof.
  unfold digits_value.
  assert (H : forall l acc, (0 <= acc)%Z ->
            (0 <= fold_left (fun a c => (10 * a + digit_val c)%Z) l acc)%Z).
  { induction l as [|c l IH]; intros acc Hacc; simpl; [exact Hacc|].
    apply IH. unfold digit_val. lia. }
  apply H. lia.
Qed.

(** A string of digits below [2^53] denotes a double. *)
Lemma to_double_digits s :
  (digits_value s < 2 ^ 53)%Z ->
  to_double (inject_Z (digits_value s)) = Fin (inject_Z (digits_value s)).
Proof.
  intros H. apply to_double_int. pose proof (digits_value_nonneg s). lia.
Qed.

Lemma split_no_sep sep s :
  (forall c, In c (list_ascii_of_string s) -> Ascii.eqb c sep = false) ->
  split sep s = [s].
Proof.
  induction s as [|c r IH]; intros H; simpl; [reflexivity|].
  rewrite (H c) by (simpl; auto).
  rewrite IH by (intros c' Hc'; apply H; simpl; auto). reflexivity.
Qed.

Lemma split_app_sep sep a b :
  (forall c, In c (list_ascii_of_string a) -> Ascii.eqb c sep = false) ->
  split sep (a +:+ String sep b) = a :: split sep b.
Proof.
  induction a as [|c r IH]; intros H; simpl.
  - now rewrite Ascii.eqb_refl.
  - rewrite (H c) by (simpl; auto).
    rewrite IH by (intros c' Hc'; apply H; simpl; auto). reflexivity.
Qed.

Lemma all_digits_no_colon s c :
  all_digits s = true -> In c (list_ascii_of_string s) -> Ascii.eqb c ":" = false.
Proof.
  induction s as [|d r IH]; simpl; [tauto|].
  intros H [<-|Hin]; apply andb_prop in H as [Hd Hr].
  - apply (is_digit_facts d Hd).
  - now apply IH.
Qed.

(** [parseMinutes] on a string of the form ["MM:SS"]. *)
Lemma parseMinutes_mm_ss mm ss :
  all_digits mm = true -> mm <> "" -> all_digits ss = true -> ss <> "" ->
  Boxscore.parseMinutes (VStr (mm +:+ ":" +:+ ss))
  = num_add (to_double (inject_Z (digits_value mm)))
      (num_div (to_double (inject_Z (digits_value ss))) (Fin 60)).
Proof.
  intros Hmm Hmm' Hss Hss'.
  pose proof (parseFloat_digits mm Hmm Hmm') as Hqm.
  pose proof (parseFloat_digits ss Hss Hss') as Hqs.
  unfold Boxscore.parseMinutes.
  assert (Htruthy : truthy (VStr (mm +:+ ":" +:+ ss)) = true).
  { destruct mm; [congruence|reflexivity]. }
  rewrite Htruthy. cbn [negb].
  change (mm +:+ ":" +:+ ss) with (mm +:+ String ":" ss).
  rewrite split_app_sep by (intros c; apply all_digits_no_colon; exact Hmm).
  rewrite split_no_sep by (intros c; apply all_digits_no_colon; exact Hss).
  now rewrite Hqm, Hqs.
Qed.

Lemma parseMinutes_not_a_string v :
  is_str v = false -> Boxscore.parseMinutes v = Fin 0.
Proof. destruct v; simpl; intros H; try reflexivity; discriminate. Qed.

(** C3, as the code has it.  In the [/boxscore] version the minutes value is
    [player.minutes || player.timePlayed]: when it is a string ["MM:SS"],
    [minutes_decimal] is [MM + SS / 60] as the arithmetic of doubles computes
    it, [MM] and [SS] being the doubles nearest to the two groups of digits
    (the groups themselves below [2^53]): the quotient is rounded, then the
    sum, so that ["25:30"] gives exactly 25.5 and ["10:20"] the double
    10.333333333333334, which is not 31/3.  For groups below [2^53] the
    result is a finite number within [2^-51], relatively, of the rational
    [MM + SS / 60].  When the value is anything but a
    string (a number such as 25.5 included), [minutes_decimal] is 0.  In the
    [/stats] version [minutes_decimal] is the number found in
    [stats.timePlayed], unchanged. *)
Theorem minutes_decimal_by_version (w : World) :
  (forall player gameInfo teamInfo isLocal mm ss row,
      all_digits mm = true -> mm <> "" -> all_digits ss = true -> ss <> "" ->
      js_or (field player "minutes") (field player "timePlayed")
      = VStr (mm +:+ ":" +:+ ss) ->
      Boxscore.transformPlayerStats w player gameInfo teamInfo isLocal = Ok row ->
      Boxscore.minutes_decimal row
      = VNum (num_add (to_double (inject_Z (digits_value mm)))
                (num_div (to_double (inject_Z (digits_value ss))) (Fin 60))) /\
      ((digits_value mm < 2 ^ 53)%Z -> (digits_value ss < 2 ^ 53)%Z ->
       Boxscore.minutes_decimal row
       = VNum (num_add (Fin (inject_Z (digits_value mm)))
                 (num_div (Fin (inject_Z (digits_value ss))) (Fin 60))) /\
       exists q,
         Boxscore.minutes_decimal row = VNum (Fin q) /\
         (Qabs (q - (inject_Z (digits_value mm) + inject_Z (digits_value ss) / 60))
          <= (inject_Z (digits_value mm) + inject_Z (digits_value ss) / 60)
             * 2 ^ (-51))%Q)) /\
  (forall player gameInfo teamInfo isLocal row,
      is_str (js_or (field player "minutes") (field player "timePlayed")) = false ->
      Boxscore.transformPlayerStats w player gameInfo teamInfo isLocal = Ok row ->
      Boxscore.minutes_decimal row = VNum (Fin 0)) /\
  (forall entry gameInfo teamCode teamName teamTvCode isLocal n row,
      field (js_or (field entry "stats") (VObj [])) "timePlayed" = VNum n ->
      Stats.transformPlayerStats w entry gameInfo teamCode teamName teamTvCode isLocal
      = Ok row ->
      Stats.minutes_decimal row = VNum n) /\
  Boxscore.parseMinutes (VStr "25:30") = Fin (51 # 2) /\
  Boxscore.parseMinutes (VStr "10:20")
  = Fin (5817149518686891 # 562949953421312) /\
  ~ (5817149518686891 # 562949953421312 == 31 # 3)%Q.
Proof.
  split; [|split; [|split; [|split; [|split]]]].
  - intros player gameInfo teamInfo isLocal mm ss row Hmm Hmm' Hss Hss' Hmin.
    unfold Boxscore.transformPlayerStats.
    destruct (get player "personCode"); cbn [mbind res_bind]; [|discriminate].
    intros [= <-]. cbn [Boxscore.minutes_decimal]. rewrite Hmin.
    rewrite (parseMinutes_mm_ss mm ss Hmm Hmm' Hss Hss').
    split; [reflexivity|]. intros Hm Hs.
    rewrite (to_double_digits mm Hm), (to_double_digits ss Hs).
    split; [reflexivity|].
    pose proof (digits_value_nonneg mm) as Hm0.
    pose proof (digits_value_nonneg ss) as Hs0.
    destruct (minutes_arithmetic_error (digits_value mm) (digits_value ss)
                ltac:(lia) ltac:(lia)) as (q & Hq & Hbound).
    exists q. split; [now rewrite Hq|exact Hbound].
  - intros player gameInfo teamInfo isLocal row Hns.
    unfold Boxscore.transformPlayerStats.
    destruct (get player "personCode"); simpl; [|discriminate].
    intros [= <-]. cbn [Boxscore.minutes_decimal].
    now rewrite (parseMinutes_not_a_string _ Hns).
  - intros entry gameInfo teamCode teamName teamTvCode isLocal n row Htp.
    unfold Stats.transformPlayerStats.
    destruct (get entry "player"); simpl; [|discriminate].
    intros [= <-]. cbn [Stats.minutes_decimal]. now rewrite Htp.
  - vm_compute. reflexivity.
  - vm_compute. reflexivity.
  - intros H. vm_compute in H. discriminate H.
Qed.

Lemma minutes_decimal_by_version_witness :
  let player := VObj [("personCode", VStr "P1"); ("minutes", VStr "25:30")] in
  exists row,
    Boxscore.transformPlayerStats (world []) player (VObj []) (VObj []) true = Ok row /\
    Boxscore.minutes_decimal row
    = VNum (num_add (Fin (inject_Z (digits_value "25")))
              (num_div (Fin (inject_Z (digits_value "30"))) (Fin 60))) /\
    num_add (Fin (inject_Z (digits_value "25")))
      (num_div (Fin (inject_Z (digits_value "30"))) (Fin 60)) = Fin (51 # 2).
Proof.
  intros player.
  destruct (Boxscore.transformPlayerStats (world []) player (VObj []) (VObj []) true)
    as [row|msg] eqn:Hrow; [|cbv in Hrow; discriminate Hrow].
  destruct (proj1 (minutes_decimal_by_version (world [])) player (VObj []) (VObj [])
              true "25" "30" row eq_refl ltac:(discriminate) eq_refl
              ltac:(discriminate) eq_refl Hrow) as (_ & Hexact).
  exists row. split; [reflexivity|].
  split; [apply Hexact; vm_compute; reflexivity|].
  vm_compute. reflexivity.
Defined.

(** C3, at decimal minutes.  A flat player record that supplies 25.5 in
    [timePlayed] (and no [minutes] string) is persisted by the [/boxscore]
    version with [minutes] 25.5 and [minutes_decimal] 0: [parseMinutes]
    returns 0 for anything that is not a string. *)
Lemma decimal_minutes_become_zero :
  let player := VObj [("personCode", VStr "P1"); ("timePlayed", VNum (Fin (51 # 2)))] in
  exists row,
    Boxscore.transformPlayerStats (world []) player (VObj []) (VObj []) true = Ok row /\
    Boxscore.minutes row = VNum (Fin (51 # 2)) /\
    Boxscore.minutes_decimal row = VNum (Fin 0) /\
    Boxscore.minutes_decimal row <> VNum (Fin (51 # 2)) /\
    Boxscore.parseMinutes (VNum (Fin (51 # 2))) = Fin 0.
Proof.
  eexists. split; [reflexivity|]. simpl.
  repeat split; try reflexivity. discriminate.
Qed.

(** ** Which entries become rows (C5) *)

Lemma get_Ok v k x : get v k = Ok x -> nullish v = false /\ x = field v k.
Proof.
  unfold get. destruct (nullish v); [discriminate|]. intros [= <-]. auto.
Qed.

Lemma get_not_nullish v k : nullish v = false -> get v k = Ok (field v k).
Proof. unfold get. now intros ->. Qed.

Lemma truthy_js_or a b : truthy (js_or a b) = truthy a || truthy b.
Proof. unfold js_or. destruct (truthy a) eqn:E; simpl; [exact E|reflexivity]. Qed.

Lemma boxscore_row_of_player w p gameInfo teamInfo isLocal row :
  Boxscore.transformPlayerStats w p gameInfo teamInfo isLocal = Ok row ->
  Boxscore.raw_data row = p /\
  Boxscore.is_local row = isLocal /\
  Boxscore.person_code row
  = js_or (js_or (field p "personCode") (field p "code")) VNull.
Proof.
  unfold Boxscore.transformPlayerStats.
  destruct (get p "personCode") as [x|] eqn:E; simpl; [|discriminate].
  apply get_Ok in E as [_ ->]. intros [= <-]. auto.
Qed.

Lemma boxscore_push_players_rows w gameInfo teamInfo isLocal entries :
  forall rows,
    Boxscore.push_players w gameInfo teamInfo isLocal entries = Ok rows ->
    map Boxscore.raw_data rows = List.filter has_person_code entries /\
    Forall (fun r => truthy (Boxscore.person_code r) = true) rows.
Proof.
  induction entries as [|p rest IH]; intros rows; simpl.
  - intros [= <-]. split; constructor.
  - destruct (get p "personCode") as [x|] eqn:E; simpl; [|discriminate].
    apply get_Ok in E as [_ ->].
    rewrite truthy_js_or. fold (has_person_code p).
    destruct (has_person_code p) eqn:Hp.
    + destruct (Boxscore.transformPlayerStats w p gameInfo teamInfo isLocal)
        as [row|] eqn:Hrow; simpl; [|discriminate].
      destruct (Boxscore.push_players w gameInfo teamInfo isLocal rest)
        as [rows'|] eqn:Hrest; simpl; [|discriminate].
      intros [= <-]. destruct (IH rows' eq_refl) as [IH1 IH2].
      apply boxscore_row_of_player in Hrow as (Hraw & _ & Hcode).
      split.
      * simpl. now rewrite Hraw, IH1.
      * constructor; [|exact IH2].
        rewrite Hcode, !truthy_js_or. fold (has_person_code p).
        rewrite Hp. reflexivity.
    + apply IH.
Qed.

Lemma opt_field v k : opt v k = field v k.
Proof. destruct v; reflexivity. Qed.

Lemma stats_keeps_spec entry :
  Stats.keeps (field entry "player")
  = truthy (entry_person_code entry) && negb (tagged_non_player entry).
Proof.
  unfold Stats.keeps, tagged_non_player, entry_type, entry_person_code.
  now rewrite !opt_field.
Qed.

(** A truthy [player.person.code] can only be read off objects. *)
Lemma truthy_person_code_inv player :
  truthy (opt (opt player "person") "code") = true ->
  js_or (field (js_or player (VObj [])) "person") (VObj []) = field player "person" /\
  opt (opt player "person") "code" = field (field player "person") "code".
Proof.
  rewrite !opt_field. intros H. split; [|reflexivity].
  destruct player as [| | | | | |fs]; try discriminate H.
  change (js_or (VObj fs) (VObj [])) with (VObj fs).
  destruct (field (VObj fs) "person") as [| | | | | |ps] eqn:E; try discriminate H.
  reflexivity.
Qed.

Lemma stats_row_of_entry w entry gameInfo teamCode teamName teamTvCode isLocal row :
  Stats.transformPlayerStats w entry gameInfo teamCode teamName teamTvCode isLocal
  = Ok row ->
  Stats.raw_data row = entry /\
  (truthy (entry_person_code entry) = true ->
   Stats.person_code row = entry_person_code entry).
Proof.
  unfold Stats.transformPlayerStats, entry_person_code.
  destruct (get entry "player") as [x|] eqn:E; simpl; [|discriminate].
  apply get_Ok in E as [_ ->]. intros [= <-]. split; [reflexivity|].
  intros H. cbn [Stats.person_code].
  destruct (truthy_person_code_inv _ H) as [-> ->].
  unfold js_or.
  destruct (truthy_person_code_inv _ H) as [_ <-]. now rewrite H.
Qed.

Lemma stats_push_entries_rows w gameInfo teamCode teamName teamTvCode isLocal entries :
  forall rows,
    Stats.push_entries w gameInfo teamCode teamName teamTvCode isLocal entries
    = Ok rows ->
    map Stats.raw_data rows
    = List.filter (fun e => truthy (entry_person_code e) && negb (tagged_non_player e))
        entries /\
    Forall (fun r => truthy (Stats.person_code r) = true) rows.
Proof.
  induction entries as [|e rest IH]; intros rows; simpl.
  - intros [= <-]. split; constructor.
  - destruct (get e "player") as [x|] eqn:E; simpl; [|discriminate].
    apply get_Ok in E as [_ ->]. rewrite stats_keeps_spec.
    destruct (truthy (entry_person_code e) && negb (tagged_non_player e)) eqn:Hk.
    + destruct (Stats.transformPlayerStats w e gameInfo teamCode teamName teamTvCode
                  isLocal) as [row|] eqn:Hrow; simpl; [|discriminate].
      destruct (Stats.push_entries w gameInfo teamCode teamName teamTvCode isLocal rest)
        as [rows'|] eqn:Hrest; simpl; [|discriminate].
      intros [= <-]. destruct (IH rows' eq_refl) as [IH1 IH2].
      apply andb_prop in Hk as [Hcode _].
      apply stats_row_of_entry in Hrow as (Hraw & Hpc).
      split.
      * simpl. now rewrite Hraw, IH1.
      * constructor; [|exact IH2]. now rewrite (Hpc Hcode).
    + apply IH.
Qed.

(** C5, as the code has it.  In both versions the rows produced from a
    response are, in order, exactly one row per entry that passes the
    version's test, and every row has a truthy person code: an entry that
    lacks a person code yields no row.  The test of the [/boxscore] version
    is the person code alone ([personCode] or [code]); the test of the
    [/stats] version also rejects every entry whose [player.type] is set to
    something other than ["J"] (a coach), and lets through the entries that
    carry no type. *)
Theorem rows_only_for_entries_with_person_code (w : World) :
  (forall boxscore gameCode seasonCode competition round gameDate rows,
      Boxscore.extractPlayers w boxscore gameCode seasonCode competition round gameDate
      = Ok rows ->
      let data := js_or (opt boxscore "stats") boxscore in
      exists localEntries roadEntries,
        iterate (Boxscore.side_players data "local") = Ok localEntries /\
        iterate (Boxscore.side_players data "road") = Ok roadEntries /\
        map Boxscore.raw_data rows
        = List.filter has_person_code (localEntries ++ roadEntries)%list /\
        Forall (fun r => truthy (Boxscore.person_code r) = true) rows /\
        (forall e, has_person_code e = false -> ~ In e (map Boxscore.raw_data rows))) /\
  (forall statsData gameCode seasonCode competition round gameDate rows,
      Stats.extractPlayers w statsData gameCode seasonCode competition round gameDate
      = Ok rows ->
      exists localEntries roadEntries,
        stats_entries statsData "local" = Ok localEntries /\
        stats_entries statsData "road" = Ok roadEntries /\
        map Stats.raw_data rows
        = List.filter
            (fun e => truthy (entry_person_code e) && negb (tagged_non_player e))
            (localEntries ++ roadEntries)%list /\
        Forall (fun r => truthy (Stats.person_code r) = true) rows /\
        (forall e, truthy (entry_person_code e) = false ->
                   ~ In e (map Stats.raw_data rows)) /\
        (forall e, tagged_non_player e = true -> ~ In e (map Stats.raw_data rows))).
Proof.
  split.
  - intros boxscore gameCode seasonCode competition round gameDate rows.
    unfold Boxscore.extractPlayers. cbv zeta.
    set (data := js_or (opt boxscore "stats") boxscore).
    destruct (iterate (Boxscore.side_players data "local")) as [L|] eqn:HL;
      simpl; [|discriminate].
    match goal with |- context [Boxscore.push_players ?a ?b ?c ?d L] =>
      destruct (Boxscore.push_players a b c d L) as [lrows|] eqn:Hl end;
      simpl; [|discriminate].
    destruct (iterate (Boxscore.side_players data "road")) as [R|] eqn:HR;
      simpl; [|discriminate].
    match goal with |- context [Boxscore.push_players ?a ?b ?c ?d R] =>
      destruct (Boxscore.push_players a b c d R) as [rrows|] eqn:Hr end;
      simpl; [|discriminate].
    intros [= <-]. exists L, R.
    apply boxscore_push_players_rows in Hl as [Hl1 Hl2].
    apply boxscore_push_players_rows in Hr as [Hr1 Hr2].
    assert (Hmap : map Boxscore.raw_data (lrows ++ rrows)
                   = List.filter has_person_code (L ++ R)).
    { now rewrite List.map_app, List.filter_app, Hl1, Hr1. }
    repeat split; auto.
    + apply Forall_app; auto.
    + intros e He Hin. rewrite Hmap in Hin.
      apply List.filter_In in Hin as [_ Hin]. congruence.
  - intros statsData gameCode seasonCode competition round gameDate rows.
    unfold Stats.extractPlayers, stats_entries. cbv zeta.
    assert (Hside : forall side gi lrows,
      Stats.side_rows w statsData gi side = Ok lrows ->
      exists L,
        (if truthy (opt (opt statsData side) "players")
         then iterate (field (opt statsData side) "players") else Ok []) = Ok L /\
        map Stats.raw_data lrows
        = List.filter
            (fun e => truthy (entry_person_code e) && negb (tagged_non_player e)) L /\
        Forall (fun r => truthy (Stats.person_code r) = true) lrows).
    { intros side gi lrows. unfold Stats.side_rows. cbv zeta.
      destruct (truthy (opt (opt statsData side) "players")); simpl.
      - destruct (iterate (field (opt statsData side) "players")) as [L|];
          simpl; [|discriminate].
        intros H. apply stats_push_entries_rows in H. eauto.
      - intros [= <-]. exists []. repeat split; constructor. }
    match goal with |- context [mbind _ ?m] =>
      destruct m as [lrows|] eqn:Hl end; simpl; [|discriminate].
    match goal with |- context [mbind _ ?m] =>
      destruct m as [rrows|] eqn:Hr end; simpl; [|discriminate].
    intros [= <-].
    apply Hside in Hl as (L & HL & Hl1 & Hl2).
    apply Hside in Hr as (R & HR & Hr1 & Hr2).
    exists L, R.
    assert (Hmap : map Stats.raw_data (lrows ++ rrows)
                   = List.filter
                       (fun e => truthy (entry_person_code e) && negb (tagged_non_player e))
                       (L ++ R)).
    { now rewrite List.map_app, List.filter_app, Hl1, Hr1. }
    repeat split; auto.
    + apply Forall_app; auto.
    + intros e He Hin. rewrite Hmap in Hin.
      apply List.filter_In in Hin as [_ Hin]. rewrite He in Hin. discriminate.
    + intros e He Hin. rewrite Hmap in Hin.
      apply List.filter_In in Hin as [_ Hin]. rewrite He in Hin.
      rewrite andb_false_r in Hin. discriminate.
Qed.

Lemma rows_only_for_entries_with_person_code_witness :
  let statsData :=
    VObj [("local", VObj [("players",
             VArr [stats_entry "P1" "J"; stats_entry "C1" "C"; stats_entry "" "J"])])] in
  exists rows,
    Stats.extractPlayers (world []) statsData (int 1) "E2025" "E" VNull VNull = Ok rows /\
    ~ In (stats_entry "C1" "C") (map Stats.raw_data rows) /\
    ~ In (stats_entry "" "J") (map Stats.raw_data rows).
Proof.
  intros statsData.
  destruct (Stats.extractPlayers (world []) statsData (int 1) "E2025" "E" VNull VNull)
    as [rows|msg] eqn:Hrows; [|cbv in Hrows; discriminate Hrows].
  destruct (proj2 (rows_only_for_entries_with_person_code (world []))
              statsData (int 1) "E2025" "E" VNull VNull rows Hrows)
    as (L & R & _ & _ & _ & _ & Hcode & Htype).
  exists rows. split; [reflexivity|]. split.
  - apply Htype. reflexivity.
  - apply Hcode. reflexivity.
Defined.

(** C5, at an entry tagged as a coach.  The [/boxscore] version never looks
    at a type tag: a flat entry that carries a person code and the tag
    [type: "C"] yields a row. *)
Lemma boxscore_version_keeps_coach_entry :
  let coach := VObj [("personCode", VStr "C1"); ("name", VStr "COACH, A"); ("type", VStr "C")] in
  let boxscore := VObj [("local", VObj [("players", VArr [coach])])] in
  exists row,
    Boxscore.extractPlayers (world []) boxscore (int 1) "E2025" "E" VNull VNull = Ok [row] /\
    Boxscore.raw_data row = coach /\
    Boxscore.person_code row = VStr "C1" /\
    field (Boxscore.raw_data row) "type" = VStr "C".
Proof.
  eexists. split; [reflexivity|]. repeat split; reflexivity.
Qed.

(** ** The shape of the answers (C2, C7) *)

Ltac step_bind :=
  match goal with
  | |- (mbind _ ?m = _) -> _ => destruct m eqn:?; simpl; [|discriminate]
  | |- ((let '(_, _) := ?m in _) = _) -> _ => destruct m eqn:?; simpl
  end.

(** What the [try] block of the [/boxscore] version can return. *)
Lemma boxscore_sync_answers w req r :
  Boxscore.sync w req = Ok r ->
  r = errorResponse w "Unexpected API response format" 500 \/
  exists seasonCode code gamesList gamesResult boxscores,
    r = jsonResponse
          (Boxscore.result_object w seasonCode code gamesList gamesResult boxscores)
          200.
Proof.
  unfold Boxscore.sync. cbv zeta.
  do 3 step_bind.
  match goal with |- context [match ?o with Some _ => _ | None => _ end = _] =>
    destruct o as [fetchedList|] end.
  - do 3 step_bind.
    destruct (doBoxscores _).
    + do 2 step_bind. intros [= <-]. right. eauto 10.
    + intros [= <-]. right. eauto 10.
  - intros [= <-]. now left.
Qed.

Lemma stats_sync_answers w req r :
  Stats.sync w req = Ok r ->
  r = errorResponse w "Unexpected API response format" 500 \/
  exists seasonCode code gamesList gamesResult boxscores,
    r = jsonResponse
          (Stats.result_object w seasonCode code gamesList gamesResult boxscores)
          200.
Proof.
  unfold Stats.sync. cbv zeta.
  do 3 step_bind.
  match goal with |- context [match ?o with Some _ => _ | None => _ end = _] =>
    destruct o as [fetchedList|] end.
  - do 3 step_bind.
    destruct (doBoxscores _).
    + do 2 step_bind. intros [= <-]. right. eauto 10.
    + intros [= <-]. right. eauto 10.
  - intros [= <-]. now left.
Qed.

Lemma stats_errors_field_spec errs : Stats.errors_field errs = first_five errs.
Proof. destruct errs; reflexivity. Qed.

Lemma boxscore_errors_field_spec errs : Boxscore.errors_field errs = all_of errs.
Proof. destruct errs; reflexivity. Qed.

Lemma first_five_length errs l : first_five errs = VArr l -> (length l <= 5)%nat.
Proof.
  destruct errs as [|e errs]; [discriminate|]. unfold first_five.
  generalize (e :: errs). intros errs' [= <-].
  rewrite List.length_map. apply List.firstn_le_length.
Qed.

(** C7, as the code has it.  In the [/stats] version every list of error
    strings of a 200 answer (the top-level [errors] of the games stage and
    [boxscores.errors]) has at most five entries, namely the first five that
    were recorded; the field is absent when nothing was recorded.  In the
    [/boxscore] version the two lists ([games.errors] and
    [boxscores.errors]) are reported in full. *)
Theorem error_lists_by_version (w : World) :
  (forall req,
      status (Stats.handler w req) = 200 ->
      (forall l, field (body (Stats.handler w req)) "errors" = VArr l ->
                 (length l <= 5)%nat) /\
      (forall l, field (field (body (Stats.handler w req)) "boxscores") "errors" = VArr l ->
                 (length l <= 5)%nat)) /\
  (forall seasonCode code gamesList gamesResult eligible boxscoreStats,
      let o := Stats.result_object w seasonCode code gamesList gamesResult
                 (Some (eligible, boxscoreStats)) in
      field o "errors" = first_five (default [] (errors gamesResult)) /\
      field (field o "boxscores") "errors"
      = first_five (Stats.bs_errors boxscoreStats)) /\
  (forall seasonCode code gamesList gamesResult eligible boxscoreStats,
      let o := Boxscore.result_object w seasonCode code gamesList gamesResult
                 (Some (eligible, boxscoreStats)) in
      field (field o "games") "errors" = all_of (default [] (errors gamesResult)) /\
      field (field o "boxscores") "errors"
      = all_of (Boxscore.bs_errors boxscoreStats)).
Proof.
  split; [|split].
  - intros req. unfold Stats.handler.
    destruct (handleCors req) as [cors|] eqn:Hcors.
    { unfold handleCors in Hcors. destruct (String.eqb _ _); [|discriminate].
      injection Hcors as <-. discriminate. }
    destruct (Stats.sync w req) as [r|msg] eqn:Hsync; [|discriminate].
    apply stats_sync_answers in Hsync
      as [->|(sc & code & gl & gr & bx & ->)]; [discriminate|].
    intros _. cbn [body jsonResponse]. split; intros l.
    + cbn. destruct (errors gr) as [errs|]; [|discriminate].
      rewrite stats_errors_field_spec. apply first_five_length.
    + cbn. destruct bx as [[eligible bs]|]; [|discriminate].
      cbn. rewrite stats_errors_field_spec. apply first_five_length.
  - intros sc code gl gr eligible bs o. unfold o. split.
    + destruct (errors gr) as [errs|] eqn:E; cbn; rewrite E; [|reflexivity].
      apply stats_errors_field_spec.
    + apply stats_errors_field_spec.
  - intros sc code gl gr eligible bs o. unfold o. split.
    + destruct (errors gr) as [errs|] eqn:E; cbn; rewrite E; [|reflexivity].
      apply boxscore_errors_field_spec.
    + apply boxscore_errors_field_spec.
Qed.

Lemma error_lists_by_version_witness :
  status (Stats.handler six_failures (GET [])) = 200 /\
  exists l,
    field (field (body (Stats.handler six_failures (GET []))) "boxscores") "errors"
    = VArr l /\ (length l <= 5)%nat.
Proof.
  split; [reflexivity|].
  eexists. split; [reflexivity|].
  apply (proj2 (proj1 (error_lists_by_version six_failures) (GET []) eq_refl)).
  reflexivity.
Defined.

(** C7, at six failed boxscore fetches.  The [/boxscore] version answers
    with all six entries in [boxscores.errors]. *)
Lemma boxscore_version_reports_six_errors :
  status (Boxscore.handler six_failures (GET [])) = 200 /\
  exists l,
    field (field (body (Boxscore.handler six_failures (GET []))) "boxscores") "errors"
    = VArr l /\ length l = 6%nat /\ ~ (length l <= 5)%nat.
Proof.
  split; [reflexivity|].
  eexists. split; [vm_compute; reflexivity|]. split; [reflexivity|].
  simpl. lia.
Qed.

(** ** The games filter (C8) *)

Lemma filterM_res_pure {A} (p : A -> res bool) (q : A -> bool) l :
  (forall x, In x l -> p x = Ok (q x)) ->
  filterM_res p l = Ok (List.filter q l).
Proof.
  induction l as [|x l IH]; intros H; simpl; [reflexivity|].
  rewrite (H x) by (simpl; auto). simpl.
  rewrite IH by (intros y Hy; apply H; simpl; auto). simpl.
  destruct (q x); reflexivity.
Qed.

Lemma filterM_res_ext {A} (p q : A -> res bool) l :
  (forall x, In x l -> p x = q x) -> filterM_res p l = filterM_res q l.
Proof.
  induction l as [|x l IH]; intros H; simpl; [reflexivity|].
  rewrite (H x) by (simpl; auto).
  rewrite IH by (intros y Hy; apply H; simpl; auto). reflexivity.
Qed.

Lemma split_not_nil sep s : split sep s <> [].
Proof.
  destruct s as [|c r]; simpl; [discriminate|].
  destruct (Ascii.eqb c sep); [discriminate|].
  destruct (split sep r); discriminate.
Qed.

Lemma split_app sep a b :
  split sep (a +:+ String sep b) = (split sep a ++ split sep b)%list.
Proof.
  induction a as [|c r IH]; simpl.
  - now rewrite Ascii.eqb_refl.
  - destruct (Ascii.eqb c sep); [now rewrite IH|].
    rewrite IH. destruct (split sep r) as [|h t] eqn:E; [|reflexivity].
    now apply split_not_nil in E.
Qed.

Lemma filterSet_app f extra :
  filterSet (f +:+ "," +:+ extra) = (filterSet f ++ filterSet extra)%list.
Proof.
  unfold filterSet. change (f +:+ "," +:+ extra) with (f +:+ String "," extra).
  now rewrite split_app, List.map_app.
Qed.

Lemma set_has_spec s v :
  set_has s v = true <-> exists n, In n s /\ same_as_num v n = true.
Proof. unfold set_has. apply List.existsb_exists. Qed.

Lemma append_not_empty a b : a <> "" -> a +:+ b <> "".
Proof. destruct a; [congruence|discriminate]. Qed.



(** ** The fan-out (C1) *)

Lemma concat_chunks_fuel {A} (n fuel : nat) (l : list A) :
  (0 < n)%nat -> (length l <= fuel)%nat ->
  concat (chunks_fuel fuel n l) = l.
Proof.
  intros Hn. revert l. induction fuel as [|fuel IH]; intros l Hl.
  - destruct l; [reflexivity|simpl in Hl; lia].
  - destruct l as [|x l]; [reflexivity|].
    cbn [chunks_fuel concat]. rewrite IH.
    + apply take_drop.
    + rewrite length_drop. simpl in *. lia.
Qed.

Lemma concat_chunks {A} (n : nat) (l : list A) :
  (0 < n)%nat -> concat (chunks n l) = l.
Proof. intros Hn. apply concat_chunks_fuel; [exact Hn|lia]. Qed.

Section FanoutFacts.

Context {R : Type}.
Variable w : World.
Variable endpoint : string.
Variable extractPlayers :
  value -> value -> string -> string -> value -> value -> res (list R).
Variables code seasonCode : string.

Local Abbreviation fetch_one' := (fetch_one w endpoint code seasonCode).
Local Abbreviation collect' := (collect w extractPlayers code seasonCode).
Local Abbreviation collect_all' := (collect_all w extractPlayers code seasonCode).
Local Abbreviation run_batches' := (run_batches w endpoint extractPlayers code seasonCode).
Local Abbreviation boxscore_of' := (boxscore_of w endpoint code seasonCode).
Local Abbreviation game_error' := (game_error w endpoint code seasonCode).
Local Abbreviation game_rows' := (game_rows w endpoint extractPlayers code seasonCode).
Local Abbreviation rows_of' := (rows_of w endpoint extractPlayers code seasonCode).
Local Abbreviation fetch_succeeds' := (fetch_succeeds w endpoint code seasonCode).

(** The callback never rejects on a game object: it resolves to the boxscore
    or to the message of the failure. *)
Lemma fetch_one_resolves g :
  nullish g = false ->
  fetch_one' g
  = Ok match boxscore_of' g with
       | Ok bs => {| r_gameCode := field g "gameCode"; r_boxscore := bs;
                     r_game := g; r_error := VUndefined |}
       | Throw message =>
           {| r_gameCode := field g "gameCode"; r_boxscore := VUndefined;
              r_game := VUndefined; r_error := VStr message |}
       end.
Proof.
  intros Hg. unfold fetch_one, boxscore_of.
  rewrite (get_not_nullish g "gameCode" Hg). simpl.
  destruct (euroFetch w _); reflexivity.
Qed.

Lemma collect_one st g rows :
  nullish g = false ->
  (forall message, boxscore_of' g = Throw message -> message <> "") ->
  game_rows' g = Ok rows ->
  collect' st (fetch_one' g)
  = Ok {| fetched := fetched st + (if fetch_succeeds' g then 1 else 0);
          fan_errors := fan_errors st ++ game_error' g;
          allPlayerRows := allPlayerRows st ++ rows |}.
Proof.
  intros Hg Hmsg Hrows. rewrite (fetch_one_resolves g Hg).
  unfold game_rows, game_error, fetch_succeeds in *.
  destruct (boxscore_of' g) as [bs|message] eqn:Hfetch.
  - cbn. rewrite (get_not_nullish g "round" Hg). cbn. rewrite Hrows. cbn.
    rewrite app_nil_r. do 2 f_equal. lia.
  - assert (Hne : message <> "") by (apply Hmsg; reflexivity).
    apply String.eqb_neq in Hne. cbn. rewrite Hne. cbn.
    injection Hrows as <-. rewrite app_nil_r. do 2 f_equal. lia.
Qed.

Lemma collect_all_games st gs :
  Forall (fun g => nullish g = false) gs ->
  (forall g message, In g gs -> boxscore_of' g = Throw message -> message <> "") ->
  (forall g, In g gs -> exists rows, game_rows' g = Ok rows) ->
  collect_all' st (map fetch_one' gs)
  = Ok {| fetched := fetched st + length (List.filter fetch_succeeds' gs);
          fan_errors := fan_errors st ++ flat_map game_error' gs;
          allPlayerRows := allPlayerRows st ++ concat (map rows_of' gs) |}.
Proof.
  revert st. induction gs as [|g gs IH]; intros st Hobj Hmsg Hrows.
  - cbn. rewrite !app_nil_r, Nat.add_0_r. now destruct st.
  - apply Forall_cons in Hobj as [Hg Hobj].
    destruct (Hrows g (or_introl eq_refl)) as [rows Hg_rows].
    cbn [map collect_all].
    rewrite (collect_one st g rows Hg (fun m => Hmsg g m (or_introl eq_refl)) Hg_rows).
    cbn [mbind res_bind].
    rewrite IH; [|exact Hobj|intros; eapply Hmsg; [right|]; eauto
                 |intros; apply Hrows; now right].
    cbn [fetched fan_errors allPlayerRows flat_map List.filter concat].
    unfold rows_of at 2. rewrite Hg_rows.
    rewrite <- !app_assoc. f_equal. f_equal.
    destruct (fetch_succeeds' g); simpl; lia.
Qed.

Lemma collect_all_app st l1 l2 :
  collect_all' st (l1 ++ l2) = st' ← collect_all' st l1; collect_all' st' l2.
Proof.
  revert st. induction l1 as [|r l1 IH]; intros st; simpl; [reflexivity|].
  destruct (collect' st r); simpl; [apply IH|reflexivity].
Qed.

(** Batching does not change what is collected. *)
Lemma run_batches_flat st batches :
  run_batches' st batches = collect_all' st (map fetch_one' (concat batches)).
Proof.
  revert st. induction batches as [|b batches IH]; intros st; simpl; [reflexivity|].
  rewrite List.map_app, collect_all_app.
  destruct (collect_all' st (map fetch_one' b)); simpl; [apply IH|reflexivity].
Qed.

Lemma fanout_games gs :
  Forall (fun g => nullish g = false) gs ->
  (forall g message, In g gs -> boxscore_of' g = Throw message -> message <> "") ->
  (forall g, In g gs -> exists rows, game_rows' g = Ok rows) ->
  fanout w endpoint extractPlayers code seasonCode gs
  = Ok {| fetched := length (List.filter fetch_succeeds' gs);
          fan_errors := flat_map game_error' gs;
          allPlayerRows := concat (map rows_of' gs) |}.
Proof.
  intros Hobj Hmsg Hrows. unfold fanout.
  rewrite run_batches_flat, concat_chunks by (unfold concurrency; lia).
  now rewrite collect_all_games.
Qed.

End FanoutFacts.

Lemma filterM_res_In {A} (p : A -> res bool) l l' :
  filterM_res p l = Ok l' -> forall x, In x l' -> In x l /\ p x = Ok true.
Proof.
  revert l'. induction l as [|y l IH]; intros l'; simpl.
  - intros [= <-] x [].
  - destruct (p y) as [b|] eqn:Hy; simpl; [|discriminate].
    destruct (filterM_res p l) as [ys|]; simpl; [|discriminate].
    intros [= <-] x Hx. destruct b.
    + destruct Hx as [<-|Hx]; [auto|]. destruct (IH ys eq_refl x Hx). auto.
    + destruct (IH ys eq_refl x Hx). auto.
Qed.

Lemma fetch_eligible_games gamesList eligible :
  filterM_res fetch_eligible gamesList = Ok eligible ->
  Forall (fun g => nullish g = false) eligible.
Proof.
  intros H. apply Forall_forall. intros g Hg.
  apply list_elem_of_In in Hg.
  destruct (filterM_res_In _ _ _ H g Hg) as [_ Hp].
  unfold fetch_eligible in Hp.
  destruct (get g "played") eqn:E; [|discriminate]. now apply get_Ok in E.
Qed.

(** The batches of [supabaseUpsert] when every call to the store resolves:
    nothing is thrown, errors are only appended, and when every reply is a
    success all rows are counted and no error is recorded. *)
Lemma upsert_batches_resolved {A} `{Row A} w url table (batches : list (list A)) :
  (forall n payload, exists r, http_post w url n payload = Ok r) ->
  forall i total errs,
  exists total' errs',
    upsert_batches w url table i batches total errs = Ok (total', errs ++ errs')%list /\
    ((forall n payload r, http_post w url n payload = Ok r -> reply_ok r = true) ->
     total' = (total + length (concat batches))%nat /\ errs' = []).
Proof.
  intros Hres. induction batches as [|b batches IH]; intros i total errs; simpl.
  - exists total, []. rewrite app_nil_r. split; [reflexivity|]. intros _. split; [lia|reflexivity].
  - destruct (Hres (S i) (map row_json b)) as [r Hr]. rewrite Hr. simpl.
    destruct (reply_ok r) eqn:Hok.
    + destruct (IH (S i) (total + length b)%nat errs) as (t' & e' & Hrun & Hall).
      exists t', e'. split; [exact Hrun|].
      intros Hoks. destruct (Hall Hoks) as [-> ->].
      rewrite length_app. split; [lia|reflexivity].
    + match goal with |- context [upsert_batches _ _ _ _ _ _ (errs ++ [?m])%list] =>
        destruct (IH (S i) total (errs ++ [m])%list) as (t' & e' & Hrun & Hall);
        exists t', (m :: e') end.
      split; [rewrite Hrun; now rewrite <- app_assoc|].
      intros Hoks. rewrite (Hoks _ _ _ Hr) in Hok. discriminate.
Qed.

Lemma boxscore_upsert_resolved {A} `{Row A} w table (rows : list A) serviceKey :
  (forall n payload, exists r,
      http_post w (SUPABASE_URL +:+ "/rest/v1/" +:+ table) n payload = Ok r) ->
  exists result,
    Boxscore.supabaseUpsert w table rows serviceKey = Ok result /\
    (rows <> [] -> exists errs, errors result = Some errs) /\
    ((forall n payload r,
         http_post w (SUPABASE_URL +:+ "/rest/v1/" +:+ table) n payload = Ok r ->
         reply_ok r = true) ->
     count result = length rows /\ default [] (errors result) = []).
Proof.
  intros Hres. unfold Boxscore.supabaseUpsert.
  destruct rows as [|x rows]; cbn [length Nat.eqb].
  - eexists. split; [reflexivity|]. split; [congruence|]. intros _. split; reflexivity.
  - destruct (upsert_batches_resolved w _ table (chunks 50 (x :: rows)) Hres 0 0 [])
      as (t' & e' & Hrun & Hall).
    rewrite Hrun. cbn.
    eexists. split; [reflexivity|]. split; [eauto|].
    intros Hoks. destruct (Hall Hoks) as [-> ->].
    rewrite concat_chunks by lia. split; reflexivity.
Qed.

(** The message [euroFetch] builds for an error status is never empty. *)
Lemma euroFetch_status_message w path r message :
  http_get w (EURO_API +:+ path) = Ok r ->
  reply_ok r = false ->
  euroFetch w path = Throw message ->
  message = "EuroLeague API returned " +:+ string_of_nat (reply_status r)
            +:+ " for " +:+ path
  /\ message <> "".
Proof.
  intros Hget Hok. unfold euroFetch. rewrite Hget. cbn [mbind res_bind].
  rewrite Hok. cbn [negb]. intros [= <-]. split; [reflexivity|discriminate].
Qed.

Lemma chunks_fuel_map {A B} (f : A -> B) (n fuel : nat) (l : list A) :
  chunks_fuel fuel n (map f l) = map (map f) (chunks_fuel fuel n l).
Proof.
  revert l. induction fuel as [|fuel IH]; intros l; [reflexivity|].
  destruct l as [|x l]; [reflexivity|].
  cbn [chunks_fuel map]. change (f x :: map f l) with (map f (x :: l)).
  now rewrite List.firstn_map, List.skipn_map, IH.
Qed.

Lemma chunks_map {A B} (f : A -> B) (n : nat) (l : list A) :
  chunks n (map f l) = map (map f) (chunks n l).
Proof. unfold chunks. rewrite List.length_map. apply chunks_fuel_map. Qed.

(** What the loop of [supabaseUpsert] sends and adds up when every call to
    the store resolves. *)
Lemma upsert_batches_posts {A} `{Row A} w url table (batches : list (list A)) :
  (forall n payload, exists r, http_post w url n payload = Ok r) ->
  forall i total errs,
    upsert_batches w url table i batches total errs
    = Ok ((total + rows_accepted w url i (map (map row_json) batches))%nat,
          errs ++ batches_refused w url table i (map (map row_json) batches)).
Proof.
  intros Hres. induction batches as [|b batches IH]; intros i total errs.
  - cbn. now rewrite Nat.add_0_r, app_nil_r.
  - cbn [upsert_batches map rows_accepted batches_refused].
    destruct (Hres (S i) (map row_json b)) as [r Hr]. rewrite Hr.
    cbn [mbind res_bind]. rewrite List.length_map.
    destruct (reply_ok r); rewrite IH.
    + cbn [app]. do 2 f_equal. lia.
    + now rewrite <- app_assoc.
Qed.

Lemma boxscore_upsert_posts {A} `{Row A} w table (rows : list A) serviceKey :
  (forall n payload, exists r,
      http_post w (SUPABASE_URL +:+ "/rest/v1/" +:+ table) n payload = Ok r) ->
  rows <> [] ->
  Boxscore.supabaseUpsert w table rows serviceKey
  = Ok {| ok := (length (batches_refused w (SUPABASE_URL +:+ "/rest/v1/" +:+ table)
                           table 0 (chunks 50 (map row_json rows))) =? 0)%nat;
          count := rows_accepted w (SUPABASE_URL +:+ "/rest/v1/" +:+ table) 0
                     (chunks 50 (map row_json rows));
          errors := Some (batches_refused w (SUPABASE_URL +:+ "/rest/v1/" +:+ table)
                            table 0 (chunks 50 (map row_json rows))) |}.
Proof.
  intros Hres Hne. unfold Boxscore.supabaseUpsert.
  destruct rows as [|x rows]; [congruence|]. cbn [length Nat.eqb].
  rewrite (upsert_batches_posts w _ table (chunks 50 (x :: rows)) Hres 0 0 []).
  cbn [mbind res_bind app Nat.add]. now rewrite chunks_map.
Qed.

Lemma rows_accepted_all w url batches :
  (forall n payload r, http_post w url n payload = Ok r -> reply_ok r = true) ->
  (forall n payload, exists r, http_post w url n payload = Ok r) ->
  forall i,
    rows_accepted w url i batches = length (concat batches) /\
    forall table, batches_refused w url table i batches = [].
Proof.
  intros Hok Hres. induction batches as [|b batches IH]; intros i.
  - split; reflexivity.
  - cbn [rows_accepted batches_refused concat].
    destruct (Hres (S i) b) as [r Hr]. rewrite Hr, (Hok _ _ _ Hr).
    destruct (IH (S i)) as [-> Hnone]. rewrite length_app.
    split; [reflexivity|]. intros table. now rewrite Hnone.
Qed.




(** ** When the handler answers 200 (C2) *)

Lemma filterM_res_resolved {A} (p : A -> res bool) l :
  (forall x, In x l -> exists b, p x = Ok b) ->
  exists l', filterM_res p l = Ok l' /\ forall x, In x l' -> In x l.
Proof.
  induction l as [|x l IH]; intros H; simpl.
  - exists []. auto.
  - destruct (H x (or_introl eq_refl)) as [b ->].
    destruct IH as (l' & -> & Hsub); [intros y Hy; apply H; now right|].
    simpl. destruct b; eexists; (split; [reflexivity|]).
    + intros y [<-|Hy]; [now left|right; auto].
    + intros y Hy. right. auto.
Qed.

Lemma apply_filter_resolved gamesFilter gamesList :
  Forall (fun g => nullish g = false) gamesList ->
  exists kept,
    apply_filter gamesFilter gamesList = Ok kept /\
    forall g, In g kept -> In g gamesList.
Proof.
  intros Hobj. rewrite Forall_forall in Hobj.
  unfold apply_filter. destruct gamesFilter as [f|]; [|eauto].
  destruct (negb (String.eqb f "")); [|eauto].
  apply filterM_res_resolved. intros g Hg.
  rewrite get_not_nullish by (apply Hobj, list_elem_of_In, Hg). simpl. eauto.
Qed.

Lemma transformGame_resolved w seasonCode competition gamesList :
  (forall g, In g gamesList -> nullish g = false) ->
  exists rows,
    mapM_res (fun g => transformGame w g seasonCode competition) gamesList = Ok rows.
Proof.
  induction gamesList as [|g gl IH]; intros Hobj; cbn [mapM_res]; [eauto|].
  assert (Hg : exists row, transformGame w g seasonCode competition = Ok row).
  { unfold transformGame. rewrite get_not_nullish by (apply Hobj; now left).
    cbn [mbind res_bind]. eauto. }
  destruct Hg as [row ->]. cbn [mbind res_bind].
  destruct IH as [rows ->]; [intros; apply Hobj; now right|].
  cbn [mbind res_bind]. eauto.
Qed.

Lemma eligibility_filters_resolved gamesList :
  (forall g, In g gamesList -> nullish g = false) ->
  (exists eligible,
      filterM_res fetch_eligible gamesList = Ok eligible /\
      forall g, In g eligible -> In g gamesList) /\
  (exists reported, filterM_res reported_eligible gamesList = Ok reported).
Proof.
  intros Hobj. split.
  - apply filterM_res_resolved. intros g Hg. unfold fetch_eligible.
    rewrite get_not_nullish by auto. simpl. eauto.
  - destruct (filterM_res_resolved reported_eligible gamesList) as (l & Hl & _); [|eauto].
    intros g Hg. unfold reported_eligible.
    rewrite get_not_nullish by auto. simpl. eauto.
Qed.

(** Steps 3 and 4 return normally whatever the fetches and the store answer. *)
Lemma boxscore_stage_returns w code seasonCode serviceKey gamesList :
  (forall g, In g gamesList -> nullish g = false) ->
  failures_carry_message w "/boxscore" code seasonCode gamesList ->
  boxscores_readable w "/boxscore" (Boxscore.extractPlayers w) code seasonCode gamesList ->
  store_resolves w ->
  exists stats, Boxscore.boxscore_stage w code seasonCode serviceKey gamesList = Ok stats.
Proof.
  intros Hobj Hmsg Hread Hstore.
  destruct (eligibility_filters_resolved gamesList Hobj) as [(eligible & Helig & Hsub) _].
  unfold Boxscore.boxscore_stage. rewrite Helig. cbn [mbind res_bind].
  rewrite (fanout_games w "/boxscore" (Boxscore.extractPlayers w) code seasonCode eligible).
  - cbn [mbind res_bind allPlayerRows fetched fan_errors].
    destruct (0 <? length _)%nat eqn:Hrows; [|eauto].
    destruct (boxscore_upsert_resolved w "player_stats"
                (concat (map (rows_of w "/boxscore" (Boxscore.extractPlayers w)
                                code seasonCode) eligible))
                serviceKey (Hstore _))
      as (result & -> & Herrs & _).
    cbn [mbind res_bind].
    destruct Herrs as [errs ->]; [|eauto].
    intros E. rewrite E in Hrows. discriminate.
  - apply (fetch_eligible_games _ _ Helig).
  - intros g message Hg. apply Hmsg. auto.
  - intros g Hg. apply Hread. auto.
Qed.

Lemma handleCors_not_preflight req :
  req_method req <> "OPTIONS" -> handleCors req = None.
Proof.
  intros H. unfold handleCors. apply String.eqb_neq in H. now rewrite H.
Qed.

Lemma getSupabaseKey_spec w :
  if credential_set w
  then exists key, getSupabaseKey w = Ok key
  else getSupabaseKey w
       = Throw "SUPABASE_SERVICE_KEY env var not set. Add it in Netlify → Site config → Environment variables.".
Proof.
  unfold credential_set, getSupabaseKey.
  destruct (env_service_key w) as [key|]; [|reflexivity].
  destruct (String.eqb key ""); simpl; eauto.
Qed.





(** * Further properties of the code *)

(** ** The cache: locality, overwriting, eviction, [has] and [stats] *)

Lemma cache_get_cases (c : gmap string cache_entry) now k :
  (c !! k = None /\ cache.get now k c = (VNull, c)) \/
  (exists e, c !! k = Some e /\ (expires e < now)%Z /\
             cache.get now k c = (VNull, delete k c)) \/
  (exists e, c !! k = Some e /\ (now <= expires e)%Z /\
             cache.get now k c = (data e, c)).
Proof.
  unfold cache.get. destruct (c !! k) as [e|]; [|now left].
  right. destruct (Z.gtb_spec now (expires e)).
  - left. exists e. split; [reflexivity|]. split; [lia|reflexivity].
  - right. exists e. split; [reflexivity|]. split; [lia|reflexivity].
Qed.

(** X1.  [set], [get] and [has] on a key leave the entry of every other key
    as it was: nothing is swept or touched besides the key that is named. *)
Theorem cache_operations_are_local
    (c : gmap string cache_entry) (now : Z) (iso k k' : string) (v : value)
    (ttl : option Z) :
  k <> k' ->
  cache.set now iso k v ttl c !! k' = c !! k' /\
  (cache.get now k c).2 !! k' = c !! k' /\
  (cache.has now k c).2 !! k' = c !! k'.
Proof.
  intros Hne.
  assert (Hget : (cache.get now k c).2 !! k' = c !! k').
  { destruct (cache_get_cases c now k) as [[_ ->]|[(e & _ & _ & ->)|(e & _ & _ & ->)]];
      cbn [snd]; try reflexivity.
    now apply lookup_delete_ne. }
  split; [|split].
  - unfold cache.set. now apply lookup_insert_ne.
  - exact Hget.
  - unfold cache.has. destruct (cache.get now k c) as [x c'] eqn:E.
    cbn [snd] in *. exact Hget.
Qed.

Lemma cache_operations_are_local_witness :
  "a" <> "b" /\
  cache.set 0 "t0" "a" (VStr "x") None (cache.set 0 "t0" "b" (VStr "y") None ∅) !! "b"
  = cache.set 0 "t0" "b" (VStr "y") None ∅ !! "b".
Proof.
  split; [discriminate|].
  apply (cache_operations_are_local
           (cache.set 0 "t0" "b" (VStr "y") None ∅) 0 "t0" "a" "b" (VStr "x") None).
  discriminate.
Defined.

(** X2.  The last [set] wins.  A second [set] on a key replaces value and
    expiry together (a shorter ttl shortens the life of the entry), the
    cache is the one that the second [set] alone would give, the number of
    entries is unchanged, and a [get] up to the new expiry returns the new
    value. *)
Theorem cache_last_write_wins
    (c : gmap string cache_entry) (t1 t2 u : Z) (iso1 iso2 k : string)
    (v1 v2 : value) (ttl1 ttl2 : Z) :
  let c1 := cache.set t1 iso1 k v1 (Some ttl1) c in
  let c2 := cache.set t2 iso2 k v2 (Some ttl2) c1 in
  c2 = cache.set t2 iso2 k v2 (Some ttl2) c /\
  (cache.stats c2).1 = (cache.stats c1).1 /\
  ((u <= t2 + ttl2 * 1000)%Z -> cache.get u k c2 = (v2, c2)) /\
  ((t2 + ttl2 * 1000 < u)%Z -> (cache.get u k c2).1 = VNull).
Proof.
  intros c1 c2. unfold c2, c1.
  split; [|split; [|split]].
  - unfold cache.set. apply insert_insert_eq.
  - unfold cache.stats, cache.set. cbn [fst].
    apply map_size_insert_Some. rewrite lookup_insert_eq. eauto.
  - intros Hu. now apply cache_get_fresh.
  - intros Hu. now rewrite cache_get_stale.
Qed.

Lemma cache_last_write_wins_witness :
  (50 <= 10 + 60 * 1000)%Z /\
  cache.get 50 "k"
    (cache.set 10 "t1" "k" (VStr "new") (Some 60%Z)
       (cache.set 0 "t0" "k" (VStr "old") (Some 300%Z) ∅))
  = (VStr "new",
     cache.set 10 "t1" "k" (VStr "new") (Some 60%Z)
       (cache.set 0 "t0" "k" (VStr "old") (Some 300%Z) ∅)).
Proof.
  split; [lia|].
  pose proof (cache_last_write_wins ∅ 0 10 50 "t0" "t1" "k" (VStr "old") (VStr "new")
                300 60) as H.
  cbv zeta in H. destruct H as (_ & _ & H & _). apply H. lia.
Defined.

(** X3.  [get] only ever shrinks the cache, by the one entry it finds
    expired; a value other than [null] comes from a stored entry that has
    not expired and leaves the cache untouched; and repeating the [get] at
    the same time gives the same answer and changes nothing more. *)
Theorem cache_get_is_stable
    (c : gmap string cache_entry) (now : Z) (k : string) (v : value)
    (c1 : gmap string cache_entry) :
  cache.get now k c = (v, c1) ->
  cache.get now k c1 = (v, c1) /\
  c1 ⊆ c /\
  (c1 = c \/ (c1 = delete k c /\ (cache.stats c1).1 = pred (cache.stats c).1)) /\
  (v <> VNull ->
   c1 = c /\ exists e, c !! k = Some e /\ data e = v /\ (now <= expires e)%Z).
Proof.
  intros Hget.
  destruct (cache_get_cases c now k)
    as [[Hk E]|[(e & Hk & Hexp & E)|(e & Hk & Hexp & E)]];
    rewrite E in Hget; injection Hget as <- <-.
  - split; [exact E|]. split; [reflexivity|]. split; [now left|]. congruence.
  - split; [|split; [|split]].
    + unfold cache.get. now rewrite lookup_delete_eq.
    + apply delete_subseteq.
    + right. split; [reflexivity|]. unfold cache.stats. cbn [fst].
      apply map_size_delete_Some. eauto.
    + congruence.
  - split; [exact E|]. split; [reflexivity|]. split; [now left|].
    intros _. split; [reflexivity|]. eauto.
Qed.

Lemma cache_get_is_stable_witness :
  let c := cache.set 0 "t0" "k" (VStr "v") (Some 1%Z) ∅ in
  cache.get 5000 "k" c = (VNull, delete "k" c) /\
  cache.get 5000 "k" (delete "k" c) = (VNull, delete "k" c).
Proof.
  intros c.
  assert (H : cache.get 5000 "k" c = (VNull, delete "k" c)).
  { unfold c. rewrite cache_get_stale by lia. unfold cache.set.
    now rewrite delete_insert_eq. }
  split; [exact H|].
  apply (cache_get_is_stable c 5000 "k" VNull (delete "k" c) H).
Defined.

(** X4.  [has] answers [true] exactly for a stored entry that has not
    expired and whose value is not [null], and then changes nothing; so an
    entry holding [null] is reported as absent although it is stored and
    listed by [stats].  [has] evicts like [get]. *)
Theorem cache_has_iff_live_and_not_null
    (c : gmap string cache_entry) (now : Z) (k : string) :
  ((cache.has now k c).1 = true <->
   exists e, c !! k = Some e /\ (now <= expires e)%Z /\ data e <> VNull) /\
  ((cache.has now k c).1 = true -> (cache.has now k c).2 = c) /\
  (cache.has now k c).2 = (cache.get now k c).2 /\
  (forall iso ttl,
      (0 <= ttl)%Z ->
      let c1 := cache.set now iso k VNull (Some ttl) c in
      (cache.has now k c1).1 = false /\ k ∈ (cache.stats (cache.has now k c1).2).2).
Proof.
  assert (Hhas : forall c' t key,
             cache.has t key c'
             = (match (cache.get t key c').1 with VNull => false | _ => true end,
                (cache.get t key c').2)).
  { intros c' t key. unfold cache.has. now destruct (cache.get t key c'). }
  split; [|split; [|split]].
  - rewrite Hhas. cbn [fst].
    destruct (cache_get_cases c now k)
      as [[Hk ->]|[(e & Hk & Hexp & ->)|(e & Hk & Hexp & ->)]]; cbn [fst].
    + split; [discriminate|]. intros (e & He & _). congruence.
    + split; [discriminate|]. intros (e' & He & Hlive & _).
      assert (e' = e) by congruence. subst. lia.
    + split.
      * intros H. exists e. repeat split; auto. intros E. rewrite E in H. discriminate.
      * intros (e' & He & _ & Hdata). assert (e' = e) by congruence. subst.
        destruct (data e); congruence.
  - rewrite Hhas. cbn [fst snd].
    destruct (cache_get_cases c now k)
      as [[Hk ->]|[(e & Hk & Hexp & ->)|(e & Hk & Hexp & ->)]]; cbn [fst snd];
      try reflexivity. discriminate.
  - rewrite Hhas. reflexivity.
  - intros iso ttl Httl c1. unfold c1. rewrite Hhas.
    rewrite cache_get_fresh by lia. cbn [fst snd]. split; [reflexivity|].
    apply cache_keys_spec. rewrite cache_get_set_lookup. eauto.
Qed.

Lemma cache_has_iff_live_and_not_null_witness :
  (0 <= 60)%Z /\
  (cache.has 0 "k" (cache.set 0 "t0" "k" VNull (Some 60%Z) ∅)).1 = false.
Proof.
  split; [lia|].
  pose proof (cache_has_iff_live_and_not_null ∅ 0 "k") as (_ & _ & _ & H).
  apply (H "t0" 60%Z). lia.
Defined.

(** X5.  [stats] counts what is stored, expired or not: [entries] is the
    number of listed keys, no key is listed twice, a key is listed exactly
    when an entry is stored under it, and a [set] adds one to [entries] for a
    new key and nothing for a key already stored. *)
Theorem cache_stats_counts_stored_entries
    (c : gmap string cache_entry) (now : Z) (iso k : string) (v : value)
    (ttl : option Z) :
  (cache.stats c).1 = length (cache.stats c).2 /\
  NoDup (cache.stats c).2 /\
  (forall k', k' ∈ (cache.stats c).2 <-> is_Some (c !! k')) /\
  (cache.stats (cache.set now iso k v ttl c)).1
  = (if decide (is_Some (c !! k)) then (cache.stats c).1 else S (cache.stats c).1).
Proof.
  split; [|split; [|split]].
  - unfold cache.stats. cbn [fst snd].
    now rewrite length_fmap, length_map_to_list.
  - unfold cache.stats. cbn [snd]. apply NoDup_fst_map_to_list.
  - intros k'. apply cache_keys_spec.
  - unfold cache.stats, cache.set. cbn [fst]. rewrite map_size_insert.
    destruct (c !! k) as [e|] eqn:E; case_decide as H; try reflexivity.
    + exfalso. apply H. eauto.
    + destruct H. discriminate.
Qed.

(** ** Batching and the accounting of [supabaseUpsert] *)

Lemma chunks_fuel_bounds {A} (n fuel : nat) (l : list A) :
  (0 < n)%nat ->
  Forall (fun b => (0 < length b <= n)%nat) (chunks_fuel fuel n l).
Proof.
  intros Hn. revert l. induction fuel as [|fuel IH]; intros l; [constructor|].
  destruct l as [|x l]; [constructor|].
  cbn [chunks_fuel]. constructor; [|apply IH].
  rewrite length_take. destruct n; [lia|]. cbn [length]. lia.
Qed.

Lemma chunks_fuel_count {A} (n fuel : nat) (l : list A) :
  (0 < n)%nat -> (length l <= fuel)%nat ->
  length (chunks_fuel fuel n l) = ((length l + n - 1) / n)%nat.
Proof.
  intros Hn. revert l. induction fuel as [|fuel IH]; intros l Hl.
  - destruct l; [|simpl in Hl; lia]. cbn.
    symmetry. apply Nat.div_small. lia.
  - destruct l as [|x l].
    + cbn. symmetry. apply Nat.div_small. lia.
    + cbn [chunks_fuel length]. rewrite IH by (rewrite length_drop; simpl in *; lia).
      rewrite length_drop. cbn [length] in *.
      destruct (le_lt_dec n (S (length l))) as [Hge|Hlt].
      * replace (S (length l) + n - 1)%nat with ((S (length l) - n + n - 1) + 1 * n)%nat
          by lia.
        rewrite Nat.div_add by lia. lia.
      * replace (S (length l) - n)%nat with 0%nat by lia.
        rewrite (Nat.div_small (0 + n - 1) n) by lia.
        apply (Nat.div_unique _ _ 1 (length l)); lia.
Qed.

(** X6.  The slices taken by the loops [for (i = 0; i < l.length; i += n)]
    (batches of 50 rows for the store, of 5 games for the fan-out): put end
    to end they are the list itself, none is empty, none is longer than
    [n], and there are [ceil(length / n)] of them. *)
Theorem batches_cover_the_rows {A} (n : nat) (l : list A) :
  (0 < n)%nat ->
  concat (chunks n l) = l /\
  Forall (fun b => (0 < length b <= n)%nat) (chunks n l) /\
  length (chunks n l) = ((length l + n - 1) / n)%nat.
Proof.
  intros Hn. split; [|split].
  - now apply concat_chunks.
  - now apply chunks_fuel_bounds.
  - unfold chunks. now apply chunks_fuel_count.
Qed.

Lemma batches_cover_the_rows_witness :
  (0 < 50)%nat /\ length (chunks 50 (seq 0 101)) = 3%nat.
Proof.
  split; [lia|].
  rewrite (proj2 (proj2 (batches_cover_the_rows 50 (seq 0 101) ltac:(lia)))).
  reflexivity.
Defined.

(** What the loop of [supabaseUpsert] adds up: the rows of the batches that
    were refused are the only ones missing from the count, with one error
    per refused batch. *)
Lemma upsert_batches_accounting {A} {RA : Row A} w url table (batches : list (list A)) :
  forall i total errs total' errs',
    upsert_batches w url table i batches total errs = Ok (total', errs') ->
    exists (refused : list (list A)) (es : list string),
      errs' = errs ++ es /\
      length es = length refused /\
      (forall b, In b refused -> In b batches) /\
      length refused <= length batches /\
      (total' + length (concat refused) = total + length (concat batches))%nat.
Proof.
  induction batches as [|b batches IH]; intros i total errs total' errs'; simpl.
  - intros [= <- <-]. exists [], []. rewrite app_nil_r. repeat split; auto.
  - destruct (http_post w url (S i) (map row_json b)) as [r|]; simpl; [|discriminate].
    destruct (reply_ok r).
    + intros H. apply IH in H as (refused & es & -> & Hlen & Hsub & Hle & Hsum).
      exists refused, es.
      split; [reflexivity|]. split; [exact Hlen|].
      split; [intros b' Hb'; right; auto|]. split; [simpl; lia|].
      cbn [concat]. rewrite length_app. lia.
    + intros H. apply IH in H as (refused & es & -> & Hlen & Hsub & Hle & Hsum).
      match goal with |- context [(errs ++ [?m]) ++ es] =>
        exists (b :: refused), (m :: es) end.
      split; [now rewrite <- app_assoc|]. split; [simpl; now rewrite Hlen|].
      split; [intros b' [<-|Hb']; [now left|right; auto]|]. split; [simpl; lia|].
      cbn [concat]. rewrite !length_app. lia.
Qed.

(** X7.  The result of [supabaseUpsert] (either version) when it returns:
    [count] never exceeds the number of rows; each recorded error stands
    for one refused batch and so for at most 50 and at least one missing
    row; hence [ok] is [true] exactly when no error was recorded, which is
    exactly when every row was counted. *)
Theorem upsert_result_accounting {A} {RA : Row A} (w : World)
    (table serviceKey onConflict : string) (rows : list A) (result : upsert_result) :
  Boxscore.supabaseUpsert w table rows serviceKey = Ok result \/
  Stats.supabaseUpsert w table rows serviceKey onConflict = Ok result ->
  let errs := default [] (errors result) in
  (count result <= length rows)%nat /\
  (count result + length errs <= length rows)%nat /\
  (length rows <= count result + 50 * length errs)%nat /\
  (ok result = true <-> errs = []) /\
  (ok result = true <-> count result = length rows).
Proof.
  intros H errs.
  assert (Hacc : (rows = [] /\ count result = 0%nat /\ errs = [] /\ ok result = true) \/
                 exists url total es,
                   upsert_batches w url table 0 (chunks 50 rows) 0 [] = Ok (total, es) /\
                   count result = total /\ errs = es /\
                   ok result = (length es =? 0)%nat).
  { unfold errs.
    destruct H as [H|H]; [unfold Boxscore.supabaseUpsert in H
                         |unfold Stats.supabaseUpsert in H];
      (destruct rows as [|x rows'];
       [cbn in H; injection H as <-; left; repeat split; reflexivity|]);
      cbn [length Nat.eqb] in H; right;
      match type of H with context [upsert_batches w ?u table 0 ?bs 0 []] =>
        destruct (upsert_batches w u table 0 bs 0 []) as [[total es]|] eqn:E;
        [|discriminate H]; exists u, total, es end;
      cbn in H; injection H as <-; repeat split; try reflexivity; exact E. }
  destruct Hacc as [(-> & Hc & He & Hok)|(url & total & es & Hrun & Hc & He & Hok)].
  - rewrite Hc, He, Hok. cbn. repeat split; auto; lia.
  - apply upsert_batches_accounting in Hrun
      as (refused & es' & Hes & Hlen & Hsub & Hle & Hsum).
    cbn [app] in Hes. subst es'.
    destruct (batches_cover_the_rows 50 rows ltac:(lia)) as (Hcat & Hbounds & _).
    rewrite Hcat in Hsum. rewrite Forall_forall in Hbounds.
    assert (Hlost : (length refused <= length (concat refused) <= 50 * length refused)%nat).
    { clear Hlen Hle Hsum. induction refused as [|b refused IH]; [simpl; lia|].
      cbn [concat length]. rewrite length_app.
      assert (Hb : (0 < length b <= 50)%nat)
        by (apply Hbounds, list_elem_of_In, Hsub; now left).
      assert (IH' := IH (fun b' Hb' => Hsub b' (or_intror Hb'))). lia. }
    rewrite Hc, He, Hok. rewrite Hlen.
    assert (Hnil : es = [] <-> length refused = 0%nat).
    { rewrite <- Hlen. destruct es; simpl; split; congruence. }
    repeat split; try lia.
    + intros E. apply Nat.eqb_eq in E. apply Hnil. lia.
    + intros E. apply Nat.eqb_eq. apply Hnil in E. lia.
    + intros E. apply Nat.eqb_eq in E. lia.
    + intros E. apply Nat.eqb_eq. lia.
Qed.

Lemma upsert_result_accounting_witness :
  exists result,
    Boxscore.supabaseUpsert partial_failures "live_games" [int 1; int 2; int 3] "key"
    = Ok result /\
    ok result = false /\ count result = 0%nat /\
    (count result + length (default [] (errors result)) <= 3)%nat.
Proof.
  destruct (Boxscore.supabaseUpsert partial_failures "live_games" [int 1; int 2; int 3]
              "key")
    as [result|] eqn:E; [|cbv in E; discriminate E].
  exists result. split; [reflexivity|].
  pose proof (upsert_result_accounting partial_failures "live_games" "key" ""
                [int 1; int 2; int 3] result (or_introl E)) as H.
  cbv zeta in H. destruct H as (_ & H & _).
  cbv in E. injection E as <-. repeat split. exact H.
Defined.

(** ** The rows of [live_games] *)

Lemma append_sep_not_empty a c b : a +:+ String c b <> "".
Proof. destruct a; discriminate. Qed.



(** ** [parseMinutes] beyond ["MM:SS"] *)

Lemma read_digits_prefix ds c rest acc :
  all_digits ds = true -> is_digit c = false ->
  read_digits acc (ds +:+ String c rest)
  = (fold_left (fun a d => (10 * a + digit_val d)%Z) (list_ascii_of_string ds) acc,
     String.length ds, String c rest).
Proof.
  revert acc. induction ds as [|d r IH]; intros acc H Hc; simpl in *.
  - now rewrite Hc.
  - apply andb_prop in H as [Hd Hr]. rewrite Hd, (IH _ Hr Hc). reflexivity.
Qed.

(** [parseFloat] stops at a colon. *)
Lemma parseFloat_digits_then_colon ds rest :
  all_digits ds = true -> ds <> "" ->
  parseFloat (ds +:+ String ":" rest) = to_double (inject_Z (digits_value ds)).
Proof.
  intros Hs Hne. destruct ds as [|c r]; [congruence|].
  pose proof Hs as Hs'. simpl in Hs'. apply andb_prop in Hs' as [Hc Hr].
  destruct (digit_head_facts c (r +:+ String ":" rest) Hc) as (Hskip & Hsign & Hinf).
  unfold parseFloat. change (String c r +:+ String ":" rest)
    with (String c (r +:+ String ":" rest)).
  rewrite Hskip, Hsign, Hinf.
  change (String c (r +:+ String ":" rest)) with (String c r +:+ String ":" rest).
  rewrite (read_digits_prefix _ ":" rest 0%Z Hs eq_refl).
  cbn [String.length Nat.add read_exponent].
  apply to_double_compat. unfold digits_value.
  change (10 ^ Z.of_nat 0)%Z with 1%Z. change (Qpower 10 0) with 1%Q.
  field.
Qed.

Lemma split_length_positive sep s : (1 <= length (split sep s))%nat.
Proof.
  pose proof (split_not_nil sep s). destruct (split sep s); [congruence|simpl; lia].
Qed.

(** X9.  [parseMinutes] returns [NaN] only for a string with exactly one
    colon: a value that is not a string, an empty string, a string without
    a colon and a string with two or more colons all give a number (0 when
    nothing can be parsed).  With exactly one colon, a side that does not
    start with a number makes the result [NaN]. *)
Theorem parseMinutes_nan_needs_exactly_one_colon :
  (forall v,
      (forall s, v = VStr s -> length (split ":" s) <> 2%nat) ->
      Boxscore.parseMinutes v <> NaN) /\
  (forall s a b,
      split ":" s = [a; b] ->
      parseFloat a = NaN \/ parseFloat b = NaN ->
      Boxscore.parseMinutes (VStr s) = NaN).
Proof.
  split.
  - intros v Hv. destruct v as [| | | |s| |]; try discriminate.
    specialize (Hv s eq_refl). unfold Boxscore.parseMinutes.
    destruct (negb (truthy (VStr s))); [discriminate|].
    assert (Hone : (if num_truthy (parseFloat s) then parseFloat s else Fin 0) <> NaN).
    { destruct (parseFloat s); simpl; try discriminate.
      destruct (negb (Qeq_bool q 0)); discriminate. }
    destruct (split ":" s) as [|p0 [|p1 [|p2 l]]]; try exact Hone.
    simpl in Hv. congruence.
  - intros s a b Hsplit Hnan. unfold Boxscore.parseMinutes.
    assert (Hs : truthy (VStr s) = true).
    { destruct s; [discriminate Hsplit|reflexivity]. }
    rewrite Hs, Hsplit. cbn [negb].
    destruct Hnan as [-> | ->]; [reflexivity|].
    destruct (parseFloat a); reflexivity.
Qed.

Lemma parseMinutes_nan_needs_exactly_one_colon_witness :
  split ":" "DNP:" = ["DNP"; ""] /\ Boxscore.parseMinutes (VStr "DNP:") = NaN.
Proof.
  split; [reflexivity|].
  apply (proj2 parseMinutes_nan_needs_exactly_one_colon "DNP:" "DNP" "" eq_refl).
  left. reflexivity.
Defined.

(** X10.  A time written ["H:MM:SS"] is not converted: with two colons (or
    more) [parseMinutes] falls back to [parseFloat] of the whole string,
    which stops at the first colon, so that the result is what the first
    group alone gives, whatever follows: the double nearest to the number
    the group denotes, which is that number itself when it is below
    [2^53]. *)
Theorem parseMinutes_reads_first_group_of_three (h m rest : string) :
  all_digits h = true -> h <> "" ->
  Boxscore.parseMinutes (VStr (h +:+ ":" +:+ m +:+ ":" +:+ rest))
  = Boxscore.parseMinutes (VStr h) /\
  Boxscore.parseMinutes (VStr (h +:+ ":" +:+ m +:+ ":" +:+ rest))
  = to_double (inject_Z (digits_value h)) /\
  ((digits_value h < 2 ^ 53)%Z ->
   Boxscore.parseMinutes (VStr (h +:+ ":" +:+ m +:+ ":" +:+ rest))
   = Fin (inject_Z (digits_value h))).
Proof.
  intros Hh Hne.
  assert (Hwhole :
            Boxscore.parseMinutes (VStr (h +:+ ":" +:+ m +:+ ":" +:+ rest))
            = to_double (inject_Z (digits_value h))).
  2: { split; [|split; [exact Hwhole|]].
       - rewrite Hwhole. unfold Boxscore.parseMinutes.
         assert (Hs : truthy (VStr h) = true) by (destruct h; [congruence|reflexivity]).
         rewrite Hs. cbn [negb].
         rewrite split_no_sep by (intros c; apply all_digits_no_colon; exact Hh).
         rewrite (parseFloat_digits h Hh Hne).
         destruct (num_truthy (to_double (inject_Z (digits_value h)))) eqn:Hz;
           [reflexivity|]. now apply to_double_falsy.
       - intros Hlt. rewrite Hwhole. now apply to_double_digits. }
  change (h +:+ ":" +:+ m +:+ ":" +:+ rest)
    with (h +:+ String ":" (m +:+ String ":" rest)).
  pose proof (parseFloat_digits_then_colon h (m +:+ String ":" rest) Hh Hne) as Hq.
  unfold Boxscore.parseMinutes.
  assert (Hs : truthy (VStr (h +:+ String ":" (m +:+ String ":" rest))) = true).
  { destruct h; [congruence|reflexivity]. }
  rewrite Hs. cbn [negb]. rewrite !split_app.
  pose proof (split_length_positive ":" h) as H1.
  pose proof (split_length_positive ":" m) as H2.
  pose proof (split_length_positive ":" rest) as H3.
  destruct (split ":" h ++ split ":" m ++ split ":" rest) as [|p0 [|p1 [|p2 l]]] eqn:E;
    try (apply (f_equal length) in E; rewrite !length_app in E; simpl in E; lia).
  rewrite Hq.
  destruct (num_truthy (to_double (inject_Z (digits_value h)))) eqn:Hz;
    [reflexivity|]. symmetry. now apply to_double_falsy.
Qed.

Lemma parseMinutes_reads_first_group_of_three_witness :
  Boxscore.parseMinutes (VStr "1:05:30") = Fin 1 /\
  Boxscore.parseMinutes (VStr "9007199254740993:05:30") = Fin 9007199254740992.
Proof.
  split.
  - apply (proj2 (proj2 (parseMinutes_reads_first_group_of_three "1" "05" "30"
                           eq_refl ltac:(discriminate)))).
    vm_compute. reflexivity.
  - etransitivity;
      [exact (proj1 (proj2 (parseMinutes_reads_first_group_of_three
                              "9007199254740993" "05" "30" eq_refl
                              ltac:(discriminate))))|].
    vm_compute. reflexivity.
Defined.

(** ** [extractPlayers]: missing sides, the [stats] wrapper, what every row carries *)

Lemma boxscore_side_players_none data side :
  nullish (opt data side) = true \/ opt (opt data side) "players" = VArr [] ->
  Boxscore.side_players data side = VArr [].
Proof.
  unfold Boxscore.side_players. intros [H| ->]; [|reflexivity].
  unfold opt at 1 3. rewrite H. reflexivity.
Qed.

(** X11.  A response without players is not an error.  In both versions a
    side that is missing ([null], [undefined], or a response that is itself
    [null] or [undefined]) or whose [players] is an empty array gives no
    row and no exception; in the [/boxscore] version this holds even when
    [playersStats] is filled, because an empty [players] array is truthy
    and is the one that is read. *)
Theorem extractPlayers_without_players (w : World)
    (gameCode : value) (seasonCode competition : string) (round gameDate : value) :
  (forall boxscore,
      let data := js_or (opt boxscore "stats") boxscore in
      (nullish (opt data "local") = true \/
       opt (opt data "local") "players" = VArr []) ->
      (nullish (opt data "road") = true \/
       opt (opt data "road") "players" = VArr []) ->
      Boxscore.extractPlayers w boxscore gameCode seasonCode competition round gameDate
      = Ok []) /\
  (forall statsData,
      (truthy (opt (opt statsData "local") "players") = false \/
       opt (opt statsData "local") "players" = VArr []) ->
      (truthy (opt (opt statsData "road") "players") = false \/
       opt (opt statsData "road") "players" = VArr []) ->
      Stats.extractPlayers w statsData gameCode seasonCode competition round gameDate
      = Ok []) /\
  (forall v,
      nullish v = true ->
      Boxscore.extractPlayers w v gameCode seasonCode competition round gameDate = Ok []
      /\
      Stats.extractPlayers w v gameCode seasonCode competition round gameDate = Ok []).
Proof.
  assert (HB : forall boxscore,
             let data := js_or (opt boxscore "stats") boxscore in
             (nullish (opt data "local") = true \/
              opt (opt data "local") "players" = VArr []) ->
             (nullish (opt data "road") = true \/
              opt (opt data "road") "players" = VArr []) ->
             Boxscore.extractPlayers w boxscore gameCode seasonCode competition round
               gameDate = Ok []).
  { intros boxscore data Hl Hr. unfold Boxscore.extractPlayers. cbv zeta. fold data.
    rewrite (boxscore_side_players_none data "local" Hl).
    rewrite (boxscore_side_players_none data "road" Hr). reflexivity. }
  assert (HS : forall statsData,
             (truthy (opt (opt statsData "local") "players") = false \/
              opt (opt statsData "local") "players" = VArr []) ->
             (truthy (opt (opt statsData "road") "players") = false \/
              opt (opt statsData "road") "players" = VArr []) ->
             Stats.extractPlayers w statsData gameCode seasonCode competition round
               gameDate = Ok []).
  { assert (Hside : forall statsData gi side,
               truthy (opt (opt statsData side) "players") = false \/
               opt (opt statsData side) "players" = VArr [] ->
               Stats.side_rows w statsData gi side = Ok []).
    { intros statsData gi side H. unfold Stats.side_rows. cbv zeta.
      destruct H as [H|H].
      - now rewrite H.
      - rewrite H. cbn [truthy negb]. rewrite opt_field in H. rewrite H. reflexivity. }
    intros statsData Hl Hr. unfold Stats.extractPlayers. cbv zeta.
    rewrite (Hside _ _ "local" Hl), (Hside _ _ "road" Hr). reflexivity. }
  split; [exact HB|]. split; [exact HS|].
  intros v Hv. split.
  - apply HB; left; destruct v; try discriminate Hv; reflexivity.
  - apply HS; left; destruct v; try discriminate Hv; reflexivity.
Qed.

Lemma extractPlayers_without_players_witness :
  let boxscore :=
    VObj [("local", VObj [("players", VArr []);
                          ("playersStats", VArr [VObj [("personCode", VStr "P1")]])])] in
  Boxscore.extractPlayers (world []) boxscore (int 1) "E2025" "E" VNull VNull = Ok [].
Proof.
  intros boxscore.
  apply (proj1 (extractPlayers_without_players (world []) (int 1) "E2025" "E" VNull VNull)
           boxscore).
  - right. reflexivity.
  - left. reflexivity.
Defined.

(** X12.  The [/boxscore] version reads a response wrapped as
    [{stats: {...}}] exactly as it reads the wrapped object itself (the
    wrapped object having no truthy [stats] of its own). *)
Theorem extractPlayers_unwraps_stats (w : World) (boxscore inner gameCode : value)
    (seasonCode competition : string) (round gameDate : value) :
  field boxscore "stats" = inner ->
  truthy inner = true ->
  truthy (field inner "stats") = false ->
  Boxscore.extractPlayers w boxscore gameCode seasonCode competition round gameDate
  = Boxscore.extractPlayers w inner gameCode seasonCode competition round gameDate.
Proof.
  intros Hin Ht Hs. unfold Boxscore.extractPlayers. cbv zeta.
  rewrite !opt_field, Hin. unfold js_or. now rewrite Ht, Hs.
Qed.

Lemma extractPlayers_unwraps_stats_witness :
  Boxscore.extractPlayers (world []) (VObj [("stats", one_player_boxscore "P1")])
    (int 1) "E2025" "E" VNull VNull
  = Boxscore.extractPlayers (world []) (one_player_boxscore "P1")
      (int 1) "E2025" "E" VNull VNull.
Proof.
  apply extractPlayers_unwraps_stats; reflexivity.
Defined.

Lemma boxscore_push_players_identity w gameInfo teamInfo isLocal entries :
  forall rows,
    Boxscore.push_players w gameInfo teamInfo isLocal entries = Ok rows ->
    Forall (fun r => Boxscore.game_code r = field gameInfo "gameCode" /\
                     Boxscore.season_code r = field gameInfo "seasonCode" /\
                     Boxscore.competition r = field gameInfo "competition" /\
                     Boxscore.team_code r = js_or (field teamInfo "code") VNull /\
                     Boxscore.is_local r = isLocal) rows.
Proof.
  induction entries as [|p rest IH]; intros rows; simpl.
  - intros [= <-]. constructor.
  - destruct (get p "personCode") as [x|] eqn:E; simpl; [|discriminate].
    destruct (truthy (js_or x (field p "code"))); [|apply IH].
    destruct (Boxscore.transformPlayerStats w p gameInfo teamInfo isLocal)
      as [row|] eqn:Hrow; simpl; [|discriminate].
    destruct (Boxscore.push_players w gameInfo teamInfo isLocal rest)
      as [rows'|] eqn:Hrest; simpl; [|discriminate].
    intros [= <-]. constructor; [|now apply IH].
    unfold Boxscore.transformPlayerStats in Hrow.
    destruct (get p "personCode"); simpl in Hrow; [|discriminate].
    injection Hrow as <-. repeat split; reflexivity.
Qed.

Lemma stats_push_entries_identity w gameInfo teamCode teamName teamTvCode isLocal entries :
  forall rows,
    Stats.push_entries w gameInfo teamCode teamName teamTvCode isLocal entries
    = Ok rows ->
    Forall (fun r => Stats.game_code r = field gameInfo "gameCode" /\
                     Stats.season_code r = field gameInfo "seasonCode" /\
                     Stats.competition r = field gameInfo "competition" /\
                     Stats.team_code r = teamCode /\
                     Stats.is_local r = isLocal) rows.
Proof.
  induction entries as [|e rest IH]; intros rows; simpl.
  - intros [= <-]. constructor.
  - destruct (get e "player") as [x|] eqn:E; simpl; [|discriminate].
    destruct (Stats.keeps x); [|apply IH].
    destruct (Stats.transformPlayerStats w e gameInfo teamCode teamName teamTvCode
                isLocal) as [row|] eqn:Hrow; simpl; [|discriminate].
    destruct (Stats.push_entries w gameInfo teamCode teamName teamTvCode isLocal rest)
      as [rows'|] eqn:Hrest; simpl; [|discriminate].
    intros [= <-]. constructor; [|now apply IH].
    unfold Stats.transformPlayerStats in Hrow.
    destruct (get e "player"); simpl in Hrow; [|discriminate].
    injection Hrow as <-. repeat split; reflexivity.
Qed.

(** X13.  Every row that [extractPlayers] produces (either version) carries
    the game code, season code and competition of the call, so that all the
    rows of one game share the first two columns of the upsert key; the rows
    of the home side come first and are the only ones flagged [is_local],
    and all the rows of a side carry one and the same team code. *)
Theorem extractPlayers_rows_carry_the_game (w : World)
    (gameCode : value) (seasonCode competition : string) (round gameDate : value) :
  (forall boxscore rows,
      Boxscore.extractPlayers w boxscore gameCode seasonCode competition round gameDate
      = Ok rows ->
      Forall (fun r => Boxscore.game_code r = gameCode /\
                       Boxscore.season_code r = VStr seasonCode /\
                       Boxscore.competition r = VStr competition) rows /\
      exists home away localTeam roadTeam,
        rows = home ++ away /\
        Forall (fun r => Boxscore.is_local r = true /\
                         Boxscore.team_code r = localTeam) home /\
        Forall (fun r => Boxscore.is_local r = false /\
                         Boxscore.team_code r = roadTeam) away) /\
  (forall statsData rows,
      Stats.extractPlayers w statsData gameCode seasonCode competition round gameDate
      = Ok rows ->
      Forall (fun r => Stats.game_code r = gameCode /\
                       Stats.season_code r = VStr seasonCode /\
                       Stats.competition r = VStr competition) rows /\
      exists home away localTeam roadTeam,
        rows = home ++ away /\
        Forall (fun r => Stats.is_local r = true /\
                         Stats.team_code r = localTeam) home /\
        Forall (fun r => Stats.is_local r = false /\
                         Stats.team_code r = roadTeam) away).
Proof.
  split.
  - intros boxscore rows. unfold Boxscore.extractPlayers. cbv zeta.
    set (data := js_or (opt boxscore "stats") boxscore).
    destruct (iterate (Boxscore.side_players data "local")) as [L|]; simpl; [|discriminate].
    match goal with |- context [Boxscore.push_players ?a ?b ?c ?d L] =>
      destruct (Boxscore.push_players a b c d L) as [home|] eqn:Hl end;
      simpl; [|discriminate].
    destruct (iterate (Boxscore.side_players data "road")) as [R|]; simpl; [|discriminate].
    match goal with |- context [Boxscore.push_players ?a ?b ?c ?d R] =>
      destruct (Boxscore.push_players a b c d R) as [away|] eqn:Hr end;
      simpl; [|discriminate].
    intros [= <-].
    apply boxscore_push_players_identity in Hl, Hr. cbn in Hl, Hr.
    split.
    + apply Forall_app.
      split; [eapply List.Forall_impl; [|exact Hl]|eapply List.Forall_impl; [|exact Hr]];
        cbn beta; tauto.
    + assert (Hh : exists t, Forall (fun r => Boxscore.is_local r = true /\
                                               Boxscore.team_code r = t) home).
      { eexists. eapply List.Forall_impl; [|exact Hl].
        intros r (_ & _ & _ & Ht & Hloc). split; [exact Hloc|exact Ht]. }
      assert (Ha : exists t, Forall (fun r => Boxscore.is_local r = false /\
                                               Boxscore.team_code r = t) away).
      { eexists. eapply List.Forall_impl; [|exact Hr].
        intros r (_ & _ & _ & Ht & Hloc). split; [exact Hloc|exact Ht]. }
      destruct Hh as [lt Hh]. destruct Ha as [rt Ha].
      exists home, away, lt, rt. auto.
  - intros statsData rows. unfold Stats.extractPlayers. cbv zeta.
    assert (Hside : forall side gi srows,
               Stats.side_rows w statsData gi side = Ok srows ->
               exists team,
                 Forall (fun r => Stats.game_code r = field gi "gameCode" /\
                                  Stats.season_code r = field gi "seasonCode" /\
                                  Stats.competition r = field gi "competition" /\
                                  Stats.team_code r = team /\
                                  Stats.is_local r = String.eqb side "local") srows).
    { intros side gi srows. unfold Stats.side_rows. cbv zeta.
      destruct (negb (truthy (opt (opt statsData side) "players"))).
      - intros [= <-]. exists VNull. constructor.
      - destruct (iterate (field (opt statsData side) "players")) as [entries|];
          simpl; [|discriminate].
        intros H. apply stats_push_entries_identity in H. eauto. }
    match goal with |- context [mbind _ ?m] =>
      destruct m as [home|] eqn:Hl end; simpl; [|discriminate].
    match goal with |- context [mbind _ ?m] =>
      destruct m as [away|] eqn:Hr end; simpl; [|discriminate].
    intros [= <-].
    apply Hside in Hl as [lt Hl]. apply Hside in Hr as [rt Hr]. cbn in Hl, Hr.
    split.
    + apply Forall_app.
      split; [eapply List.Forall_impl; [|exact Hl]|eapply List.Forall_impl; [|exact Hr]];
        cbn beta; tauto.
    + exists home, away, lt, rt. split; [reflexivity|].
      split; [eapply List.Forall_impl; [|exact Hl]|eapply List.Forall_impl; [|exact Hr]];
        intros r (_ & _ & _ & Ht & Hloc); (split; [exact Hloc|exact Ht]).
Qed.

Lemma extractPlayers_rows_carry_the_game_witness :
  exists rows,
    Boxscore.extractPlayers (world []) (one_player_boxscore "P1") (int 7) "E2025" "E"
      VNull VNull = Ok rows /\
    Forall (fun r => Boxscore.game_code r = int 7 /\
                     Boxscore.season_code r = VStr "E2025" /\
                     Boxscore.competition r = VStr "E") rows.
Proof.
  destruct (Boxscore.extractPlayers (world []) (one_player_boxscore "P1") (int 7)
              "E2025" "E" VNull VNull) as [rows|] eqn:E; [|cbv in E; discriminate E].
  exists rows. split; [reflexivity|].
  apply (proj1 (extractPlayers_rows_carry_the_game (world []) (int 7) "E2025" "E"
                  VNull VNull) (one_player_boxscore "P1") rows E).
Defined.

(** ** Eligibility, the stage-1 shape and the order of the filter *)

(** X14.  For a game whose [played] flag is a boolean or is absent, the
    game is fetched exactly when it is counted as eligible or its status is
    ["Played"]: the reported count can fall short of the fetched games (by
    those that only have the status ["Played"]) and never exceeds them. *)
Theorem reported_eligible_implies_fetched (g : value) :
  nullish g = false ->
  (exists b, field g "played" = VBool b) \/ nullish (field g "played") = true ->
  exists fetched reported,
    fetch_eligible g = Ok fetched /\
    reported_eligible g = Ok reported /\
    fetched = reported || is_string "Played" (field g "gameStatus") /\
    (reported = true -> fetched = true).
Proof.
  intros Hg Hplayed. unfold fetch_eligible, reported_eligible.
  rewrite (get_not_nullish g "played" Hg). cbn [mbind res_bind].
  eexists _, _. split; [reflexivity|]. split; [reflexivity|].
  assert (Hsame : is_true (field g "played") = truthy (field g "played")).
  { destruct Hplayed as [[b ->]|H]; [now destruct b|].
    destruct (field g "played"); try discriminate H; reflexivity. }
  rewrite Hsame.
  destruct (truthy (field g "played")), (is_string "Played" (field g "gameStatus")),
    (is_string "Live" (field g "gameStatus")),
    (is_string "Playing" (field g "gameStatus")); split; reflexivity || discriminate.
Qed.

Lemma reported_eligible_implies_fetched_witness :
  nullish (played_game 1) = false /\
  exists fetched reported,
    fetch_eligible (played_game 1) = Ok fetched /\
    reported_eligible (played_game 1) = Ok reported /\
    (reported = true -> fetched = true).
Proof.
  split; [reflexivity|].
  destruct (reported_eligible_implies_fetched (played_game 1) eq_refl
              (or_intror eq_refl)) as (f & r & Hf & Hr & _ & Himp).
  exists f, r. auto.
Defined.

(** X15.  Stage 1 accepts exactly two shapes: a list, or a value other than
    [null] and [undefined] that is not a list and whose [data] property is
    a list (an empty list included).  On [null] and [undefined] it throws;
    everything else is the shape mismatch. *)
Theorem games_of_accepts_two_shapes (gamesData : value) :
  (forall l,
      games_of gamesData = Ok (Some l) <->
      gamesData = VArr l \/
      (isArray gamesData = false /\ nullish gamesData = false /\
       field gamesData "data" = VArr l)) /\
  ((exists message, games_of gamesData = Throw message) <-> nullish gamesData = true).
Proof.
  split.
  - intros l. unfold games_of, get, js_or.
    destruct gamesData as [| |b|n|s|a|fs]; cbn.
    + split; [discriminate|]. intros [H|(_ & H & _)]; discriminate.
    + split; [discriminate|]. intros [H|(_ & H & _)]; discriminate.
    + destruct b; cbn; (split; [discriminate|]);
        intros [H|(_ & _ & H)]; discriminate.
    + destruct (num_truthy n); cbn; (split; [discriminate|]);
        intros [H|(_ & _ & H)]; discriminate.
    + destruct (negb (String.eqb s "")); cbn; (split; [discriminate|]);
        intros [H|(_ & _ & H)]; discriminate.
    + split; [intros [= <-]; now left|].
      intros [[= <-]|(H & _)]; [reflexivity|discriminate].
    + destruct (assoc "data" fs) as [| |b|n|s|a|fs'] eqn:E; cbn;
        try (split; [discriminate|intros [H|(_ & _ & H)]; discriminate]).
      * destruct b; cbn; (split; [discriminate|]);
          intros [H|(_ & _ & H)]; discriminate.
      * destruct (num_truthy n); cbn; (split; [discriminate|]);
          intros [H|(_ & _ & H)]; discriminate.
      * destruct (negb (String.eqb s "")); cbn; (split; [discriminate|]);
          intros [H|(_ & _ & H)]; discriminate.
      * split; [intros [= <-]; right; auto|].
        intros [H|(_ & _ & [= <-])]; [discriminate|reflexivity].
  - unfold games_of, get.
    destruct gamesData; cbn; split; try discriminate; eauto;
      intros [m H]; discriminate.
Qed.

Lemma existsb_same_members {A} (p : A -> bool) l1 l2 :
  (forall x, In x l1 <-> In x l2) -> existsb p l1 = existsb p l2.
Proof.
  intros H. apply eq_true_iff_eq. rewrite !List.existsb_exists.
  split; intros (x & Hx & Hp); exists x; split; auto; now apply H.
Qed.

(** X16.  Only the set of requested numbers matters: two filter strings
    whose pieces parse to the same numbers, in whatever order and with
    whatever repetitions, keep the same games. *)
Theorem games_filter_ignores_order_and_repeats (f1 f2 : string) (gamesList : list value) :
  f1 <> "" -> f2 <> "" ->
  (forall n, In n (filterSet f1) <-> In n (filterSet f2)) ->
  apply_filter (Some f1) gamesList = apply_filter (Some f2) gamesList.
Proof.
  intros H1 H2 Hsame. unfold apply_filter.
  apply String.eqb_neq in H1, H2. rewrite H1, H2. cbn [negb].
  apply filterM_res_ext. intros g _.
  destruct (get g "gameCode") as [gc|]; [|reflexivity]. simpl. f_equal.
  unfold set_has. now apply existsb_same_members.
Qed.

Lemma games_filter_ignores_order_and_repeats_witness :
  apply_filter (Some "3,1,3") [game 1; game 2; game 3]
  = apply_filter (Some "1,3") [game 1; game 2; game 3].
Proof.
  apply games_filter_ignores_order_and_repeats; try discriminate.
  intros n. cbn. tauto.
Defined.

(** ** The read endpoints and the cache *)

Lemma x_cache_json data st tag :
  x_cache (Web.jsonResponse data st [("X-Cache", tag)]) = Some tag.
Proof. reflexivity. Qed.

Lemma x_cache_error w message st : x_cache (Web.errorResponse w message st) = None.
Proof. reflexivity. Qed.

Lemma web_handleCors_cases req :
  Web.handleCors req = None \/
  exists r, Web.handleCors req = Some r /\ x_cache r = None /\ Web.status r = 204%nat.
Proof.
  unfold Web.handleCors. destruct (String.eqb (req_method req) "OPTIONS"); eauto.
Qed.

Lemma cache_get_shrinks t k (c : gmap string cache_entry) :
  (cache.get t k c).2 ⊆ c /\
  (forall k', k' <> k -> (cache.get t k c).2 !! k' = c !! k').
Proof.
  unfold cache.get. destruct (c !! k) as [e|] eqn:E; [|now split].
  destruct (Z.gtb t (expires e)); [|now split].
  split; [apply delete_subseteq|]. intros k' Hk. now apply lookup_delete_ne.
Qed.

Lemma cache_set_other now iso k v ttl (c : gmap string cache_entry) k' :
  k' <> k -> cache.set now iso k v ttl c !! k' = c !! k'.
Proof. intros Hk. unfold cache.set. now apply lookup_insert_ne. Qed.

Ltac endpoint_answer H :=
  repeat match type of H with
    | (match Web.handleCors ?req with _ => _ end) = _ =>
        let E := fresh "Hcors" in
        destruct (web_handleCors_cases req) as [E|(? & E & ? & ?)]; rewrite E in H
    | (let (_, _) := ?g in _) = _ =>
        let E := fresh "Hget" in destruct g eqn:E
    | (if ?b then _ else _) = _ =>
        let E := fresh "Hif" in destruct b eqn:E
    | (match ?m with Ok _ => _ | Throw _ => _ end) = _ =>
        let E := fresh "Hup" in destruct m eqn:E
    | _ => progress cbv zeta in H
    end.

(** X17.  Whatever the request, the upstream and the times, a cached
    endpoint changes the cache in one way only: a response marked
    [X-Cache: MISS] has status 200 and leaves, under one key, the very body
    it answers with, stamped with the endpoint's lifetime, all other keys
    being as before.  Every other response (preflight, 400, HIT, 502) adds
    and changes nothing: the cache afterwards is contained in the cache
    before. *)
Theorem only_a_miss_writes_the_cache h ttl w t t' c req r c' :
  In (h, ttl) read_endpoints ->
  h w t t' c req = (r, c') ->
  (x_cache r <> Some "MISS" -> c' ⊆ c) /\
  (x_cache r = Some "MISS" ->
     Web.status r = 200%nat /\
     exists key,
       c' !! key = Some {| data := Web.body r;
                           expires := (t' + ttl * 1000)%Z;
                           storedAt := clock_iso w |} /\
       forall k, k <> key -> c' !! k = c !! k).
Proof.
  intros Hin Hh.
  repeat (destruct Hin as [[= <- <-]|Hin]); [| | | | | | | |destruct Hin].
  all: lazymatch type of Hh with ?f _ _ _ _ _ = _ => unfold f in Hh end.
  all: endpoint_answer Hh.
  all: injection Hh as <- <-.
  all: split; intros Hx.
  all: try (rewrite ?x_cache_json, ?x_cache_error in Hx; congruence).
  all: try reflexivity.
  all: try match goal with
         | Hget : cache.get ?t ?k ?c = (_, ?c1) |- ?c1 ⊆ ?c =>
             pose proof (proj1 (cache_get_shrinks t k c)) as Hs;
             rewrite Hget in Hs; exact Hs
         end.
  all: try (split; [reflexivity|]).
  all: match goal with
       | Hget : cache.get ?t ?k ?c = (_, ?c1) |- exists key, _ =>
           exists k; split; [apply cache_get_set_lookup|];
           intros k' Hk'; rewrite cache_set_other by exact Hk';
           pose proof (proj2 (cache_get_shrinks t k c) k' Hk') as Hs;
           rewrite Hget in Hs; exact Hs
       end.
Qed.

Lemma only_a_miss_writes_the_cache_witness :
  let out := Game.handler read_upstream 0 5 ∅ (GET [("gameNumber", "1")]) in
  x_cache out.1 = Some "MISS" /\
  Web.status out.1 = 200%nat /\
  exists key,
    out.2 !! key = Some {| data := Web.body out.1;
                           expires := (5 + Game.CACHE_TTL * 1000)%Z;
                           storedAt := clock_iso read_upstream |}.
Proof.
  intros out.
  assert (Hx : x_cache out.1 = Some "MISS") by reflexivity.
  split; [exact Hx|].
  destruct (proj2 (only_a_miss_writes_the_cache Game.handler Game.CACHE_TTL
                     read_upstream 0 5 ∅ (GET [("gameNumber", "1")]) out.1 out.2
                     (or_introl eq_refl) (surjective_pairing out)) Hx)
    as (Hst & key & Hkey & _).
  split; [exact Hst|]. exists key. exact Hkey.
Defined.

(** X18.  After a MISS, the same request is answered from the cache for the
    endpoint's lifetime, counted from the time of the write and with the
    expiry instant included: the answer is the stored body with
    [X-Cache: HIT], whatever the upstream would say by then, and the cache
    is left as it is.  Strictly after the expiry the answer is never a
    HIT. *)
Theorem a_miss_is_served_again_until_it_expires h ttl w t t' c req r c' :
  In (h, ttl) read_endpoints ->
  h w t t' c req = (r, c') ->
  x_cache r = Some "MISS" ->
  forall w2 t2 t2',
    ((t2 <= t' + ttl * 1000)%Z ->
       h w2 t2 t2' c' req
       = (Web.jsonResponse (Web.body r) 200 [("X-Cache", "HIT")], c')) /\
    ((t' + ttl * 1000 < t2)%Z ->
       x_cache (h w2 t2 t2' c' req).1 <> Some "HIT").
Proof.
  intros Hin Hh Hx w2 t2 t2'.
  repeat (destruct Hin as [[= <- <-]|Hin]); [| | | | | | | |destruct Hin].
  all: lazymatch type of Hh with ?f _ _ _ _ _ = _ => unfold f in Hh |- * end.
  all: endpoint_answer Hh.
  all: injection Hh as <- <-.
  all: try (rewrite ?x_cache_json, ?x_cache_error in Hx; congruence).
  all: try match goal with
         | Hup : (?m ≫= _) = Ok _ |- _ =>
             destruct m; cbn [mbind res_bind] in Hup; [|discriminate Hup];
             match type of Hup with
             | (?m2 ≫= _) = Ok _ =>
                 destruct m2; cbn [mbind res_bind] in Hup; [|discriminate Hup];
                 injection Hup as <-
             end
         end.
  all: rewrite Hcors; cbv zeta; rewrite ?Hif, ?Hif0.
  all: split; intros Ht2.
  all: try (rewrite cache_get_fresh by exact Ht2; reflexivity).
  all: rewrite cache_get_stale by exact Ht2; cbn [truthy].
  all: match goal with
       | |- context [match ?m with Ok _ => _ | Throw _ => _ end] => destruct m
       end.
  all: cbn [fst]; rewrite ?x_cache_json, ?x_cache_error; discriminate.
Qed.

Lemma a_miss_is_served_again_until_it_expires_witness :
  let req := GET [("gameNumber", "1")] in
  let out := Game.handler read_upstream 0 5 ∅ req in
  x_cache out.1 = Some "MISS" /\
  (60005 <= 5 + Game.CACHE_TTL * 1000)%Z /\
  Game.handler unknown_season 60005 60010 out.2 req
  = (Web.jsonResponse (Web.body out.1) 200 [("X-Cache", "HIT")], out.2).
Proof.
  intros req out.
  assert (Hx : x_cache out.1 = Some "MISS") by reflexivity.
  assert (Ht : (60005 <= 5 + Game.CACHE_TTL * 1000)%Z) by (unfold Game.CACHE_TTL; lia).
  split; [exact Hx|]. split; [exact Ht|].
  exact (proj1 (a_miss_is_served_again_until_it_expires Game.handler Game.CACHE_TTL
                  read_upstream 0 5 ∅ req out.1 out.2 (or_introl eq_refl)
                  (surjective_pairing out) Hx unknown_season 60005 60010) Ht).
Defined.

(** ** Validation, cache keys and the shape of the enriched body *)

Lemma web_handleCors_not_preflight req :
  req_method req <> "OPTIONS" -> Web.handleCors req = None.
Proof.
  intros H. unfold Web.handleCors.
  apply String.eqb_neq in H. now rewrite H.
Qed.

(** X19.  [/api/game] rejects a request before it looks at the cache or
    asks the upstream: without [gameNumber] (absent or empty) the answer is
    the 400 about the missing parameter, whatever the competition code; with
    it, a code other than E or U (in either case of the letter) gives the 400
    about the code.  The cache is left as it is, and these are the only
    requests answered with 400. *)
Theorem game_rejects_before_cache_and_upstream w t t' c req :
  req_method req <> "OPTIONS" ->
  let gameNumber := req_params req !! "gameNumber" in
  let code := toUpperCase (default "E" (req_params req !! "code")) in
  let out := Game.handler w t t' c req in
  (Web.missing gameNumber = true ->
     out = (Web.errorResponse w "Missing required param: gameNumber" 400, c)) /\
  (Web.missing gameNumber = false -> code <> "E" -> code <> "U" ->
     out = (Web.errorResponse w "Invalid code. Use E (EuroLeague) or U (EuroCup)" 400,
            c)) /\
  (Web.status out.1 = 400%nat <->
   Web.missing gameNumber = true \/ (code <> "E" /\ code <> "U")).
Proof.
  intros Hm gameNumber code out. unfold out, Game.handler.
  rewrite (web_handleCors_not_preflight req Hm). cbv zeta.
  fold gameNumber. fold code. cbn [existsb].
  destruct (Web.missing gameNumber) eqn:Hmiss.
  { split; [reflexivity|]. split; [discriminate|].
    split; [intros _; now left|intros _; reflexivity]. }
  split; [discriminate|].
  destruct (String.eqb_spec code "E") as [HE|HE].
  - cbn [orb negb]. split; [congruence|].
    destruct (cache.get t _ c) as [cached c1].
    destruct (truthy cached); [|destruct (euroFetch w _)]; cbn [fst Web.status];
      (split; [discriminate|intros [H|[H _]]; [discriminate|congruence]]).
  - destruct (String.eqb_spec code "U") as [HU|HU].
    + cbn [orb negb]. split; [congruence|].
      destruct (cache.get t _ c) as [cached c1].
      destruct (truthy cached); [|destruct (euroFetch w _)]; cbn [fst Web.status];
        (split; [discriminate|intros [H|[_ H]]; [discriminate|congruence]]).
    + cbn [orb negb]. split; [reflexivity|].
      split; [intros _; right; now split|intros _; reflexivity].
Qed.

Lemma game_rejects_before_cache_and_upstream_witness :
  req_method (GET [("code", "J"); ("gameNumber", "1")]) <> "OPTIONS" /\
  Web.status (Game.handler read_upstream 0 5 ∅
                (GET [("code", "J"); ("gameNumber", "1")])).1 = 400%nat.
Proof.
  assert (H : req_method (GET [("code", "J"); ("gameNumber", "1")]) <> "OPTIONS")
    by discriminate.
  split; [exact H|].
  pose proof (game_rejects_before_cache_and_upstream read_upstream 0 5 ∅
                (GET [("code", "J"); ("gameNumber", "1")]) H) as P.
  cbv zeta in P. destruct P as (_ & _ & P). apply P. right. split; discriminate.
Defined.

Ltac unfold_enriched :=
  try match goal with
    | Hup : (?m ≫= _) = Ok _ |- _ =>
        destruct m; cbn [mbind res_bind] in Hup; [|discriminate Hup];
        match type of Hup with
        | (?m2 ≫= _) = Ok _ =>
            destruct m2; cbn [mbind res_bind] in Hup; [|discriminate Hup];
            injection Hup as <-
        end
    end.

(** X20.  The cache keys of [/api/boxscore] and [/api/pbp] hold the season
    code and the game number but not the competition code the upstream path
    is built from.  After a MISS, any request with the same resolved season
    code and the same game number is answered, within the lifetime, with the
    stored body of the first one, whatever its own [code], [season] or
    [seasonCode] parameters and whatever the upstream holds for it. *)
Theorem boxscore_and_pbp_share_entries_across_competitions
    h w t t' c req1 r c' req2 w2 t2 t2' :
  In h [BoxscoreApi.handler; Pbp.handler] ->
  h w t t' c req1 = (r, c') ->
  x_cache r = Some "MISS" ->
  req_method req2 <> "OPTIONS" ->
  getSeasonCode (req_params req2) = getSeasonCode (req_params req1) ->
  req_params req2 !! "gameNumber" = req_params req1 !! "gameNumber" ->
  (t2 <= t' + 60 * 1000)%Z ->
  h w2 t2 t2' c' req2
  = (Web.jsonResponse (Web.body r) 200 [("X-Cache", "HIT")], c').
Proof.
  intros Hin Hh Hx Hm Hsc Hgn Ht2.
  repeat (destruct Hin as [<-|Hin]); [| |destruct Hin].
  all: lazymatch type of Hh with ?f _ _ _ _ _ = _ => unfold f in Hh |- * end.
  all: endpoint_answer Hh.
  all: injection Hh as <- <-.
  all: try (rewrite ?x_cache_json, ?x_cache_error in Hx; congruence).
  all: unfold_enriched.
  all: rewrite (web_handleCors_not_preflight req2 Hm); cbv zeta.
  all: rewrite Hsc, Hgn, Hif.
  all: rewrite cache_get_fresh by exact Ht2; reflexivity.
Qed.

Lemma boxscore_and_pbp_share_entries_across_competitions_witness :
  let req1 := GET [("gameNumber", "1")] in
  let req2 := GET [("code", "U"); ("seasonCode", "E2025"); ("gameNumber", "1")] in
  let out := BoxscoreApi.handler read_upstream 0 5 ∅ req1 in
  x_cache out.1 = Some "MISS" /\
  field (field (field (Web.body out.1) "_meta") "params") "code" = VStr "E" /\
  BoxscoreApi.handler read_upstream 10 15 out.2 req2
  = (Web.jsonResponse (Web.body out.1) 200 [("X-Cache", "HIT")], out.2).
Proof.
  intros req1 req2 out.
  assert (Hx : x_cache out.1 = Some "MISS") by reflexivity.
  split; [exact Hx|]. split; [reflexivity|].
  apply (boxscore_and_pbp_share_entries_across_competitions BoxscoreApi.handler
           read_upstream 0 5 ∅ req1 out.1 out.2 req2 read_upstream 10 15
           (or_introl eq_refl) (surjective_pairing out) Hx).
  - discriminate.
  - reflexivity.
  - reflexivity.
  - lia.
Defined.

(** X21.  [/api/rounds] stores the unfiltered list under the round name
    ["all"], which a request can also give as its [round]: the two requests
    ask the upstream for different paths ([/rounds] and [/rounds/all]) but
    share one cache entry, so that within the lifetime either is answered
    with what the other one stored.  More generally the answer depends only
    on the resolved season code and on [round || "all"]. *)
Theorem rounds_all_names_the_unfiltered_entry w t t' c req1 r c' req2 w2 t2 t2' :
  Rounds.handler w t t' c req1 = (r, c') ->
  x_cache r = Some "MISS" ->
  req_method req2 <> "OPTIONS" ->
  getSeasonCode (req_params req2) = getSeasonCode (req_params req1) ->
  Web.or_else (req_params req2 !! "round") "all"
  = Web.or_else (req_params req1 !! "round") "all" ->
  (t2 <= t' + 300 * 1000)%Z ->
  Rounds.handler w2 t2 t2' c' req2
  = (Web.jsonResponse (Web.body r) 200 [("X-Cache", "HIT")], c').
Proof.
  intros Hh Hx Hm Hsc Hround Ht2.
  unfold Rounds.handler in Hh |- *.
  endpoint_answer Hh.
  all: injection Hh as <- <-.
  all: try (rewrite ?x_cache_json, ?x_cache_error in Hx; congruence).
  all: rewrite (web_handleCors_not_preflight req2 Hm); cbv zeta.
  all: rewrite Hsc, Hround.
  all: rewrite cache_get_fresh by exact Ht2; reflexivity.
Qed.

Lemma rounds_all_names_the_unfiltered_entry_witness :
  let req1 := GET [] in
  let req2 := GET [("round", "all")] in
  let out := Rounds.handler rounds_upstream 0 5 ∅ req1 in
  x_cache out.1 = Some "MISS" /\
  Web.status (Rounds.handler rounds_upstream 0 5 ∅ req2).1 = 502%nat /\
  Rounds.handler rounds_upstream 10 15 out.2 req2
  = (Web.jsonResponse (Web.body out.1) 200 [("X-Cache", "HIT")], out.2).
Proof.
  intros req1 req2 out.
  assert (Hx : x_cache out.1 = Some "MISS") by reflexivity.
  split; [exact Hx|]. split; [reflexivity|].
  apply (rounds_all_names_the_unfiltered_entry rounds_upstream 0 5 ∅ req1 out.1 out.2
           req2 rounds_upstream 10 15 (surjective_pairing out) Hx).
  - discriminate.
  - reflexivity.
  - reflexivity.
  - lia.
Defined.

Lemma assoc_put_same k v l : assoc k (put k v l) = v.
Proof.
  induction l as [|[k' v'] l IH]; simpl.
  - now rewrite String.eqb_refl.
  - destruct (String.eqb k k') eqn:E; simpl; [now rewrite String.eqb_refl|].
    now rewrite E.
Qed.

Lemma assoc_put_other k k' v l : k' <> k -> assoc k' (put k v l) = assoc k' l.
Proof.
  intros Hk. apply String.eqb_neq in Hk.
  induction l as [|[k0 v0] l IH]; simpl.
  - now rewrite Hk.
  - destruct (String.eqb k k0) eqn:E; simpl.
    + apply String.eqb_eq in E. subst k0. now rewrite Hk.
    + now rewrite IH.
Qed.

Lemma keys_put {A} k (v : A) l :
  map fst (put k v l)
  = if existsb (String.eqb k) (map fst l) then map fst l else map fst l ++ [k].
Proof.
  induction l as [|[k' v'] l IH]; simpl; [reflexivity|].
  destruct (String.eqb k k') eqn:E; simpl.
  - apply String.eqb_eq in E. now subst k'.
  - rewrite IH. now destruct (existsb (String.eqb k) (map fst l)).
Qed.

Lemma string_of_nat_inj i j : string_of_nat i = string_of_nat j -> i = j.
Proof.
  unfold string_of_nat. intros H.
  apply (f_equal NilEmpty.uint_of_string) in H. rewrite !NilEmpty.usu in H.
  injection H as H. apply (f_equal Nat.of_uint) in H.
  now rewrite !DecimalNat.Unsigned.of_to in H.
Qed.

Lemma string_of_nat_not_meta i : string_of_nat i <> "_meta".
Proof.
  unfold string_of_nat. intros H.
  apply (f_equal NilEmpty.uint_of_string) in H. rewrite NilEmpty.usu in H.
  discriminate H.
Qed.

Lemma assoc_indexed l : forall k i,
  assoc (string_of_nat (k + i)) (indexed k l) = nth i l VUndefined.
Proof.
  induction l as [|x rest IH]; intros k i; simpl.
  - now destruct i.
  - destruct i as [|i].
    + rewrite Nat.add_0_r. now rewrite String.eqb_refl.
    + destruct (String.eqb_spec (string_of_nat (k + S i)) (string_of_nat k)) as [E|_].
      * apply string_of_nat_inj in E. lia.
      * rewrite <- (IH (S k) i). f_equal. f_equal. lia.
Qed.

(** X22.  The body [{...data, _meta}] of every endpoint: its [_meta] is the
    endpoint's own, also when the upstream document has a [_meta] of its
    own, which is replaced where it stands; every other property of an
    upstream object is passed on unchanged and in the upstream order, with
    [_meta] added last when the upstream has none; an upstream document
    without properties to copy ([null], a number, a boolean) gives the body
    [{_meta}] alone; and an upstream array does not stay an array: the body
    is an object that holds element [i] under the key ["i"]. *)
Theorem enrich_sets_meta_and_keeps_the_rest (data meta : value) :
  field (enrich data meta) "_meta" = meta /\
  (forall fields k,
      data = VObj fields -> k <> "_meta" ->
      field (enrich data meta) k = field data k) /\
  (forall fields,
      data = VObj fields ->
      map fst (spread (enrich data meta))
      = if existsb (String.eqb "_meta") (map fst fields)
        then map fst fields else map fst fields ++ ["_meta"]) /\
  (spread data = [] -> enrich data meta = VObj [("_meta", meta)]) /\
  (forall l i,
      data = VArr l ->
      isArray (enrich data meta) = false /\
      field (enrich data meta) (string_of_nat i) = nth i l VUndefined).
Proof.
  unfold enrich. cbn [field spread].
  split; [apply assoc_put_same|].
  split; [intros fields k -> Hk; now apply assoc_put_other|].
  split; [intros fields ->; apply keys_put|].
  split; [intros ->; reflexivity|].
  intros l i ->. split; [reflexivity|]. cbn [spread].
  rewrite assoc_put_other by apply string_of_nat_not_meta.
  apply (assoc_indexed l 0 i).
Qed.

(** X23.  [/api/pbp] on a request that reaches the upstream (a game number
    is given and the cache holds nothing live for it), the upstream
    answering 200 with the JSON document [data]: when [data] is [null] the
    answer is 502, since [data.data] throws; otherwise it is 200 and
    [_meta.totalPlays] is the length of [data.data] when that is an array
    and [null] in every other case (absent, an object, a string). *)
Theorem pbp_counts_the_plays w t t' c req data :
  req_method req <> "OPTIONS" ->
  Web.missing (req_params req !! "gameNumber") = false ->
  (forall url, http_get w url = json_reply 200 data) ->
  let out := Pbp.handler w t t' c req in
  x_cache out.1 <> Some "HIT" ->
  (nullish data = true -> Web.status out.1 = 502%nat) /\
  (nullish data = false ->
     Web.status out.1 = 200%nat /\
     field (field (Web.body out.1) "_meta") "totalPlays"
     = match field data "data" with
       | VArr plays => VNat (length plays)
       | _ => VNull
       end).
Proof.
  intros Hm Hgn Hw out. unfold out, Pbp.handler.
  rewrite (web_handleCors_not_preflight req Hm). cbv zeta. rewrite Hgn.
  destruct (cache.get t _ c) as [cached c1].
  destruct (truthy cached).
  { cbn [fst]. rewrite x_cache_json. congruence. }
  intros _. unfold euroFetch. rewrite Hw. cbn [json_reply mbind res_bind reply_ok
    reply_status reply_json Nat.leb andb negb].
  unfold get. destruct (nullish data) eqn:Hn; cbn [mbind res_bind fst].
  - split; [reflexivity|discriminate].
  - split; [discriminate|]. intros _. split; [reflexivity|].
    cbn [Web.body Web.jsonResponse]. unfold enrich. cbn [field].
    rewrite assoc_put_same. cbn [field].
    destruct data as [| | | | | |fields]; try discriminate Hn; cbn [field];
      try reflexivity.
    destruct (assoc "data" fields); reflexivity.
Qed.

Lemma pbp_counts_the_plays_witness :
  let req := GET [("gameNumber", "1")] in
  req_method req <> "OPTIONS" /\
  Web.status (Pbp.handler null_upstream 0 5 ∅ req).1 = 502%nat.
Proof.
  intros req.
  assert (Hm : req_method req <> "OPTIONS") by discriminate.
  split; [exact Hm|].
  assert (Hx : x_cache (Pbp.handler null_upstream 0 5 ∅ req).1 <> Some "HIT")
    by discriminate.
  exact (proj1 (pbp_counts_the_plays null_upstream 0 5 ∅ req VNull Hm eq_refl
                  (fun _ => eq_refl) Hx) eq_refl).
Defined.

(** X24.  [/api/player] on a request that reaches the upstream and gets the
    profile: the answer is 200 with the profile whatever happens to the
    season statistics.  They are asked for only when [stats] is ["true"] or
    ["1"] and a [season] or [seasonCode] is given; without that the body has
    no [seasonStats] at all.  When they are asked for and the call fails, the
    body carries [seasonStats: null] and the one-line [_warnings] instead of
    the request failing; when it succeeds, the statistics and no warning. *)
Theorem player_tolerates_missing_season_stats w t t' c req profile :
  req_method req <> "OPTIONS" ->
  let params := req_params req in
  let code := default "E" (params !! "code") in
  let personCode := default "" (params !! "personCode") in
  let includeStats :=
    match params !! "stats" with
    | Some s => String.eqb s "true" || String.eqb s "1"
    | None => false
    end in
  let stats_path :=
    "/competitions/" +:+ toUpperCase code +:+ "/seasons/" +:+ getSeasonCode params
    +:+ "/people/" +:+ personCode +:+ "/stats" in
  let out := Player.handler w t t' c req in
  Web.missing (params !! "personCode") = false ->
  euroFetch w ("/competitions/" +:+ toUpperCase code +:+ "/persons/" +:+ personCode)
  = Ok profile ->
  x_cache out.1 <> Some "HIT" ->
  Web.status out.1 = 200%nat /\
  x_cache out.1 = Some "MISS" /\
  field (Web.body out.1) "profile" = profile /\
  (Player.wants_stats includeStats params = false ->
     field (Web.body out.1) "seasonStats" = VUndefined /\
     field (Web.body out.1) "_warnings" = VUndefined) /\
  (Player.wants_stats includeStats params = true ->
     (forall message,
         euroFetch w stats_path = Throw message ->
         field (Web.body out.1) "seasonStats" = VNull /\
         field (Web.body out.1) "_warnings"
         = VArr [VStr "Season stats not available for this player/season"]) /\
     (forall seasonStats,
         euroFetch w stats_path = Ok seasonStats ->
         field (Web.body out.1) "seasonStats" = seasonStats /\
         field (Web.body out.1) "_warnings" = VUndefined)).
Proof.
  intros Hm params code personCode includeStats stats_path out Hpc Hprofile.
  unfold out, Player.handler.
  rewrite (web_handleCors_not_preflight req Hm). cbv zeta.
  fold params. rewrite Hpc. fold code. fold personCode. fold includeStats.
  destruct (cache.get t _ c) as [cached c1].
  destruct (truthy cached).
  { cbn [fst]. rewrite x_cache_json. congruence. }
  intros _. rewrite Hprofile. fold stats_path.
  cbn [fst Web.body Web.status Web.jsonResponse field].
  split; [reflexivity|]. split; [reflexivity|].
  destruct (Player.wants_stats includeStats params).
  - destruct (euroFetch w stats_path) as [seasonStats|message].
    + split; [reflexivity|]. split; [discriminate|]. intros _.
      split; [discriminate|]. intros ? [= <-]. split; reflexivity.
    + split; [reflexivity|]. split; [discriminate|]. intros _.
      split; [|discriminate]. intros ? _. split; reflexivity.
  - split; [reflexivity|]. split; [|discriminate]. intros _. split; reflexivity.
Qed.

Lemma player_tolerates_missing_season_stats_witness :
  let req := GET [("personCode", "P1"); ("season", "2025"); ("stats", "true")] in
  let out := Player.handler profile_only 0 5 ∅ req in
  req_method req <> "OPTIONS" /\
  Web.status out.1 = 200%nat /\
  field (Web.body out.1) "seasonStats" = VNull.
Proof.
  intros req out.
  assert (Hm : req_method req <> "OPTIONS") by discriminate.
  assert (Hx : x_cache out.1 <> Some "HIT") by discriminate.
  pose proof (player_tolerates_missing_season_stats profile_only 0 5 ∅ req
                (VObj [("name", VStr "P ONE")]) Hm eq_refl eq_refl Hx) as P.
  cbv zeta in P. destruct P as (Hst & _ & _ & _ & Hstats).
  split; [exact Hm|]. split; [exact Hst|].
  destruct (Hstats eq_refl) as [Hfail _].
  exact (proj1 (Hfail _ eq_refl)).
Defined.

(** X25.  The cache key of [/api/player] holds [code], [personCode],
    [season] and whether statistics were asked for, but not the [seasonCode]
    parameter, although the season statistics are fetched for the season
    code resolved from it.  After a MISS, a request that differs in
    [seasonCode] only is answered, within the lifetime, with the stored body
    of the first one, statistics of the first season included. *)
Theorem player_cache_ignores_the_season_code w t t' c req1 r c' req2 w2 t2 t2' :
  Player.handler w t t' c req1 = (r, c') ->
  x_cache r = Some "MISS" ->
  req_method req2 <> "OPTIONS" ->
  (forall name, name <> "seasonCode" ->
                req_params req2 !! name = req_params req1 !! name) ->
  (t2 <= t' + 300 * 1000)%Z ->
  Player.handler w2 t2 t2' c' req2
  = (Web.jsonResponse (Web.body r) 200 [("X-Cache", "HIT")], c').
Proof.
  intros Hh Hx Hm Hsame Ht2.
  unfold Player.handler in Hh |- *.
  endpoint_answer Hh.
  all: injection Hh as <- <-.
  all: try (rewrite ?x_cache_json, ?x_cache_error in Hx; congruence).
  all: rewrite (web_handleCors_not_preflight req2 Hm); cbv zeta.
  all: rewrite (Hsame "personCode"), (Hsame "code"), (Hsame "season"),
         (Hsame "stats") by discriminate.
  all: rewrite Hif.
  all: rewrite cache_get_fresh by exact Ht2; reflexivity.
Qed.

Lemma player_cache_ignores_the_season_code_witness :
  let req1 := GET [("personCode", "P1"); ("seasonCode", "E2024"); ("stats", "1")] in
  let req2 := GET [("personCode", "P1"); ("seasonCode", "E2025"); ("stats", "1")] in
  let out := Player.handler profile_only 0 5 ∅ req1 in
  x_cache out.1 = Some "MISS" /\
  Player.handler profile_only 10 15 out.2 req2
  = (Web.jsonResponse (Web.body out.1) 200 [("X-Cache", "HIT")], out.2).
Proof.
  intros req1 req2 out.
  assert (Hx : x_cache out.1 = Some "MISS") by reflexivity.
  split; [exact Hx|].
  apply (player_cache_ignores_the_season_code profile_only 0 5 ∅ req1 out.1 out.2
           req2 profile_only 10 15 (surjective_pairing out) Hx).
  - discriminate.
  - intros name Hname. unfold req1, req2, GET.
    cbn [req_params list_to_map foldr fst snd].
    destruct (decide (name = "personCode")) as [->|H1]; [reflexivity|].
    rewrite !(lookup_insert_ne _ "personCode" name) by congruence.
    rewrite !(lookup_insert_ne _ "seasonCode" name) by congruence.
    reflexivity.
  - lia.
Defined.

(** ** The season-code override and the endpoint it replaced *)

Lemma getSeasonCode_without_override params :
  Web.missing (params !! "seasonCode") = true ->
  getSeasonCode params
  = buildSeasonCode (Some (default "E" (params !! "code")))
      (Some (default "2025" (params !! "season"))) None.
Proof.
  unfold getSeasonCode, Web.missing. cbv zeta.
  destruct (params !! "seasonCode") as [s|]; [|reflexivity].
  intros ->. reflexivity.
Qed.

(** X26.  The [/api/boxscore] that resolves the season code through
    [getSeasonCode] behaves, on every request without a [seasonCode]
    parameter (absent or empty), as the version it replaced, which built the
    season code from [code] and [season]: same status, same headers, same
    cache key and expiry, the same response altogether unless it is a MISS,
    and on a MISS the same body except for [_meta] (whose [params] no longer
    list [season]). *)
Theorem boxscore_override_is_backward_compatible w t t' c req :
  Web.missing (req_params req !! "seasonCode") = true ->
  let old := BoxscoreSeason.handler w t t' c req in
  let new := BoxscoreApi.handler w t t' c req in
  Web.status new.1 = Web.status old.1 /\
  Web.headers new.1 = Web.headers old.1 /\
  (forall k, k <> "_meta" -> field (Web.body new.1) k = field (Web.body old.1) k) /\
  (forall k, expires <$> new.2 !! k = expires <$> old.2 !! k) /\
  (x_cache old.1 <> Some "MISS" -> new = old).
Proof.
  intros Hsc old new. unfold old, new, BoxscoreSeason.handler, BoxscoreApi.handler.
  destruct (Web.handleCors req) as [corsRes|].
  { repeat split; reflexivity. }
  cbv zeta. rewrite (getSeasonCode_without_override _ Hsc).
  destruct (Web.missing (req_params req !! "gameNumber")).
  { repeat split; reflexivity. }
  destruct (cache.get t _ c) as [cached c1].
  destruct (truthy cached).
  { repeat split; reflexivity. }
  destruct (euroFetch w _) as [data|message].
  - cbn [fst snd Web.status Web.headers Web.body Web.jsonResponse].
    split; [reflexivity|]. split; [reflexivity|].
    split.
    { intros k Hk. unfold enrich. cbn [field].
      now rewrite !assoc_put_other by exact Hk. }
    split.
    { intros k. unfold cache.set.
      destruct (decide (k = "boxscore:"
                            +:+ buildSeasonCode
                                  (Some (default "E" (req_params req !! "code")))
                                  (Some (default "2025" (req_params req !! "season")))
                                  None
                            +:+ ":" +:+ default "" (req_params req !! "gameNumber")))
        as [->|Hk].
      - now rewrite !lookup_insert_eq.
      - now rewrite !lookup_insert_ne by congruence. }
    rewrite x_cache_json. congruence.
  - repeat split; reflexivity.
Qed.

Lemma boxscore_override_is_backward_compatible_witness :
  let req := GET [("gameNumber", "1")] in
  Web.missing (req_params req !! "seasonCode") = true /\
  Web.status (BoxscoreApi.handler read_upstream 0 5 ∅ req).1
  = Web.status (BoxscoreSeason.handler read_upstream 0 5 ∅ req).1.
Proof.
  intros req.
  assert (H : Web.missing (req_params req !! "seasonCode") = true) by reflexivity.
  split; [exact H|].
  pose proof (boxscore_override_is_backward_compatible read_upstream 0 5 ∅ req H) as P.
  cbv zeta in P. exact (proj1 P).
Defined.

(** ** The columns of a [player_stats] row *)

Lemma nullish_js_nn a b : nullish b = false -> nullish (js_nn a b) = false.
Proof. unfold js_nn. destruct (nullish a) eqn:E; congruence. Qed.

Lemma nullish_js_nn_zero a : nullish (js_nn a (VNat 0)) = false.
Proof. now apply nullish_js_nn. Qed.

Lemma nullish_js_add w a b : nullish (js_add w a b) = false.
Proof. unfold js_add. now destruct (as_addend a), (as_addend b). Qed.

Lemma js_or_null a : truthy (js_or a VNull) = true \/ js_or a VNull = VNull.
Proof. unfold js_or. destruct (truthy a) eqn:E; auto. Qed.

Ltac column :=
  first [ exact (nullish_js_nn_zero _)
        | exact (nullish_js_add _ _ _)
        | exact (nullish_js_nn _ _ (nullish_js_add _ _ _))
        | simple refine (nullish_js_nn _ _ _); reflexivity
        | exact (js_or_null _)
        | reflexivity ].

Lemma js_nn_nullish a b : nullish a = true -> js_nn a b = b.
Proof. unfold js_nn. now intros ->. Qed.

Ltac in_list := cbn [In]; repeat (first [left; reflexivity | right]).

(** X27.  The counting columns of a row built by [transformPlayerStats].
    Whatever the entry holds, none of them is [null] or [undefined] (either
    version).  For an entry without any statistics the [/stats] version
    stores 0 in every one of them, the sums included; the [/boxscore] version
    stores 0 in every column that ends in [?? 0] and [false] in
    [is_starter], but [NaN] in [field_goals_made] and
    [field_goals_attempted], whose sum of two missing splits is not a
    missing value.  The describing columns built with [|| null] are truthy
    or exactly [null], so that a falsy upstream value (0, the empty string,
    [false]) never reaches the store in those columns. *)
Theorem player_row_columns_are_total (w : World) :
  (forall player gameInfo teamInfo isLocal row,
      Boxscore.transformPlayerStats w player gameInfo teamInfo isLocal = Ok row ->
      Forall (fun col => nullish (col row) = false) boxscore_counting_columns /\
      Forall (fun col => truthy (col row) = true \/ col row = VNull)
        boxscore_descriptive_columns /\
      ((forall k, In k boxscore_stat_keys -> field player k = VUndefined) ->
       Forall (fun col => col row = VNat 0) boxscore_defaulted_columns /\
       Boxscore.is_starter row = VBool false /\
       Boxscore.field_goals_made row = VNum NaN /\
       Boxscore.field_goals_attempted row = VNum NaN)) /\
  (forall entry gameInfo teamCode teamName teamTvCode isLocal row,
      Stats.transformPlayerStats w entry gameInfo teamCode teamName teamTvCode isLocal
      = Ok row ->
      Forall (fun col => nullish (col row) = false) stats_counting_columns /\
      Forall (fun col => truthy (col row) = true \/ col row = VNull)
        stats_descriptive_columns /\
      ((forall k, In k stats_stat_keys ->
                  nullish (field (js_or (field entry "stats") (VObj [])) k) = true) ->
       Forall (fun col => col row = VNat 0) stats_counting_columns)).
Proof.
  split.
  - intros player gameInfo teamInfo isLocal row H.
    unfold Boxscore.transformPlayerStats in H.
    destruct (get player "personCode") as [personCode|]; [|discriminate H].
    cbn [mbind res_bind] in H. injection H as <-.
    cbv zeta.
    split; [|split].
    1-2: repeat apply List.Forall_cons; try apply List.Forall_nil; column.
    intros Hmissing.
    split; [|split; [|split]].
    + repeat apply List.Forall_cons; try apply List.Forall_nil.
      all: lazymatch goal with
           | |- ?col ?r = _ =>
               let t := eval cbv beta iota delta
                          [Boxscore.points Boxscore.two_points_made
                           Boxscore.two_points_attempted Boxscore.three_points_made
                           Boxscore.three_points_attempted Boxscore.free_throws_made
                           Boxscore.free_throws_attempted Boxscore.offensive_rebounds
                           Boxscore.defensive_rebounds Boxscore.total_rebounds
                           Boxscore.assists Boxscore.turnovers Boxscore.steals
                           Boxscore.blocks_favour Boxscore.blocks_against
                           Boxscore.fouls_committed Boxscore.fouls_received
                           Boxscore.pir Boxscore.plus_minus Boxscore.minutes_decimal]
                        in (col r) in
               change (t = VNat 0)
           end.
      all: repeat match goal with
             | |- context [field _ ?k] => rewrite (Hmissing k) by in_list
             end.
      all: vm_compute; reflexivity.
    + cbn [Boxscore.is_starter]. now rewrite (Hmissing "isStarter") by in_list.
    + cbn [Boxscore.field_goals_made].
      now rewrite (Hmissing "fieldGoalsMade2"), (Hmissing "fieldGoalsMade3") by in_list.
    + cbn [Boxscore.field_goals_attempted].
      now rewrite (Hmissing "fieldGoalsAttempted2"), (Hmissing "fieldGoalsAttempted3")
        by in_list.
  - intros entry gameInfo teamCode teamName teamTvCode isLocal row H.
    unfold Stats.transformPlayerStats in H.
    destruct (get entry "player") as [player|]; [|discriminate H].
    cbn [mbind res_bind] in H. injection H as <-.
    cbv zeta.
    split; [|split].
    1-2: repeat apply List.Forall_cons; try apply List.Forall_nil; column.
    intros Hmissing.
    repeat apply List.Forall_cons; try apply List.Forall_nil.
    all: lazymatch goal with
         | |- ?col ?r = _ =>
             let t := eval cbv beta iota delta
                        [Stats.points Stats.field_goals_made Stats.field_goals_attempted
                         Stats.two_points_made Stats.two_points_attempted
                         Stats.three_points_made Stats.three_points_attempted
                         Stats.free_throws_made Stats.free_throws_attempted
                         Stats.offensive_rebounds Stats.defensive_rebounds
                         Stats.total_rebounds Stats.assists Stats.turnovers Stats.steals
                         Stats.blocks_favour Stats.blocks_against
                         Stats.fouls_committed Stats.fouls_received
                         Stats.pir Stats.plus_minus Stats.minutes_decimal]
                      in (col r) in
             change (t = VNat 0)
         end.
    all: repeat match goal with
           | |- context [js_nn (field ?s ?k) ?d] =>
               rewrite (js_nn_nullish (field s k) d) by (apply Hmissing; in_list)
           end.
    all: vm_compute; reflexivity.
Qed.

Lemma player_row_columns_are_total_witness :
  exists row,
    Boxscore.transformPlayerStats (world [])
      (VObj [("personCode", VStr "P1"); ("dorsal", VNat 0)]) (VObj []) (VObj []) true
    = Ok row /\
    Boxscore.dorsal row = VNull /\
    Boxscore.points row = VNat 0 /\
    Boxscore.field_goals_made row = VNum NaN.
Proof.
  destruct (Boxscore.transformPlayerStats (world [])
              (VObj [("personCode", VStr "P1"); ("dorsal", VNat 0)]) (VObj [])
              (VObj []) true) as [row|] eqn:E; [|discriminate E].
  exists row. split; [reflexivity|].
  split; [injection E as <-; reflexivity|].
  destruct (proj1 (player_row_columns_are_total (world [])) _ _ _ _ _ E)
    as (_ & _ & Hnone).
  destruct Hnone as (Hzero & _ & Hnan & _).
  { intros k Hk. cbn [In boxscore_stat_keys] in Hk.
    repeat (destruct Hk as [<-|Hk]; [reflexivity|]). destruct Hk. }
  split; [exact (List.Forall_inv Hzero)|exact Hnan].
Defined.

(** ** Statuses and headers of the read endpoints *)

Lemma web_handleCors_preflight req :
  req_method req = "OPTIONS" ->
  Web.handleCors req
  = Some {| Web.status := 204; Web.body := VNull; Web.headers := Web.corsHeaders |}.
Proof. intros H. unfold Web.handleCors. now rewrite H. Qed.

(** X28.  The responses of the cached endpoints, whatever the request, the
    cache and the upstream: the status is 204, 400, 200 or 502 and nothing
    else (an upstream status is never passed on, and there is no 500); it is
    204 exactly for a preflight and 200 exactly when an [X-Cache] header is
    present; every response carries the three CORS headers; every response
    but the preflight is declared as JSON; and a 400 or 502 has the body
    [{error, timestamp}]. *)
Theorem read_endpoints_statuses_and_headers h ttl w t t' c req r c' :
  In (h, ttl) read_endpoints ->
  h w t t' c req = (r, c') ->
  In (Web.status r) [204; 400; 200; 502]%nat /\
  (Web.status r = 204%nat <-> req_method req = "OPTIONS") /\
  (Web.status r = 200%nat <-> is_Some (x_cache r)) /\
  Forall (fun kv => header_of kv.1 (Web.headers r) = Some kv.2) Web.corsHeaders /\
  (req_method req <> "OPTIONS" ->
     header_of "Content-Type" (Web.headers r) = Some "application/json") /\
  (Web.status r = 400%nat \/ Web.status r = 502%nat ->
     exists message,
       Web.body r = VObj [("error", VStr message); ("timestamp", VStr (clock_iso w))]).
Proof.
  intros Hin Hh.
  assert (Hnone : ~ is_Some (@None string)) by (intros [? ?]; discriminate).
  destruct (String.eqb_spec (req_method req) "OPTIONS") as [Hm|Hm].
  - repeat (destruct Hin as [[= <- <-]|Hin]); [| | | | | | | |destruct Hin].
    all: lazymatch type of Hh with ?f _ _ _ _ _ = _ => unfold f in Hh end.
    all: rewrite (web_handleCors_preflight req Hm) in Hh; injection Hh as <- <-.
    all: cbn [Web.status Web.body Web.headers].
    all: split; [cbn; auto|].
    all: split; [tauto|].
    all: split; [split; [discriminate|intros H; now apply Hnone in H]|].
    all: split; [repeat apply List.Forall_cons; try apply List.Forall_nil; reflexivity|].
    all: split; [congruence|intros [H|H]; discriminate H].
  - repeat (destruct Hin as [[= <- <-]|Hin]); [| | | | | | | |destruct Hin].
    all: lazymatch type of Hh with ?f _ _ _ _ _ = _ => unfold f in Hh end.
    all: rewrite (web_handleCors_not_preflight req Hm) in Hh.
    all: endpoint_answer Hh.
    all: injection Hh as <- <-.
    all: cbn [Web.status Web.body Web.jsonResponse Web.errorResponse].
    all: split; [cbn; auto|].
    all: split; [split; [discriminate|congruence]|].
    all: split;
      [first [ split; [reflexivity|intros _; reflexivity]
             | split; [intros _; rewrite x_cache_json; eauto|reflexivity]
             | split; [discriminate|rewrite x_cache_error; intros H; now apply Hnone in H] ]|].
    all: split; [repeat apply List.Forall_cons; try apply List.Forall_nil; reflexivity|].
    all: split; [intros _; reflexivity|].
    all: intros [H|H]; try discriminate H; eauto.
Qed.

Lemma read_endpoints_statuses_and_headers_witness :
  let out := Standings.handler unknown_season 0 5 ∅ (GET []) in
  Web.status out.1 = 502%nat /\
  header_of "Access-Control-Allow-Origin" (Web.headers out.1) = Some "*".
Proof.
  intros out.
  pose proof (read_endpoints_statuses_and_headers Standings.handler Standings.CACHE_TTL
                unknown_season 0 5 ∅ (GET []) out.1 out.2
                ltac:(cbn; tauto) (surjective_pairing out))
    as (_ & _ & _ & Hcors & _).
  split; [reflexivity|].
  exact (List.Forall_inv Hcors).
Defined.

